(** * Natural-language-to-SQL backend: prompt analysis and SQL guardrails

    A shallow embedding of the JavaScript backend (the Express server with its
    prompt analyzer, and the [SQLGenerator] class) together with the theorems
    that settle the specification's claims about it.

    Modelling conventions.
    - A JavaScript string is a Rocq [string]: a sequence of 8-bit code units
      read as Latin-1 code points.  [toLowerCase] maps the Latin-1 capitals;
      [toUpperCase] expands the sharp s to two letters as the language does,
      and leaves the two letters whose capital lies outside the 8-bit range
      (micro sign, y with diaeresis) in place: no literal searched by the
      code contains them.
    - A regular expression literal is a value of [regex], run by a
      backtracking matcher with the priorities of the language (leftmost
      start, greedy iteration, ordered alternation).  The [i] flag is
      written into the literal ([liti]); the [g] flag is the choice of the
      calling function ([matchAll], [replaceAll]).
    - A JavaScript number is a binary64 float ([PrimFloat]).
    - [null]/[undefined] results are [None].  *)

From Stdlib Require Import List Ascii String Bool Arith ZArith Lia PrimFloat.
From Stdlib Require Import DecimalString.
Import ListNotations.
Local Open Scope string_scope.
Local Open Scope list_scope.
Local Open Scope nat_scope.

Set Implicit Arguments.
#[local] Set Warnings "-inexact-float,-abstract-large-number".

(** ** Strings of the host language *)

Module JS.

Definition chars (s : string) : list ascii := list_ascii_of_string s.
Definition str (l : list ascii) : string := string_of_list_ascii l.

Definition code (c : ascii) : nat := nat_of_ascii c.

Definition between (lo hi : nat) (c : ascii) : bool :=
  (lo <=? code c) && (code c <=? hi).

Definition isUpperAZ (c : ascii) : bool := between 65 90 c.
Definition isLowerAZ (c : ascii) : bool := between 97 122 c.
Definition isDigit (c : ascii) : bool := between 48 57 c.

(** [\w] of a regular expression: [[A-Za-z0-9_]]. *)
Definition isWordChar (c : ascii) : bool :=
  isUpperAZ c || isLowerAZ c || isDigit c || (code c =? 95).

(** White space and line terminators below U+0100: TAB, LF, VT, FF, CR,
    SP and NBSP.  This is both what [trim] strips and what [\s] matches. *)
Definition isSpace (c : ascii) : bool :=
  between 9 13 c || (code c =? 32) || (code c =? 160).

Definition lowerChar (c : ascii) : ascii :=
  if isUpperAZ c || (between 192 222 c && negb (code c =? 215))
  then ascii_of_nat (code c + 32) else c.

Definition upperChar (c : ascii) : list ascii :=
  if code c =? 223 then ["S"%char; "S"%char]
  else if isLowerAZ c || (between 224 254 c && negb (code c =? 247))
  then [ascii_of_nat (code c - 32)] else [c].

(** ASCII-only case folding: how an [i]-flagged literal made of ASCII
    characters compares with a subject character. *)
Definition foldChar (c : ascii) : ascii :=
  if isUpperAZ c then ascii_of_nat (code c + 32) else c.

Definition toLowerCaseL (l : list ascii) : list ascii := map lowerChar l.
Definition toUpperCaseL (l : list ascii) : list ascii := flat_map upperChar l.

Definition toLowerCase (s : string) : string := str (toLowerCaseL (chars s)).
Definition toUpperCase (s : string) : string := str (toUpperCaseL (chars s)).

Fixpoint dropWhile (p : ascii -> bool) (l : list ascii) : list ascii :=
  match l with
  | [] => []
  | c :: t => if p c then dropWhile p t else l
  end.

Definition trimStartL (l : list ascii) : list ascii := dropWhile isSpace l.
Definition trimEndL (l : list ascii) : list ascii := rev (dropWhile isSpace (rev l)).
Definition trimL (l : list ascii) : list ascii := trimEndL (trimStartL l).
Definition trim (s : string) : string := str (trimL (chars s)).

Fixpoint eqL (a b : list ascii) : bool :=
  match a, b with
  | [], [] => true
  | x :: a', y :: b' => Ascii.eqb x y && eqL a' b'
  | _, _ => false
  end.

(** [startsWithL p l]: [p] is a prefix of [l]. *)
Fixpoint startsWithL (p l : list ascii) : bool :=
  match p, l with
  | [], _ => true
  | x :: p', y :: l' => Ascii.eqb x y && startsWithL p' l'
  | _ :: _, [] => false
  end.

Definition endsWithL (p l : list ascii) : bool := startsWithL (rev p) (rev l).

Fixpoint includesL (p l : list ascii) : bool :=
  startsWithL p l || match l with [] => false | _ :: t => includesL p t end.

(** [indexOf]: [None] stands for the result [-1]. *)
Fixpoint indexOfL (p l : list ascii) : option nat :=
  if startsWithL p l then Some 0
  else match l with
       | [] => None
       | _ :: t => option_map S (indexOfL p t)
       end.

Definition startsWith (s p : string) : bool := startsWithL (chars p) (chars s).
Definition endsWith (s p : string) : bool := endsWithL (chars p) (chars s).
Definition includes (s p : string) : bool := includesL (chars p) (chars s).
Definition indexOf (s p : string) : option nat := indexOfL (chars p) (chars s).
Definition substring (s : string) (from : nat) : string := str (skipn from (chars s)).
Definition slice := substring.
Definition charAt (s : string) (i : nat) : string := str (firstn 1 (skipn i (chars s))).

(** Truthiness of a string value: the empty string is falsy. *)
Definition truthy (s : string) : bool := negb (String.eqb s "").

(** [a.includes(x)] on an array of strings. *)
Definition arrayIncludes (a : list string) (x : string) : bool :=
  existsb (String.eqb x) a.

Fixpoint join (sep : string) (a : list string) : string :=
  match a with
  | [] => ""
  | [x] => x
  | x :: t => (x ++ sep ++ join sep t)%string
  end.

(** [padStart(n, "0")]. *)
Definition padStart0 (n : nat) (s : string) : string :=
  (str (repeat "0"%char (n - String.length s)) ++ s)%string.

(** An awaited call either yields a value or throws an error, carried by
    its text. *)
Inductive outcome (A : Type) : Type :=
| Ok : A -> outcome A
| Throw : string -> outcome A.
Arguments Ok {A} _.
Arguments Throw {A} _.

End JS.

(** ** Regular expressions *)

Module Regex.
Import JS.

Inductive regex : Type :=
| Eps : regex
| Chr : (ascii -> bool) -> regex
| Seq : regex -> regex -> regex
| Alt : regex -> regex -> regex
| Star : regex -> regex
| Group : nat -> regex -> regex
| WordB : regex
| Bol : regex
| Eol : regex.

(** Matcher state: the character before the current position (for [^] and
    [\b]), the text still to read, and the groups captured so far, most
    recent first. *)
Record mstate : Type := MState {
  ms_prev : option ascii;
  ms_rest : list ascii;
  ms_caps : list (nat * list ascii)
}.

Definition isWordOpt (o : option ascii) : bool :=
  match o with Some c => isWordChar c | None => false end.

(** Greedy iteration of [body], then the continuation [k].  An iteration
    that reads nothing is refused, so the length of the remaining text
    bounds the number of iterations. *)
Fixpoint starLoop (fuel : nat)
    (body : (mstate -> option mstate) -> mstate -> option mstate)
    (k : mstate -> option mstate) (s : mstate) : option mstate :=
  match fuel with
  | 0 => k s
  | S f =>
      match body (fun s' =>
                    if List.length (ms_rest s') <? List.length (ms_rest s)
                    then starLoop f body k s' else None) s with
      | Some r => Some r
      | None => k s
      end
  end.

Fixpoint run (r : regex) (k : mstate -> option mstate) (s : mstate)
  : option mstate :=
  match r with
  | Eps => k s
  | Chr p =>
      match ms_rest s with
      | c :: t => if p c then k (MState (Some c) t (ms_caps s)) else None
      | [] => None
      end
  | Seq a b => run a (run b k) s
  | Alt a b =>
      match run a k s with
      | Some x => Some x
      | None => run b k s
      end
  | Star a => starLoop (List.length (ms_rest s)) (run a) k s
  | Group n a =>
      run a (fun s' =>
               k (MState (ms_prev s') (ms_rest s')
                    ((n, firstn (List.length (ms_rest s) - List.length (ms_rest s'))
                           (ms_rest s)) :: ms_caps s'))) s
  | WordB =>
      if xorb (isWordOpt (ms_prev s)) (isWordOpt (hd_error (ms_rest s)))
      then k s else None
  | Bol => match ms_prev s with None => k s | Some _ => None end
  | Eol => match ms_rest s with [] => k s | _ :: _ => None end
  end.

(** One attempt at the current position. *)
Definition matchHere (r : regex) (prev : option ascii) (rest : list ascii)
  : option mstate := run r (@Some mstate) (MState prev rest []).

(** A successful match: where it starts, the matched text, the groups. *)
Record rmatch : Type := RMatch {
  m_index : nat;
  m_text : string;
  m_caps : list (nat * list ascii)
}.

Fixpoint lookupCap (n : nat) (caps : list (nat * list ascii)) : option string :=
  match caps with
  | [] => None
  | (i, v) :: t => if i =? n then Some (str v) else lookupCap n t
  end.

(** [m[n]] for [n >= 1]; [None] when the group took no part in the match. *)
Definition group (m : rmatch) (n : nat) : option string := lookupCap n (m_caps m).

(** Leftmost match at or after the current position. *)
Fixpoint searchFrom (r : regex) (prev : option ascii) (rest : list ascii)
    (pos : nat) : option rmatch :=
  match matchHere r prev rest with
  | Some s' =>
      Some (RMatch pos
              (str (firstn (List.length rest - List.length (ms_rest s')) rest))
              (ms_caps s'))
  | None =>
      match rest with
      | [] => None
      | c :: t => searchFrom r (Some c) t (S pos)
      end
  end.

(** [s.match(r)] and [r.exec(s)] for a regex without the [g] flag. *)
Definition exec (r : regex) (s : string) : option rmatch :=
  searchFrom r None (chars s) 0.

(** [r.test(s)]. *)
Definition test (r : regex) (s : string) : bool :=
  match exec r s with Some _ => true | None => false end.

(** The scan shared by the [g]-flagged operations.  At each position the
    regex is tried; on a match [onMatch] receives the matched text and the
    scan resumes after it (one character further when the match is empty),
    otherwise [onChar] receives the character skipped. *)
Fixpoint scan (A : Type) (r : regex)
    (onMatch : list ascii -> A -> A) (onChar : ascii -> A -> A) (done : A)
    (fuel : nat) (prev : option ascii) (rest : list ascii) : A :=
  match fuel with
  | 0 => done
  | S f =>
      match matchHere r prev rest with
      | Some s' =>
          let n := List.length rest - List.length (ms_rest s') in
          if 0 <? n
          then onMatch (firstn n rest)
                 (scan r onMatch onChar done f (ms_prev s') (ms_rest s'))
          else onMatch []
                 (match rest with
                  | [] => done
                  | c :: t => onChar c (scan r onMatch onChar done f (Some c) t)
                  end)
      | None =>
          match rest with
          | [] => done
          | c :: t => onChar c (scan r onMatch onChar done f (Some c) t)
          end
      end
  end.

(** [s.match(r)] with the [g] flag: every match, left to right
    ([null] is the empty list here; the callers take [|| []]). *)
Definition matchAllL (r : regex) (l : list ascii) : list (list ascii) :=
  scan r (fun m acc => m :: acc) (fun _ acc => acc) [] (S (List.length l)) None l.

Definition matchAll (r : regex) (s : string) : list string :=
  map str (matchAllL r (chars s)).

(** [s.replace(r, by)] with the [g] flag and a replacement without [$]. *)
Definition replaceAllL (r : regex) (by_ : list ascii) (l : list ascii)
  : list ascii :=
  scan r (fun _ acc => by_ ++ acc) (fun c acc => c :: acc) [] (S (List.length l)) None l.

Definition replaceAll (r : regex) (by_ : string) (s : string) : string :=
  str (replaceAllL r (chars by_) (chars s)).

(** [s.split(r)] for a separator regex without groups.  The separator is
    tried at every position before the end; a match splits unless it is
    empty and stands where the current piece starts, in which case, as when
    there is no match, the character joins the piece. *)
Fixpoint splitLoop (r : regex) (fuel : nat) (prev : option ascii)
    (piece : list ascii) (rest : list ascii) : list (list ascii) :=
  match fuel with
  | 0 => [rev piece]
  | S f =>
      match rest with
      | [] => [rev piece]
      | c :: t =>
          match matchHere r prev rest with
          | Some s' =>
              if (List.length (ms_rest s') =? List.length rest)
                 && (List.length piece =? 0)
              then splitLoop r f (Some c) (c :: piece) t
              else rev piece :: splitLoop r f (ms_prev s') [] (ms_rest s')
          | None => splitLoop r f (Some c) (c :: piece) t
          end
      end
  end.

Definition split (r : regex) (s : string) : list string :=
  match chars s with
  | [] => match matchHere r None [] with Some _ => [] | None => [""] end
  | l => map str (splitLoop r (S (2 * List.length l)) None [] l)
  end.

(** *** Notation of the literals *)

Definition chr (c : ascii) : regex := Chr (Ascii.eqb c).
Definition chri (c : ascii) : regex := Chr (fun x => Ascii.eqb (foldChar x) (foldChar c)).

Fixpoint seqs (l : list regex) : regex :=
  match l with
  | [] => Eps
  | [r] => r
  | r :: t => Seq r (seqs t)
  end.

Fixpoint alts (l : list regex) : regex :=
  match l with
  | [] => Chr (fun _ => false)
  | [r] => r
  | r :: t => Alt r (alts t)
  end.

(** A literal word, and the same under the [i] flag. *)
Definition lit (s : string) : regex := seqs (map chr (chars s)).
Definition liti (s : string) : regex := seqs (map chri (chars s)).

Definition plus (r : regex) : regex := Seq r (Star r).
Definition opt (r : regex) : regex := Alt r Eps.

(** [r{n}] and [r{n,m}]. *)
Fixpoint rep (n : nat) (r : regex) : regex :=
  match n with
  | 0 => Eps
  | S n' => Seq r (rep n' r)
  end.

Fixpoint upto (n : nat) (r : regex) : regex :=
  match n with
  | 0 => Eps
  | S n' => opt (Seq r (upto n' r))
  end.

Definition repRange (n m : nat) (r : regex) : regex := Seq (rep n r) (upto (m - n) r).

Definition ws : regex := Chr isSpace.          (* \s *)
Definition digit : regex := Chr isDigit.       (* \d *)
Definition wordc : regex := Chr isWordChar.    (* \w *)
Definition range (lo hi : ascii) : regex := Chr (between (code lo) (code hi)).
Definition notChr (c : ascii) : regex := Chr (fun x => negb (Ascii.eqb x c)).

End Regex.

(** ** The server: schema configuration, guardrails and prompt analysis *)

Module Server.
Import JS Regex.

(** The fixed zero-row statement every failure path falls back to. *)
Definition FALLBACK : string := "SELECT TOP (0) * FROM SalesReport_Form_Input".

Record TableMapping : Type := {
  t_table : string;
  t_synonyms : list string;
  t_description : string;
  t_patterns : option (list regex)
}.

Record ColumnMapping : Type := {
  c_column : string;
  c_operator : option string;
  c_function : option string;
  c_related : option string;
  c_synonyms : list string;
  c_patterns : option (list regex)
}.

(** [a\s+b] under the [i] flag. *)
Definition sp (a b : string) : regex := seqs [liti a; plus ws; liti b].

(** The entries in the order [Object.entries] yields them (insertion order). *)
Definition TABLE_MAPPINGS : list (string * TableMapping) :=
  [ ("sales",
     {| t_table := "SalesReport_Form_Input";
        t_synonyms := ["sales"; "sale"; "sold"; "deal"; "deals"; "transaction";
                       "revenue"; "gross"; "purchase"];
        t_description := "Sales data including deals, costs, and dealership information";
        t_patterns := Some [ Seq (sp "sales" "by") (plus ws);
                             Seq (sp "sales" "for") (plus ws);
                             Seq (sp "deals" "by") (plus ws);
                             sp "count" "deals";
                             sp "count" "sales" ] |});
    ("inventory",
     {| t_table := "Common_Group_401_Vehicle_Inventory";
        t_synonyms := ["inventory"; "stock"; "vehicles"; "available"; "on hand"];
        t_description := "Vehicle inventory data";
        t_patterns := None |});
    ("rvac",
     {| t_table := "SaleWarranty_RVAC_CONTRACTS";
        t_synonyms := ["rvac"; "warranty"; "contract"; "service contract";
                       "extended warranty"];
        t_description := "RVAC warranty contracts";
        t_patterns := None |}) ].

Definition monthNames : list string :=
  ["january"; "february"; "march"; "april"; "may"; "june"; "july"; "august";
   "september"; "october"; "november"; "december"].

(** [january|february|...|december] under the [i] flag. *)
Definition monthAlt : regex := alts (map liti monthNames).

(** [\b(20\d{2})\b] *)
Definition year20 : regex :=
  seqs [WordB; Group 1 (Seq (lit "20") (rep 2 digit)); WordB].

(** [(?:st|nd|rd|th)?] *)
Definition ordinalSuffix : regex :=
  opt (alts [liti "st"; liti "nd"; liti "rd"; liti "th"]).

Definition COLUMN_MAPPINGS : list (string * ColumnMapping) :=
  [ ("dealership",
     {| c_column := "DEALER_LOCATION"; c_operator := Some "=";
        c_function := None; c_related := None;
        c_synonyms := ["dealership"; "dealer"; "location"; "store"; "branch";
                       "by location"; "per location"];
        c_patterns := Some [sp "by" "location"; sp "per" "location";
                            sp "location" "wise"] |});
    ("gross",
     {| c_column := "TOTAL_COST"; c_operator := None;
        c_function := Some "SUM"; c_related := None;
        c_synonyms := ["gross"; "total cost"; "revenue"; "amount"; "price";
                       "cost"; "total"; "total gross"];
        c_patterns := Some [sp "total" "cost"; sp "total" "gross"] |});
    ("front_gross",
     {| c_column := "FRONT_COST"; c_operator := None;
        c_function := Some "SUM"; c_related := None;
        c_synonyms := ["front gross"; "front cost"; "front"; "front profit";
                       "front margin"];
        c_patterns := Some [sp "front" "gross"; sp "front" "cost"] |});
    ("fi_gross",
     {| c_column := "FI_COST"; c_operator := None;
        c_function := Some "SUM"; c_related := None;
        c_synonyms := ["fi gross"; "fi cost"; "finance income"; "fi income";
                       "finance gross"; "backend gross"];
        c_patterns := Some [sp "fi" "gross"; sp "fi" "cost";
                            sp "finance" "income"] |});
    ("count",
     {| c_column := "ID"; c_operator := None;
        c_function := Some "COUNT"; c_related := None;
        c_synonyms := ["count"; "number"; "how many"; "total deals"; "total sales"];
        c_patterns := Some [liti "count"; liti "number of"; liti "how many"] |});
    ("month",
     {| c_column := "MONTH_REPORTED"; c_operator := None;
        c_function := None; c_related := Some "YEAR_REPORTED";
        c_synonyms := ["month"; "monthly"; "last month"; "this month"; "mtd";
                       "january"; "february"; "march"; "april"; "may"; "june";
                       "july"; "august"; "september"; "october"; "november";
                       "december"];
        c_patterns := Some [Group 1 monthAlt] |});
    ("year",
     {| c_column := "YEAR_REPORTED"; c_operator := None;
        c_function := None; c_related := None;
        c_synonyms := ["year"; "yearly"; "annual"; "last year"; "this year";
                       "ytd"; "year to date"];
        c_patterns := Some [ year20;
                             seqs [WordB; Group 1 (Seq (lit "19") (rep 2 digit)); WordB];
                             liti "year"; liti "ytd"; liti "annual" ] |});
    ("quarter",
     {| c_column := "DATEPART(QUARTER, DATE_REPORTED)"; c_operator := None;
        c_function := None; c_related := None;
        c_synonyms := ["quarter"; "quarterly"; "q1"; "q2"; "q3"; "q4"];
        c_patterns := Some [ Seq (liti "q") (range "1" "4");
                             liti "quarter"; liti "quarterly" ] |});
    ("day",
     {| c_column := "DATE_REPORTED"; c_operator := None;
        c_function := None; c_related := None;
        c_synonyms := ["day"; "daily"; "today"; "yesterday"; "date";
                       "specific date"; "day before yesterday"];
        c_patterns := Some [ liti "today"; liti "yesterday";
                             liti "day before yesterday";
                             seqs [WordB; plus wordc; plus ws; repRange 1 2 digit;
                                   ordinalSuffix; chr ","; plus ws; rep 4 digit;
                                   WordB];
                             liti "daily" ] |});
    ("week",
     {| c_column := "DATE_REPORTED"; c_operator := None;
        c_function := None; c_related := None;
        c_synonyms := ["week"; "weekly"; "this week"; "last week"; "week to date"];
        c_patterns := Some [liti "week"; liti "weekly"] |}) ].

(** *** [isSafeSelect]

    The argument is a string; [null] and [undefined] are the empty string's
    case ([!sqlText]). *)

Definition forbidden : list string :=
  ["insert "; "update "; "delete "; "drop "; "alter ";
   "create "; "truncate "; "exec "; "merge "; "grant "; "revoke "].

Definition isSafeSelect (sqlText : string) : bool :=
  if negb (truthy sqlText) then false else
  let lowered := toLowerCase (trim sqlText) in
  (* Allow trailing semicolon but not multiple statements *)
  let semicolonCount := List.length (matchAll (chr ";") lowered) in
  if (1 <? semicolonCount) || ((semicolonCount =? 1) && negb (endsWith lowered ";"))
  then false else
  if negb (startsWith lowered "select" || startsWith lowered "with") then false else
  if existsb (fun kw => includes lowered kw) forbidden then false else
  true.

(** *** [validateAndCleanSql]

    [sql] is [None] when the caller passes [undefined] or [null]. *)

(** The markdown fence: three backquotes, [[\w]*], [\n?]. *)
Definition fence : regex :=
  seqs [lit "```"; Star wordc; opt (chr (ascii_of_nat 10))].

Definition dangerousKeywords : list string :=
  ["DROP"; "DELETE"; "UPDATE"; "INSERT"; "ALTER"; "CREATE"; "TRUNCATE"].

Definition validateAndCleanSql (sql : option string) (expectedTable : string)
  : string :=
  match sql with
  | None => FALLBACK
  | Some sql0 =>
      if negb (truthy sql0) then FALLBACK else
      (* Remove markdown code blocks *)
      let sql1 := trim (replaceAll fence "" sql0) in
      (* Ensure it's a SELECT query *)
      if negb (startsWith (toUpperCase sql1) "SELECT")
         && negb (startsWith (toUpperCase sql1) "WITH")
      then FALLBACK else
      (* Check for dangerous operations *)
      if existsb (fun keyword =>
                    includes (toUpperCase sql1) (" " ++ keyword ++ " ")%string)
           dangerousKeywords
      then FALLBACK else
      sql1
  end.

(** *** The prompt analyzer *)

Definition dquote : ascii := ascii_of_nat 34.
Definition squote : ascii := ascii_of_nat 39.

(** Decimal rendering of a number, and reading of a run of digits. *)
Definition showNat (n : nat) : string := NilEmpty.string_of_uint (Nat.to_uint n).
Definition showZ (z : Z) : string := NilZero.string_of_int (Z.to_int z).

(** [parseInt(s, 10)] on a string of decimal digits. *)
Definition parseInt10 (s : string) : nat :=
  fold_left (fun acc c => 10 * acc + (code c - 48)) (chars s) 0.

(** [m[n]] for a group that takes part in every match of its regex. *)
Definition grp (m : rmatch) (n : nat) : string :=
  match group m n with Some s => s | None => "" end.

Definition stopwords : list string := ["for"; "in"; "by"; "with"; "and"; "the"; "a"; "an"].

(** A double-quoted run of non-double-quotes (group 1), or a single-quoted
    run of non-single-quotes (group 2). *)
Definition quotedRe : regex :=
  Alt (seqs [chr dquote; Group 1 (plus (notChr dquote)); chr dquote])
      (seqs [chr squote; Group 2 (plus (notChr squote)); chr squote]).

(** [words[i]], [""] standing for [undefined] (both are falsy). *)
Definition word (words : list string) (i : nat) : string := nth i words "".

Definition extractValueFromPrompt (prompt keyword : string)
    (matchedPattern : option string) : option string :=
  let promptLower := toLowerCase prompt in
  let keywordLower := toLowerCase keyword in
  (* If we have a matched pattern (like "2025 DECEMBER"), use it *)
  let fromPattern :=
    match matchedPattern with
    | Some mp =>
        if truthy mp then
          let yearMatch := exec year20 mp in
          let monthMatch := exec (Group 1 monthAlt) mp in
          match (if String.eqb keywordLower "year" then yearMatch else None) with
          | Some ym => Some (m_text ym)
          | None =>
              match (if String.eqb keywordLower "month" then monthMatch else None) with
              | Some mm => Some (m_text mm)
              | None => None
              end
          end
        else None
    | None => None
    end in
  match fromPattern with
  | Some v => Some v
  | None =>
      (* Look for quoted values *)
      match exec quotedRe prompt with
      | Some q =>
          match group q 1 with
          | Some g1 => if truthy g1 then Some g1 else group q 2
          | None => group q 2
          end
      | None =>
          (* Look for values after keywords *)
          match indexOf promptLower keywordLower with
          | Some idx =>
              let after := substring prompt (idx + String.length keyword) in
              let words := split (plus ws) (trim after) in
              let yearHit :=
                if includes keywordLower "year" then exec year20 after else None in
              match yearHit with
              | Some ym => Some (m_text ym)
              | None =>
                  let monthHit :=
                    if includes keywordLower "month"
                    then exec (Group 1 monthAlt) after else None in
                  match monthHit with
                  | Some mm => Some (m_text mm)
                  | None =>
                      (* Return next meaningful word(s) *)
                      if truthy (word words 0)
                         && negb (arrayIncludes stopwords (toLowerCase (word words 0)))
                      then Some (word words 0)
                      else if truthy (word words 1) then Some (word words 1)
                      else None
                  end
              end
          | None => None
          end
      end
  end.

(** Helper for aggregate aliases. *)
Definition aliases : list (string * string) :=
  [("count", "TotalDeals"); ("gross", "TotalGross"); ("front_gross", "FrontGross");
   ("fi_gross", "FIGross"); ("total_cost", "TotalCost")].

Fixpoint assoc (A : Type) (k : string) (l : list (string * A)) : option A :=
  match l with
  | [] => None
  | (k', v) :: t => if String.eqb k k' then Some v else assoc k t
  end.

Definition getAggregateAlias (concept : string) : string :=
  match assoc concept aliases with
  | Some a => a
  | None => (toUpperCase (charAt concept 0) ++ slice concept 1)%string
  end.

(** Helper to detect GROUP BY requirements. *)
Definition groupPatterns : list (regex * string) :=
  [ (sp "by" "location", "DEALER_LOCATION");
    (sp "by" "month", "MONTH_REPORTED");
    (sp "by" "year", "YEAR_REPORTED");
    (sp "by" "dealer", "DEALER_LOCATION");
    (sp "per" "location", "DEALER_LOCATION");
    (sp "by" "quarter", "DATEPART(QUARTER, DATE_REPORTED)");
    (sp "by" "week", "DATEPART(WEEK, DATE_REPORTED)");
    (sp "by" "day", "CAST(DATE_REPORTED AS DATE)") ].

Definition detectGroupBy (prompt : string) : option string :=
  let promptLower := toLowerCase prompt in
  match find (fun gp => test (fst gp) promptLower) groupPatterns with
  | Some gp => Some (snd gp)
  | None =>
      (* Default group by for "by location" queries *)
      if includes promptLower "by location" || includes promptLower "per location"
      then Some "DEALER_LOCATION" else None
  end.

(** The time-range value a rule builds: the literal fields of the matched
    text (absent properties are [None]) and the predicate text. *)
Record TimeRange : Type := {
  year : option string;
  month : option string;
  relative : option string;
  quarter : option string;
  date : option string;
  start : option string;
  end_ : option string;
  sqlCondition : string
}.

Definition timeRange0 (cond : string) : TimeRange :=
  {| year := None; month := None; relative := None; quarter := None;
     date := None; start := None; end_ := None; sqlCondition := cond |}.

Record TimeRule : Type := {
  regex_ : regex;
  type : string;
  handler : rmatch -> TimeRange
}.

(** [new Date(name + " 1").getMonth() + 1]: the month's number, read from
    the month's name whatever its letter case. *)
Fixpoint indexOfName (name : string) (names : list string) (i : nat) : nat :=
  match names with
  | [] => 0
  | n :: t => if String.eqb n name then i else indexOfName name t (S i)
  end.

Definition monthNumber (name : string) : nat :=
  indexOfName (toLowerCase name) monthNames 1.

Definition isoDate (y : string) (monthNum day : nat) : string :=
  (y ++ "-" ++ padStart0 2 (showNat monthNum) ++ "-" ++ padStart0 2 (showNat day))%string.

(** [(a|b|c)] under the [i] flag, as group 1. *)
Definition oneOf (l : list string) : regex := Group 1 (alts (map liti l)).

Definition patterns : list TimeRule :=
  [ {| regex_ := seqs [Group 1 (rep 4 digit); plus ws; Group 2 monthAlt];
       type := "specific_month_year";
       handler := fun m =>
         {| year := Some (grp m 1);
            month := Some (toLowerCase (grp m 2));
            relative := None; quarter := None; date := None;
            start := None; end_ := None;
            sqlCondition :=
              ("MONTH_REPORTED = '" ++ toUpperCase (charAt (grp m 2) 0)
                 ++ toLowerCase (slice (grp m 2) 1)
                 ++ "' AND YEAR_REPORTED = '" ++ grp m 1 ++ "'")%string |} |};
    {| regex_ := seqs [oneOf ["last"; "this"; "next"]; plus ws; liti "month"];
       type := "relative_month";
       handler := fun m =>
         let month := toLowerCase (grp m 1) in
         {| year := None; month := None; relative := Some month;
            quarter := None; date := None; start := None; end_ := None;
            sqlCondition :=
              if String.eqb month "last"
              then "MONTH_REPORTED = DATENAME(MONTH, DATEADD(MONTH, -1, GETDATE())) AND YEAR_REPORTED = YEAR(DATEADD(MONTH, -1, GETDATE()))"
              else "MONTH_REPORTED = DATENAME(MONTH, GETDATE()) AND YEAR_REPORTED = YEAR(GETDATE())" |} |};
    {| regex_ := year20;
       type := "specific_year";
       handler := fun m =>
         {| year := Some (m_text m); month := None; relative := None;
            quarter := None; date := None; start := None; end_ := None;
            sqlCondition := ("YEAR_REPORTED = '" ++ m_text m ++ "'")%string |} |};
    {| regex_ := seqs [liti "q"; Group 1 (range "1" "4"); plus ws; Group 2 (rep 4 digit)];
       type := "quarter_year";
       handler := fun m =>
         {| year := Some (grp m 2); month := None; relative := None;
            quarter := Some (grp m 1); date := None; start := None; end_ := None;
            sqlCondition :=
              ("DATEPART(QUARTER, DATE_REPORTED) = " ++ grp m 1
                 ++ " AND YEAR(DATE_REPORTED) = " ++ grp m 2)%string |} |};
    (* Specific date (e.g., "January 9, 2026") *)
    {| regex_ := seqs [Group 1 monthAlt; plus ws; Group 2 (repRange 1 2 digit);
                       ordinalSuffix; chr ","; plus ws; Group 3 (rep 4 digit)];
       type := "specific_date";
       handler := fun m =>
         let monthNum := monthNumber (grp m 1) in
         let day := parseInt10 (grp m 2) in
         let year := grp m 3 in
         let dateStr := isoDate year monthNum day in
         {| year := None; month := None; relative := None; quarter := None;
            date := Some dateStr; start := None; end_ := None;
            sqlCondition := ("CAST(DATE_REPORTED AS DATE) = '" ++ dateStr ++ "'")%string |} |};
    (* Year to date (YTD) *)
    {| regex_ := oneOf ["ytd"; "year to date"; "this year so far"];
       type := "ytd";
       handler := fun _ => timeRange0
         "DATE_REPORTED >= DATEFROMPARTS(YEAR(GETDATE()), 1, 1) AND DATE_REPORTED <= GETDATE()" |};
    (* Month to date (MTD) *)
    {| regex_ := oneOf ["mtd"; "month to date"; "this month so far"];
       type := "mtd";
       handler := fun _ => timeRange0
         "DATE_REPORTED >= DATEFROMPARTS(YEAR(GETDATE()), MONTH(GETDATE()), 1) AND DATE_REPORTED <= GETDATE()" |};
    (* Relative years (last/this/next year) *)
    {| regex_ := seqs [oneOf ["last"; "this"; "next"]; plus ws; liti "year"];
       type := "relative_year";
       handler := fun m =>
         let rel := toLowerCase (grp m 1) in
         let offset := if String.eqb rel "last" then (-1)%Z
                       else if String.eqb rel "next" then 1%Z else 0%Z in
         {| year := None; month := None; relative := Some rel;
            quarter := None; date := None; start := None; end_ := None;
            sqlCondition :=
              ("YEAR_REPORTED = YEAR(DATEADD(YEAR, " ++ showZ offset
                 ++ ", GETDATE()))")%string |} |};
    (* Relative quarters (last/this quarter) *)
    {| regex_ := seqs [oneOf ["last"; "this"]; plus ws; liti "quarter"];
       type := "relative_quarter";
       handler := fun m =>
         let rel := toLowerCase (grp m 1) in
         let offset := if String.eqb rel "last" then (-1)%Z else 0%Z in
         {| year := None; month := None; relative := Some rel;
            quarter := None; date := None; start := None; end_ := None;
            sqlCondition :=
              ("DATEPART(QUARTER, DATE_REPORTED) = DATEPART(QUARTER, DATEADD(QUARTER, "
                 ++ showZ offset
                 ++ ", GETDATE())) AND YEAR(DATE_REPORTED) = YEAR(DATEADD(QUARTER, "
                 ++ showZ offset ++ ", GETDATE()))")%string |} |};
    {| regex_ := liti "today"; type := "today";
       handler := fun _ => timeRange0
         "CAST(DATE_REPORTED AS DATE) = CAST(GETDATE() AS DATE)" |};
    {| regex_ := liti "yesterday"; type := "yesterday";
       handler := fun _ => timeRange0
         "CAST(DATE_REPORTED AS DATE) = CAST(DATEADD(DAY, -1, GETDATE()) AS DATE)" |};
    {| regex_ := liti "day before yesterday"; type := "day_before_yesterday";
       handler := fun _ => timeRange0
         "CAST(DATE_REPORTED AS DATE) = CAST(DATEADD(DAY, -2, GETDATE()) AS DATE)" |};
    {| regex_ := liti "this week"; type := "this_week";
       handler := fun _ => timeRange0
         "DATE_REPORTED >= DATEADD(DAY, 1 - DATEPART(WEEKDAY, GETDATE()), CAST(GETDATE() AS DATE)) AND DATE_REPORTED < DATEADD(DAY, 8 - DATEPART(WEEKDAY, GETDATE()), CAST(GETDATE() AS DATE))" |};
    {| regex_ := liti "last week"; type := "last_week";
       handler := fun _ => timeRange0
         "DATE_REPORTED >= DATEADD(DAY, 1 - DATEPART(WEEKDAY, DATEADD(DAY, -7, GETDATE())), CAST(DATEADD(DAY, -7, GETDATE()) AS DATE)) AND DATE_REPORTED < DATEADD(DAY, 8 - DATEPART(WEEKDAY, DATEADD(DAY, -7, GETDATE())), CAST(DATEADD(DAY, -7, GETDATE()) AS DATE))" |};
    {| regex_ := Alt (liti "last 7 days") (liti "past week"); type := "last_7_days";
       handler := fun _ => timeRange0
         "DATE_REPORTED >= DATEADD(DAY, -7, GETDATE()) AND DATE_REPORTED < GETDATE()" |};
    {| regex_ := Alt (liti "last 30 days") (liti "past month"); type := "last_30_days";
       handler := fun _ => timeRange0
         "DATE_REPORTED >= DATEADD(DAY, -30, GETDATE()) AND DATE_REPORTED < GETDATE()" |};
    (* Custom range (e.g., "from January 1 to January 15 2026" - basic parsing) *)
    {| regex_ := seqs [liti "from"; plus ws; Group 1 monthAlt; plus ws;
                       Group 2 (repRange 1 2 digit); ordinalSuffix; plus ws;
                       liti "to"; plus ws; Group 3 monthAlt; plus ws;
                       Group 4 (repRange 1 2 digit); ordinalSuffix; plus ws;
                       Group 5 (rep 4 digit)];
       type := "custom_range";
       handler := fun m =>
         let startMonthNum := monthNumber (grp m 1) in
         let startDay := parseInt10 (grp m 2) in
         let endMonthNum := monthNumber (grp m 3) in
         let endDay := parseInt10 (grp m 4) in
         let year := grp m 5 in
         let startDate := isoDate year startMonthNum startDay in
         let endDate := isoDate year endMonthNum endDay in
         {| year := None; month := None; relative := None; quarter := None;
            date := None; start := Some startDate; end_ := Some endDate;
            sqlCondition :=
              ("CAST(DATE_REPORTED AS DATE) BETWEEN '" ++ startDate
                 ++ "' AND '" ++ endDate ++ "'")%string |} |} ].

(** The loop of [detectTimeRangeEnhanced]: the first rule, in list order,
    whose regex matches the prompt, with its match. *)
Fixpoint firstRule (rules : list TimeRule) (prompt : string)
  : option (TimeRule * rmatch) :=
  match rules with
  | [] => None
  | p :: t =>
      match exec (regex_ p) prompt with
      | Some m => Some (p, m)
      | None => firstRule t prompt
      end
  end.

Definition detectTimeRangeEnhanced (prompt : string) : option TimeRange :=
  match firstRule patterns prompt with
  | Some (p, m) => Some (handler p m)
  | None => None
  end.

(** The [type] of the rule whose handler built the result. *)
Definition timeRangeVariant (prompt : string) : option string :=
  match firstRule patterns prompt with
  | Some (p, _) => Some (type p)
  | None => None
  end.

Record DetectedTable : Type := {
  table : string;
  confidence : float;
  key : string
}.

Record Filter : Type := {
  f_column : string;
  f_concept : string;
  f_value : option string;
  f_isAggregate : bool
}.

Record Aggregate : Type := {
  a_column : string;
  a_function : string;
  a_alias : string
}.

Record Presentation : Type := {
  format : string;
  groupBy : option string
}.

Record AnalysisResult : Type := {
  r_table : DetectedTable;
  r_filters : list Filter;
  r_aggregates : list Aggregate;
  r_timeRange : option TimeRange;
  r_presentation : Presentation
}.

(** The score one table entry gets: the synonyms first, then the patterns. *)
Definition tableConfidence (prompt : string) (config : TableMapping) : float :=
  let promptLower := toLowerCase prompt in
  (* Check synonyms *)
  let confidence :=
    fold_left (fun conf syn =>
                 if includes promptLower (toLowerCase syn)
                 then (conf + 0.3)%float else conf)
      (t_synonyms config) 0%float in
  (* Check patterns *)
  match t_patterns config with
  | Some ps =>
      fold_left (fun conf pattern =>
                   if test pattern prompt then (conf + 0.5)%float else conf)
        ps confidence
  | None => confidence
  end.

Definition defaultTable : DetectedTable :=
  {| table := "SalesReport_Form_Input"; confidence := 0.5%float; key := "sales" |}.

(** One turn of the table loop: [confidence > detectedTable.confidence]. *)
Definition tableStep (prompt : string) (detectedTable : DetectedTable)
    (entry : string * TableMapping) : DetectedTable :=
  let (key, config) := entry in
  let confidence := tableConfidence prompt config in
  if PrimFloat.ltb detectedTable.(Server.confidence) confidence
  then {| table := t_table config; confidence := confidence; key := key |}
  else detectedTable.

Definition detectTable (prompt : string) : DetectedTable :=
  fold_left (tableStep prompt) TABLE_MAPPINGS defaultTable.

Definition isSome (A : Type) (o : option A) : bool :=
  match o with Some _ => true | None => false end.

(** What one detection pushes: a filter record, and an aggregate record when
    the concept has a function. *)
Definition pushDetected (key : string) (config : ColumnMapping)
    (value : option string) (acc : list Filter * list Aggregate)
  : list Filter * list Aggregate :=
  let (filters, aggregates) := acc in
  (filters ++ [ {| f_column := c_column config; f_concept := key;
                   f_value := value; f_isAggregate := isSome (c_function config) |} ],
   match c_function config with
   | Some fn =>
       aggregates ++ [ {| a_column := c_column config; a_function := fn;
                          a_alias := getAggregateAlias key |} ]
   | None => aggregates
   end).

(** One turn of the column loop. *)
Definition conceptStep (prompt : string) (acc : list Filter * list Aggregate)
    (entry : string * ColumnMapping) : list Filter * list Aggregate :=
  let promptLower := toLowerCase prompt in
  let (key, config) := entry in
  let ps := match c_patterns config with Some ps => ps | None => [] end in
  (* Check patterns first (more specific) *)
  let acc1 :=
    fold_left (fun acc pattern =>
                 match exec pattern prompt with
                 | Some m =>
                     pushDetected key config
                       (extractValueFromPrompt prompt (hd "" (c_synonyms config))
                          (Some (m_text m))) acc
                 | None => acc
                 end) ps acc in
  let detected := existsb (fun pattern => isSome (exec pattern prompt)) ps in
  (* Check synonyms if not detected by patterns *)
  if detected then acc1 else
  match find (fun syn => includes promptLower (toLowerCase syn)) (c_synonyms config) with
  | Some syn => pushDetected key config (extractValueFromPrompt prompt syn None) acc1
  | None => acc1
  end.

Definition analyzeUserPrompt (prompt : string) : AnalysisResult :=
  let promptLower := toLowerCase prompt in
  (* Detect primary table with pattern matching *)
  let detectedTable := detectTable prompt in
  (* Enhanced filter detection with patterns *)
  let (filters, aggregates0) := fold_left (conceptStep prompt) COLUMN_MAPPINGS ([], []) in
  (* Special handling for "count" - check if it's mentioned independently *)
  let aggregates :=
    if includes promptLower "count"
       && negb (existsb (fun a => String.eqb (a_function a) "COUNT") aggregates0)
    then aggregates0 ++ [ {| a_column := "ID"; a_function := "COUNT";
                             a_alias := "TotalDeals" |} ]
    else aggregates0 in
  (* Enhanced date/time detection *)
  let timeRange := detectTimeRangeEnhanced prompt in
  (* Check for "table format" - this is a presentation hint, not a filter *)
  let requiresTableFormat :=
    test (alts [sp "table" "format"; liti "tabular"; liti "grid"; liti "spreadsheet"])
      prompt in
  {| r_table := detectedTable;
     r_filters := filter (fun f => negb (f_isAggregate f)) filters;
     r_aggregates := aggregates;
     r_timeRange := timeRange;
     r_presentation :=
       {| format := if requiresTableFormat then "table" else "default";
          groupBy := detectGroupBy prompt |} |}.

(** *** The [/api/query] handler *)

(** A cell of a result row.  [VOther] is any other object (a date, a
    buffer), carried by what [String(v)] yields for it. *)
Inductive jsval : Type :=
| VNumber : float -> jsval
| VString : string -> jsval
| VBool : bool -> jsval
| VNull : jsval
| VUndefined : jsval
| VOther : string -> jsval.

(** [String(v)] for a value that is not a number. *)
Definition toStr (v : jsval) : string :=
  match v with
  | VNumber _ => ""
  | VString s => s
  | VBool true => "true"
  | VBool false => "false"
  | VNull => "null"
  | VUndefined => "undefined"
  | VOther s => s
  end.

(** A row: its columns in key order. *)
Definition Row : Type := list (string * jsval).

Definition keys (row : Row) : list string := map fst row.

(** [row[c]] *)
Definition getCol (row : Row) (c : string) : jsval :=
  match assoc c row with Some v => v | None => VUndefined end.

Record QueryResult : Type := { recordset : option (list Row) }.

(** [\b(w\s*chart|wchart|w\s*graph)\b] under the [i] flag. *)
Definition chartPhrase (w : string) : regex :=
  seqs [WordB;
        Group 1 (alts [seqs [liti w; Star ws; liti "chart"];
                       liti (w ++ "chart");
                       seqs [liti w; Star ws; liti "graph"]]);
        WordB].

(** [\b(table|tabular|data\s*table)\b] under the [i] flag. *)
Definition tablePhrase : regex :=
  seqs [WordB;
        Group 1 (alts [liti "table"; liti "tabular";
                       seqs [liti "data"; Star ws; liti "table"]]);
        WordB].

Definition chartPatterns : list (regex * string) :=
  [ (chartPhrase "bar", "bar");
    (chartPhrase "line", "line");
    (chartPhrase "pie", "pie");
    (tablePhrase, "table") ].

(** The loop over [chartPatterns]: the type of the first pattern that
    matches the prompt, the empty string when none does. *)
Definition chartTypeOf (prompt : string) : string :=
  match find (fun pt => test (fst pt) prompt) chartPatterns with
  | Some pt => snd pt
  | None => ""
  end.

(** [date|month|year|time] under the [i] flag. *)
Definition dateLike : regex :=
  alts [liti "date"; liti "month"; liti "year"; liti "time"].

(** [^\d+(\.\d+)?$] *)
Definition numericText : regex :=
  seqs [Bol; plus digit; opt (Group 1 (Seq (chr ".") (plus digit))); Eol].

(** [typeof v === 'number' || numericText.test(String(v))] *)
Definition numericLooking (v : jsval) : bool :=
  match v with
  | VNumber _ => true
  | _ => test numericText (toStr v)
  end.

(** Step 4 of the handler: choose visualization type heuristically. *)
Definition visualization (prompt : string) (result : QueryResult) : string :=
  let chartType := chartTypeOf prompt in
  let viz := chartType in
  match recordset result with
  | Some (first :: _) =>
      let cols := keys first in
      let hasDate := existsb (fun c => test dateLike c) cols in
      let numericCols := filter (fun c => numericLooking (getCol first c)) cols in
      if String.eqb viz "" then
        if hasDate && (1 <=? List.length numericCols) then "line"
        else if (1 <=? List.length numericCols) && (List.length cols <=? 3) then "bar"
        else "table"
      else viz
  | _ => viz
  end.

Inductive Body : Type :=
| ErrorBody : string -> option string -> Body
| QueryBody : string -> list Row -> string -> Body.

Record Response : Type := { status : nat; body : Body }.

Section Handler.

(** The two collaborators of the handler: SQL generation (a call to the
    language model inside) and the database. *)
Variable generateSql : string -> outcome (option string).
Variable runQuery : string -> outcome QueryResult.

(** [String(err)] of a thrown error is the text [Throw] carries. *)
Definition apiQuery (prompt : option string) : Response :=
  match prompt with
  | None => {| status := 400; body := ErrorBody "prompt required" None |}
  | Some prompt =>
      if negb (truthy prompt)
      then {| status := 400; body := ErrorBody "prompt required" None |} else
      (* 1) Generate SQL from prompt *)
      match generateSql prompt with
      | Throw err => {| status := 500; body := ErrorBody err None |}
      | Ok None => {| status := 500; body := ErrorBody "LLM did not return SQL" None |}
      | Ok (Some sqlQuery) =>
          if negb (truthy sqlQuery)
          then {| status := 500; body := ErrorBody "LLM did not return SQL" None |} else
          (* 2) Safety check *)
          if negb (isSafeSelect sqlQuery)
          then {| status := 400;
                  body := ErrorBody "Generated SQL is not allowed by policy."
                            (Some sqlQuery) |} else
          (* 3) Execute safely *)
          match runQuery sqlQuery with
          | Throw err => {| status := 500; body := ErrorBody err None |}
          | Ok result =>
              {| status := 200;
                 body := QueryBody sqlQuery
                           (match recordset result with Some rows => rows | None => [] end)
                           (visualization prompt result) |}
          end
      end
  end.

End Handler.

Section Generate.

(** The chat endpoint: the messages sent, and either the text at
    [choices[0].message.content] ([None] when a link of that chain is
    missing) or a thrown error. *)
Record Messages : Type := { system : string; user : string }.
Variable callGroqChat : Messages -> outcome (option string).

(** The prose of the system message, a template over the analysis. *)
Variable systemText : AnalysisResult -> string.

Definition newline : string := String (ascii_of_nat 10) "".

Definition generateSqlFromPrompt (prompt : string) : outcome string :=
  (* Detect intent and extract parameters *)
  let analysis := analyzeUserPrompt prompt in
  let messages :=
    {| system := systemText analysis;
       user := ("Generate SQL for: " ++ String dquote prompt ++ String dquote newline
                  ++ "Return ONLY the SQL query.")%string |} in
  match callGroqChat messages with
  | Throw err => Throw err
  | Ok content =>
      (* Validate SQL before returning *)
      Ok (validateAndCleanSql (option_map trim content) (table (r_table analysis)))
  end.

(** What [processUserQuery] resolves to: [{ sql }], or [{ sql, error }]
    when generation threw.  [q_error] is what reading [error] of the result
    yields: [None] for [undefined]. *)
Record QueryOutcome : Type := { q_sql : string; q_error : option string }.

(** [error.message] of a thrown error, the error being given by the text
    [Throw] carries, which is [String(error)]: the message is another
    property of the error ([None] when the thrown value has none). *)
Variable messageOf : string -> option string.

(** Example usage function. *)
Definition processUserQuery (userInput : string) : QueryOutcome :=
  match generateSqlFromPrompt userInput with
  | Ok sql => {| q_sql := sql; q_error := None |}
  | Throw err => {| q_sql := FALLBACK; q_error := messageOf err |}
  end.

(** The [/api/query] handler of this server: [apiQuery] over the analysing
    [generateSqlFromPrompt]. *)
Definition apiQueryAnalysed (runQuery : string -> outcome QueryResult)
    (prompt : option string) : Response :=
  apiQuery (fun p => match generateSqlFromPrompt p with
                     | Ok sql => Ok (Some sql)
                     | Throw err => Throw err
                     end)
    runQuery prompt.

End Generate.

(** *** The [/api/analyze-batch] handler *)

(** One element of [req.body.requests]: [null], [undefined], or a value
    whose properties can be read. *)
Inductive BatchItem (Request : Type) : Type :=
| INull : BatchItem Request
| IUndefined : BatchItem Request
| IValue : Request -> BatchItem Request.
Arguments INull {Request}.
Arguments IUndefined {Request}.

(** An element of [results]: [{ index, success: true, result }], where
    [result] stays [undefined] for a request of no known type, or
    [{ index, success: false, error }]. *)
Inductive BatchEntry : Type :=
| Succeeded : nat -> option string -> BatchEntry
| Failed : nat -> string -> BatchEntry.

Definition entryIndex (e : BatchEntry) : nat :=
  match e with Succeeded i _ => i | Failed i _ => i end.

Definition success (e : BatchEntry) : bool :=
  match e with Succeeded _ _ => true | Failed _ _ => false end.

(** The body of the answer, without its time stamp: an error, or
    [total], [completed], [failed] and [results]. *)
Inductive BatchBody : Type :=
| BatchError : string -> BatchBody
| BatchSummary : nat -> nat -> nat -> list BatchEntry -> BatchBody.

Record BatchResponse : Type := { b_status : nat; b_body : BatchBody }.

Section Batch.

(** A request object; of its properties the handler reads [type] (here
    [None] when it is not a string) and passes the others on. *)
Variable Request : Type.
Variable typeOf : Request -> option string.

(** The three analysis functions, each a call to the language model: what
    they answer to the request at a given position of the batch. *)
Variable askGrokGeneral : nat -> Request -> outcome string.
Variable analyzeDataWithGrok : nat -> Request -> outcome string.
Variable analyzeTextWithGrok : nat -> Request -> outcome string.

(** The body of the loop: the entry pushed for one request.  Reading
    [type] of [null] or [undefined] throws inside the [try] (the message
    is the one of V8). *)
Definition batchEntry (index : nat) (request : BatchItem Request) : BatchEntry :=
  match request with
  | INull => Failed index "Cannot read properties of null (reading 'type')"
  | IUndefined => Failed index "Cannot read properties of undefined (reading 'type')"
  | IValue request =>
      let call :=
        match typeOf request with
        | Some type =>
            if String.eqb type "general" then Some (askGrokGeneral index request)
            else if String.eqb type "data" then Some (analyzeDataWithGrok index request)
            else if String.eqb type "text" then Some (analyzeTextWithGrok index request)
            else None
        | None => None
        end in
      match call with
      | Some (Ok result) => Succeeded index (Some result)
      | Some (Throw error) => Failed index error
      | None => Succeeded index None
      end
  end.

Fixpoint batchLoop (index : nat) (requests : list (BatchItem Request))
    (results : list BatchEntry) : list BatchEntry :=
  match requests with
  | [] => results
  | request :: rest => batchLoop (S index) rest (results ++ [batchEntry index request])
  end.

(** [requests] is [None] when [req.body.requests] is not an array. *)
Definition apiAnalyzeBatch (requests : option (list (BatchItem Request)))
  : BatchResponse :=
  match requests with
  | None => {| b_status := 400; b_body := BatchError "Requests array is required" |}
  | Some requests =>
      if List.length requests =? 0
      then {| b_status := 400; b_body := BatchError "Requests array is required" |} else
      if 5 <? List.length requests
      then {| b_status := 400;
              b_body := BatchError "Maximum 5 requests allowed per batch" |} else
      let results := batchLoop 0 requests [] in
      {| b_status := 200;
         b_body := BatchSummary (List.length requests)
                     (List.length (filter success results))
                     (List.length (filter (fun r => negb (success r)) results))
                     results |}
  end.

End Batch.


End Server.

(** ** The [SQLGenerator] class *)

Module SQLGenerator.
Import JS Regex.

Definition FALLBACK : string := "SELECT TOP (0) * FROM SalesReport_Form_Input".

Definition DEFAULT_SCHEMA_CACHE_TTL : Z := (60 * 60)%Z. (* seconds - 1 hour *)

Record ColumnInfo : Type := { column : string; data_type : string }.

(** A schema object: table name to columns, in key order. *)
Definition Schema : Type := list (string * list ColumnInfo).

Record SchemaRow : Type := {
  TABLE_NAME : string;
  COLUMN_NAME : string;
  DATA_TYPE : string
}.

Record DbConfig : Type := { server : string; database : string }.

Record Messages : Type := { system : string; user : string }.

(** What lies outside the class.  Each interaction with the outside takes
    the number of interactions made before it, so that two calls may be
    answered differently.
    - [clock]: the readings of [Date.now()], in milliseconds;
    - [llmClient]: the injected client, yielding the text at
      [choices[0].message.content] ([None] when a link of that chain is
      missing or null) or throwing; the client keeps to its documented
      shape, so a content that is present is a string;
    - [redisGet], [redisSet]: the external cache;
    - [dbQuery]: connecting and reading [INFORMATION_SCHEMA.COLUMNS];
    - [JSON_parse] ([None]: a syntax error is thrown), [JSON_stringify],
      [sha256hex]: pure library functions. *)
Record World : Type := {
  clock : nat -> Z;
  llmClient : nat -> Messages -> outcome (option string);
  redisGet : nat -> string -> outcome (option string);
  redisSet : nat -> string -> string -> Z -> outcome unit;
  dbQuery : nat -> DbConfig -> outcome (list SchemaRow);
  JSON_parse : string -> option Schema;
  JSON_stringify : Schema -> string;
  sha256hex : string -> string
}.

(** The fields of [this] set by the constructor and never assigned again. *)
Record Config : Type := {
  dbConfig : option DbConfig;
  schemaCacheTTL : Z;
  systemPromptExtra : string;
  hasRedis : bool                (* [this._redis] is a client *)
}.

(** The fields of [this] that methods assign, and the interaction count. *)
Record State : Type := {
  _schema : option Schema;       (* in-memory cache *)
  _schemaFetchedAt : Z;
  ticks : nat
}.

(** State of a generator fresh from its constructor. *)
Definition initial : State :=
  {| _schema := None; _schemaFetchedAt := 0%Z; ticks := 0 |}.

(** Computations of the class: they may assign fields and may throw, and
    what was assigned before a throw stays assigned. *)
Definition M (A : Type) : Type := State -> outcome A * State.

Definition ret (A : Type) (a : A) : M A := fun st => (Ok a, st).
Definition throw (A : Type) (err : string) : M A := fun st => (Throw err, st).
Arguments throw {A} err.
Definition bind (A B : Type) (c : M A) (k : A -> M B) : M B :=
  fun st => match c st with
            | (Ok a, st') => k a st'
            | (Throw err, st') => (Throw err, st')
            end.

(** [try c catch (err) handler err] *)
Definition catch (A : Type) (c : M A) (h : string -> M A) : M A :=
  fun st => match c st with
            | (Ok a, st') => (Ok a, st')
            | (Throw err, st') => h err st'
            end.

(** An interaction with the outside: answered by [f] at the current count. *)
Definition ask (A : Type) (f : nat -> outcome A) : M A :=
  fun st => (f (ticks st),
             {| _schema := _schema st; _schemaFetchedAt := _schemaFetchedAt st;
                ticks := S (ticks st) |}).

Definition getState : M State := fun st => (Ok st, st).

Definition setSchema (schema : Schema) (fetchedAt : Z) : M unit :=
  fun st => (Ok tt, {| _schema := Some schema; _schemaFetchedAt := fetchedAt;
                       ticks := ticks st |}).

Declare Scope gen_scope.
Delimit Scope gen_scope with gen.
Notation "x <- c ;; k" := (bind c (fun x => k))
  (at level 61, c at next level, right associativity) : gen_scope.
Local Open Scope gen_scope.

Section Class.

Variable w : World.
Variable this : Config.

Definition dateNow : M Z := ask (fun n => Ok (clock w n)).

(** Helper: compute cache key for redis. *)
Definition _schemaCacheKey : string :=
  let id := match dbConfig this with
            | Some cfg => if truthy (server cfg)
                          then (server cfg ++ ":" ++ database cfg)%string
                          else "local_schema"
            | None => "local_schema"
            end in
  ("sqlgen:schema:" ++ sha256hex w id)%string.

(** [schema[table].push(...)], creating the entry for a new table. *)
Fixpoint addColumn (schema : Schema) (t : string) (c : ColumnInfo) : Schema :=
  match schema with
  | [] => [(t, [c])]
  | (t', cs) :: rest =>
      if String.eqb t' t then (t', cs ++ [c]) :: rest
      else (t', cs) :: addColumn rest t c
  end.

(** Refresh schema by querying INFORMATION_SCHEMA. *)
Definition refreshSchemaFromDb : M Schema :=
  match dbConfig this with
  | None => throw "dbConfig is required to refresh schema from DB"
  | Some cfg =>
      rows <- ask (fun n => dbQuery w n cfg) ;;
      let schema :=
        fold_left (fun schema r =>
                     addColumn schema (TABLE_NAME r)
                       {| column := COLUMN_NAME r; data_type := DATA_TYPE r |})
          rows [] in
      (* store in memory + redis *)
      now <- dateNow ;;
      _ <- setSchema schema now ;;
      _ <- (if hasRedis this
            then ask (fun n => redisSet w n _schemaCacheKey (JSON_stringify w schema)
                                 (schemaCacheTTL this))
            else ret tt) ;;
      ret schema
  end.

(** Pull schema from cache (redis or memory). *)
Definition _getCachedSchema : M (option Schema) :=
  st <- getState ;;
  (* If memory cache fresh enough, return *)
  fresh <- match _schema st with
           | Some _ =>
               now <- dateNow ;;
               ret ((now - _schemaFetchedAt st <? 1000 * schemaCacheTTL this)%Z)
           | None => ret false
           end ;;
  if fresh then ret (_schema st) else
  (* Try redis if available *)
  fromRedis <-
    (if hasRedis this then
       raw <- ask (fun n => redisGet w n _schemaCacheKey) ;;
       match raw with
       | Some raw =>
           if truthy raw then
             match JSON_parse w raw with
             | Some parsed =>
                 now <- dateNow ;;
                 _ <- setSchema parsed now ;;
                 ret (Some parsed)
             | None => ret None          (* fallthrough to refresh *)
             end
           else ret None
       | None => ret None
       end
     else ret None) ;;
  match fromRedis with
  | Some parsed => ret (Some parsed)
  | None =>
      (* If we have dbConfig, fetch from DB *)
      match dbConfig this with
      | Some _ => schema <- refreshSchemaFromDb ;; ret (Some schema)
      | None =>
          (* If no DB and nothing cached, fail gracefully *)
          st' <- getState ;;
          ret (_schema st')
      end
  end.

(** Normalize user prompt to deterministic text for the LLM.  [None] is a
    prompt that is not a string. *)
Definition normalizePrompt (userPrompt : option string) : string :=
  match userPrompt with
  | None => ""
  | Some p =>
      if negb (truthy p) then "" else
      let trimmed := trim p in
      (* Collapse multiple whitespace to single space *)
      replaceAll (plus ws) " " trimmed
  end.

(** The fixed prose of the system prompt: what stands before the schema
    description, and the numbered rules after it. *)
Variable rulesIntro : string.
Variable rulesList : string.

Definition newline : string := String (ascii_of_nat 10) "".

(** Build robust system prompt (inject sanitized schema description). *)
Definition buildSystemPrompt (schemaDescription : string) : string :=
  (rulesIntro ++ schemaDescription ++ rulesList
     ++ systemPromptExtra this ++ newline)%string.

(** The minimal schema text used when no schema object is at hand. *)
Variable minimalSchemaText : string.

(** Create a short schema description text from the schema object. *)
Definition _renderSchemaDescription (schemaObj : option Schema) : string :=
  match schemaObj with
  | None => minimalSchemaText
  | Some schemaObj =>
      (* Build a compressed schema text *)
      fold_left (fun sb entry =>
                   let cols := join ", " (map column (snd entry)) in
                   (sb ++ "- " ++ fst entry ++ ": " ++ cols ++ newline)%string)
        schemaObj ("Tables:" ++ newline)%string
  end.

(** [\bWORD\b] under the [i] flag. *)
Definition wholeWord (kw : string) : regex := seqs [WordB; liti kw; WordB].

Definition forbidden : list regex :=
  [ wholeWord "INSERT"; wholeWord "UPDATE"; wholeWord "DELETE"; wholeWord "DROP";
    wholeWord "ALTER"; wholeWord "CREATE"; wholeWord "TRUNCATE"; wholeWord "EXEC";
    wholeWord "EXECUTE"; liti "--"; liti ";--" ].

(** [^(SELECT|WITH)\b] under the [i] flag. *)
Definition startsSelectOrWith : regex :=
  seqs [Bol; Group 1 (Alt (liti "SELECT") (liti "WITH")); WordB].

(** Validate that returned SQL is safe and conforms to simple rules. *)
Definition validateSqlSafety (sqlText : string) : bool :=
  if negb (truthy sqlText) then false else
  (* Remove leading/trailing whitespace *)
  let s := trim sqlText in
  (* 1) Must start with SELECT or WITH (case-insensitive) *)
  if negb (test startsSelectOrWith s) then false else
  (* 2) Must NOT contain forbidden keywords *)
  if existsb (fun p => test p s) forbidden then false else
  (* 3) Block xp_cmdshell or sp_ calls (risky) *)
  if test (wholeWord "xp_cmdshell") s || test (Seq WordB (liti "sp_")) s
  then false else
  (* 4) Basic length sanity check *)
  if 20000 <? String.length s then false else
  (* Passed checks *)
  true.

(** [[A-Za-z_][A-Za-z0-9_]+] *)
Definition identifier : regex :=
  Seq (Chr (fun c => isUpperAZ c || isLowerAZ c || (code c =? 95))) (plus wordc).

Definition allowed : list string :=
  ["SELECT"; "SUM"; "AVG"; "MIN"; "MAX"; "COUNT"; "FROM"; "WHERE"; "AND"; "OR";
   "ON"; "JOIN"; "LEFT"; "RIGHT"; "INNER"; "OUTER"; "GROUP"; "ORDER"; "BY"; "AS";
   "CAST"; "REPLACE"; "DECIMAL"; "TOP"; "WITH"; "IS"; "NULL"; "NOT"; "IN";
   "BETWEEN"; "LIKE"; "CASE"; "WHEN"; "THEN"; "ELSE"; "END"; "HAVING"; "LIMIT";
   "DISTINCT"; "COALESCE"].

(** Check whether SQL references columns/tables present in cached schema. *)
Definition checkSqlAgainstSchema (sqlText : string) : M bool :=
  schema <- _getCachedSchema ;;
  match schema with
  | None =>
      (* If we don't have a schema, do not reject - rely on other safety *)
      ret true
  | Some schema =>
      (* Extract identifiers: capture words that look like identifiers *)
      let tokens := nodup string_dec (map toUpperCase (matchAll identifier sqlText)) in
      (* Build set of known tokens from schema *)
      let known :=
        flat_map (fun entry =>
                    toUpperCase (fst entry)
                      :: map (fun c => toUpperCase (column c)) (snd entry))
          schema in
      ret (forallb (fun tk => arrayIncludes allowed tk || arrayIncludes known tk)
             tokens)
  end.

(** [\s*;+\s*$] *)
Definition trailingSemicolons : regex :=
  seqs [Star ws; plus (chr ";"); Star ws; Eol].

(** Main function: generate SQL from prompt using the LLM.
    [enforceSchemaCheck] is [opts.enforceSchemaCheck], [None] when it is
    [undefined]. *)
Definition generateSqlFromPrompt (userPrompt : option string)
    (enforceSchemaCheckOpt : option bool) : M string :=
  let enforceSchemaCheck :=
    match enforceSchemaCheckOpt with None => true | Some b => b end in
  (* 1. Normalize prompt *)
  let normalizedPrompt := normalizePrompt userPrompt in
  (* 2. Get schema description text (from cache or db) *)
  schemaObj <- catch _getCachedSchema (fun _ => ret None) ;;
  let schemaDesc := _renderSchemaDescription schemaObj in
  (* 3. Build system prompt + messages for LLM *)
  let systemPrompt := buildSystemPrompt schemaDesc in
  let messages :=
    {| system := systemPrompt;
       user := ("User request: " ++ String Server.dquote normalizedPrompt
                  ++ String Server.dquote newline
                  ++ "Return only the SQL query.")%string |} in
  (* 4. Call LLM *)
  llmResp <- catch (content <- ask (fun n => llmClient w n messages) ;;
                    ret (Some content))
                   (fun _ => ret None) ;;
  match llmResp with
  | None =>
      (* LLM error -> return safe fallback *)
      ret FALLBACK
  | Some content =>
      let sqlText := trim (match content with Some c => c | None => "" end) in
      if negb (truthy sqlText) then ret FALLBACK else
      (* 5. Basic safety validation *)
      let safe := validateSqlSafety sqlText in
      if negb safe then ret FALLBACK else
      (* 6. Optional schema-aware validation *)
      matchesSchema <- (if enforceSchemaCheck then checkSqlAgainstSchema sqlText
                        else ret true) ;;
      if negb matchesSchema then ret FALLBACK else
      (* 7. Return sanitized SQL (trim trailing semicolons) *)
      ret (replaceAll trailingSemicolons "" sqlText)
  end.

End Class.

End SQLGenerator.

(** * Properties *)

Import JS Regex.

(** ** Definitions used by the statements *)

(** The scenario prompts of the analyzer. *)
Definition promptGross : string := "Show total gross by dealership for October 2025".
Definition promptCount : string := "count deals this month".

(** Statements that hold a forbidden keyword as a whole word. *)
Definition sqlExecCall : string := "SELECT 1 EXEC('sp_who')".
Definition sqlDropOnNextLine : string :=
  ("SELECT 1 FROM Users" ++ Server.newline ++ "DROP" ++ Server.newline ++ "TABLE Users")%string.
Definition sqlGrant : string := "SELECT 1 GRANT CONTROL TO public".

(** The injection suffix of the specification's scenario. *)
Definition dropUsers : string := "; DROP TABLE Users; --".

(** A generator whose database refuses every connection, whose client
    answers a harmless statement, and which has no external cache. *)
Definition dbError : string := "ConnectionError: Failed to connect to db:1433".

Definition worldDbDown : SQLGenerator.World :=
  {| SQLGenerator.clock := fun _ => 0%Z;
     SQLGenerator.llmClient := fun _ _ => Ok (Some "SELECT 1");
     SQLGenerator.redisGet := fun _ _ => Ok None;
     SQLGenerator.redisSet := fun _ _ _ _ => Ok tt;
     SQLGenerator.dbQuery := fun _ _ => Throw dbError;
     SQLGenerator.JSON_parse := fun _ => None;
     SQLGenerator.JSON_stringify := fun _ => "";
     SQLGenerator.sha256hex := fun s => s |}.

Definition configWithDb : SQLGenerator.Config :=
  {| SQLGenerator.dbConfig :=
       Some {| SQLGenerator.server := "db"; SQLGenerator.database := "sales" |};
     SQLGenerator.schemaCacheTTL := SQLGenerator.DEFAULT_SCHEMA_CACHE_TTL;
     SQLGenerator.systemPromptExtra := "";
     SQLGenerator.hasRedis := false |}.

(** A generator built with a client only: no database, no external cache. *)
Definition configBare : SQLGenerator.Config :=
  {| SQLGenerator.dbConfig := None;
     SQLGenerator.schemaCacheTTL := SQLGenerator.DEFAULT_SCHEMA_CACHE_TTL;
     SQLGenerator.systemPromptExtra := "";
     SQLGenerator.hasRedis := false |}.

(** No schema snapshot is available: nothing in memory, no database
    configuration, and no external cache or nothing under its key. *)
Definition noSnapshot (w : SQLGenerator.World) (this : SQLGenerator.Config)
    (st : SQLGenerator.State) : Prop :=
  SQLGenerator._schema st = None
  /\ SQLGenerator.dbConfig this = None
  /\ (SQLGenerator.hasRedis this = false
      \/ forall n, SQLGenerator.redisGet w n (SQLGenerator._schemaCacheKey w this)
                   = Ok None).

(** What the generator returns when the safety rules alone decide. *)
Definition bySafetyAlone (answer : outcome (option string)) : string :=
  match answer with
  | Throw _ => SQLGenerator.FALLBACK
  | Ok content =>
      let sqlText := trim (match content with Some c => c | None => "" end) in
      if negb (truthy sqlText) then SQLGenerator.FALLBACK
      else if SQLGenerator.validateSqlSafety sqlText
           then replaceAll SQLGenerator.trailingSemicolons "" sqlText
           else SQLGenerator.FALLBACK
  end.

(** The messages sent to the client when no schema object is at hand. *)
Definition messagesWithoutSchema (this : SQLGenerator.Config)
    (rulesIntro rulesList minimalSchemaText : string) (userPrompt : option string)
  : SQLGenerator.Messages :=
  {| SQLGenerator.system :=
       SQLGenerator.buildSystemPrompt this rulesIntro rulesList
         (SQLGenerator._renderSchemaDescription minimalSchemaText None);
     SQLGenerator.user :=
       ("User request: " ++ String Server.dquote (SQLGenerator.normalizePrompt userPrompt)
          ++ String Server.dquote SQLGenerator.newline
          ++ "Return only the SQL query.")%string |}.













(** The fence regex read as a scan: the backquote, the opener, the line
    feed, and what is left of the text after an opener (the word characters
    and one line feed belong to the fence). *)
Definition tick : ascii := ascii_of_nat 96.
Definition ticks3 : list ascii := [tick; tick; tick].
Definition lf : ascii := ascii_of_nat 10.

Definition dropLf (l : list ascii) : list ascii :=
  match l with
  | x :: t => if Ascii.eqb lf x then t else l
  | [] => []
  end.

Definition afterFence (r : list ascii) : list ascii := dropLf (dropWhile isWordChar r).

Fixpoint strip (fuel : nat) (l : list ascii) : list ascii :=
  match fuel with
  | 0 => []
  | S f =>
      if startsWithL ticks3 l then strip f (afterFence (skipn 3 l))
      else match l with
           | [] => []
           | x :: t => x :: strip f t
           end
  end.

Definition optLf : mstate -> option mstate := run (opt (chr lf)) (@Some mstate).

Definition hasFence (l : list ascii) : bool := includesL ticks3 l.

(** The cleaning step of [validateAndCleanSql]. *)
Definition clean (s : string) : string := trim (replaceAll Server.fence "" s).

Definition countSemi (l : list ascii) : nat := count_occ ascii_dec l ";"%char.

(** The characters a statement accepted by [validateSqlSafety] starts with. *)
Definition opensStatement (x : ascii) : bool :=
  Ascii.eqb (foldChar x) "s"%char || Ascii.eqb (foldChar x) "w"%char.

(** *** Definitions used by the further properties *)

(** The subject text folded as the [i] flag compares it. *)
Definition foldL (l : list ascii) : list ascii := map foldChar l.

(** The character before the position reached after reading [consumed]. *)
Definition prevAfter (prev : option ascii) (consumed : list ascii) : option ascii :=
  match rev consumed with
  | [] => prev
  | c :: _ => Some c
  end.

Definition allAscii : list ascii := map ascii_of_nat (seq 0 256).

(** A character of a lower-case literal: in the 7-bit range and no capital. *)
Definition plainChar (c : ascii) : bool := (code c <? 128) && negb (isUpperAZ c).

(** [s'] is a position at or after [s] in the same text. *)
Definition later (s s' : mstate) : Prop :=
  exists pre, ms_rest s = pre ++ ms_rest s'
              /\ ms_prev s' = prevAfter (ms_prev s) pre.

(** Regular expressions without iteration and without [$]. *)
Fixpoint simple (r : regex) : bool :=
  match r with
  | Eps | Chr _ | WordB | Bol => true
  | Seq a b | Alt a b => simple a && simple b
  | Group _ a => simple a
  | Star _ | Eol => false
  end.

(** No character class of [r] accepts [c]. *)
Fixpoint refuses (r : regex) (c : ascii) : bool :=
  match r with
  | Chr p => negb (p c)
  | Seq a b | Alt a b => refuses a c && refuses b c
  | Star a | Group _ a => refuses a c
  | Eps | WordB | Bol | Eol => true
  end.

(** The same position in a text and in the text followed by [v]. *)
Definition extended (v : list ascii) (s s' : mstate) : Prop :=
  ms_prev s' = ms_prev s /\ ms_rest s' = ms_rest s ++ v.

(** White space or a semicolon: what [trailingSemicolons] reads. *)
Definition spaceOrSemi (c : ascii) : bool := isSpace c || Ascii.eqb ";"%char c.

(** What [isSafeSelect] decides on the trimmed, lower-cased text. *)
Definition safeLowered (lowered : string) : bool :=
  let semicolonCount := List.length (matchAll (chr ";") lowered) in
  if (1 <? semicolonCount) || ((semicolonCount =? 1) && negb (endsWith lowered ";"))
  then false else
  if negb (startsWith lowered "select" || startsWith lowered "with") then false else
  if existsb (fun kw => includes lowered kw) Server.forbidden then false else
  true.

(** The filter and the aggregates one detection of a concept contributes. *)
Definition filterOf (key : string) (config : Server.ColumnMapping)
    (value : option string) : Server.Filter :=
  {| Server.f_column := Server.c_column config; Server.f_concept := key;
     Server.f_value := value;
     Server.f_isAggregate := Server.isSome (Server.c_function config) |}.

Definition aggregatesOf (key : string) (config : Server.ColumnMapping)
  : list Server.Aggregate :=
  match Server.c_function config with
  | Some fn => [ {| Server.a_column := Server.c_column config; Server.a_function := fn;
                    Server.a_alias := Server.getAggregateAlias key |} ]
  | None => []
  end.

Definition patternsOf (config : Server.ColumnMapping) : list regex :=
  match Server.c_patterns config with Some ps => ps | None => [] end.

(** The values extracted for one concept, in the order they are pushed: one
    per matching pattern, or, when no pattern matches, one for the first
    synonym found. *)
Definition detectedValues (prompt : string) (config : Server.ColumnMapping)
  : list (option string) :=
  let viaPatterns :=
    flat_map (fun pattern =>
                match exec pattern prompt with
                | Some m => [Server.extractValueFromPrompt prompt
                               (hd "" (Server.c_synonyms config)) (Some (m_text m))]
                | None => []
                end) (patternsOf config) in
  if existsb (fun pattern => Server.isSome (exec pattern prompt)) (patternsOf config)
  then viaPatterns
  else match find (fun syn => includes (toLowerCase prompt) (toLowerCase syn))
               (Server.c_synonyms config) with
       | Some syn => [Server.extractValueFromPrompt prompt syn None]
       | None => []
       end.

Definition isCount (a : Server.Aggregate) : bool :=
  String.eqb (Server.a_function a) "COUNT".

(** The concepts that aggregate, as (column, function, alias). *)
Definition aggregateTriples : list (string * string * string) :=
  [ ("TOTAL_COST", "SUM", "TotalGross"); ("FRONT_COST", "SUM", "FrontGross");
    ("FI_COST", "SUM", "FIGross"); ("ID", "COUNT", "TotalDeals") ].

(** The concepts that filter, as (concept, column). *)
Definition filterPairs : list (string * string) :=
  [ ("dealership", "DEALER_LOCATION"); ("month", "MONTH_REPORTED");
    ("year", "YEAR_REPORTED"); ("quarter", "DATEPART(QUARTER, DATE_REPORTED)");
    ("day", "DATE_REPORTED"); ("week", "DATE_REPORTED") ].

Definition noColumn : string * Server.ColumnMapping :=
  ("", {| Server.c_column := ""; Server.c_operator := None; Server.c_function := None;
          Server.c_related := None; Server.c_synonyms := [];
          Server.c_patterns := None |}).

(** The condition of the rule for the day before yesterday. *)
Definition twoDaysAgo : string :=
  "CAST(DATE_REPORTED AS DATE) = CAST(DATEADD(DAY, -2, GETDATE()) AS DATE)".

(** Each run of white space replaced by one space. *)
Fixpoint squeeze (fuel : nat) (l : list ascii) : list ascii :=
  match fuel with
  | 0 => []
  | S f =>
      match l with
      | [] => []
      | c :: t => if isSpace c then " "%char :: squeeze f (dropWhile isSpace t)
                  else c :: squeeze f t
      end
  end.

(** Every white-space character is a space that stands before a character
    that is no white space. *)
Fixpoint spaced (l : list ascii) : bool :=
  match l with
  | [] => true
  | c :: t =>
      if isSpace c
      then Ascii.eqb c " "%char
           && match t with d :: _ => negb (isSpace d) | [] => false end
           && spaced t
      else spaced t
  end.

(** Normal form of a prompt: words separated by single spaces. *)
Definition normalized (s : string) : bool :=
  match chars s with [] => true | c :: _ => negb (isSpace c) end && spaced (chars s).

(** The text does not end in white space. *)
Definition endsOk (l : list ascii) : bool :=
  match rev l with [] => true | z :: _ => negb (isSpace z) end.

(** A model that is down. *)
Definition groqDown : Server.Messages -> outcome (option string) :=
  fun _ => Throw "Error: GROQ_API_KEY not set in .env".


(** A database with no rows for any statement. *)
Definition emptyDb : string -> outcome Server.QueryResult :=
  fun _ => Ok {| Server.recordset := Some [] |}.

(** A reachable database with two columns of one table and one of another,
    and a clock that advances a second per reading. *)
Definition sampleRows : list SQLGenerator.SchemaRow :=
  [ {| SQLGenerator.TABLE_NAME := "Deals"; SQLGenerator.COLUMN_NAME := "ID";
       SQLGenerator.DATA_TYPE := "int" |};
    {| SQLGenerator.TABLE_NAME := "Lots"; SQLGenerator.COLUMN_NAME := "Lot";
       SQLGenerator.DATA_TYPE := "varchar" |};
    {| SQLGenerator.TABLE_NAME := "Deals"; SQLGenerator.COLUMN_NAME := "STOCK";
       SQLGenerator.DATA_TYPE := "varchar" |} ].

Definition worldDbUp : SQLGenerator.World :=
  {| SQLGenerator.clock := fun n => (1000 * Z.of_nat n)%Z;
     SQLGenerator.llmClient := fun _ _ => Ok (Some "SELECT 1");
     SQLGenerator.redisGet := fun _ _ => Ok None;
     SQLGenerator.redisSet := fun _ _ _ _ => Ok tt;
     SQLGenerator.dbQuery := fun _ _ => Ok sampleRows;
     SQLGenerator.JSON_parse := fun _ => None;
     SQLGenerator.JSON_stringify := fun _ => "";
     SQLGenerator.sha256hex := fun s => s |}.

(** A generator holding a snapshot taken at time 0, after 4000 interactions
    with the outside: under [worldDbUp] the snapshot is 4000 seconds old. *)
Definition holding (schema : SQLGenerator.Schema) : SQLGenerator.State :=
  {| SQLGenerator._schema := Some schema; SQLGenerator._schemaFetchedAt := 0%Z;
     SQLGenerator.ticks := 4000 |}.

(** Proof steps over the rules of [detectTimeRangeEnhanced]: a rule other
    than the one for the day before yesterday builds another condition. *)
Ltac other_rule :=
  let H := fresh in
  cbv beta iota; intros ? H; injection H as <-;
  cbv beta iota zeta delta [Server.handler Server.sqlCondition Server.timeRange0
                            twoDaysAgo String.append];
  repeat match goal with |- context [if ?b then _ else _] => destruct b end;
  discriminate.

(** ** Facts about the string library *)

Section StringFacts.

Lemma chars_str : forall l, chars (str l) = l.
Proof. exact list_ascii_of_string_of_list_ascii. Qed.

Lemma str_chars : forall s, str (chars s) = s.
Proof. exact string_of_list_ascii_of_string. Qed.

Lemma chars_append : forall a b : string, chars (a ++ b) = chars a ++ chars b.
Proof.
  induction a as [|c a IH]; intros b; cbn.
  - reflexivity.
  - f_equal. apply IH.
Qed.

Lemma truthy_chars : forall s, truthy s = false -> chars s = [].
Proof.
  intros s H. unfold truthy in H. apply negb_false_iff in H.
  apply String.eqb_eq in H. subst s. reflexivity.
Qed.

Lemma lowerChar_semicolon : forall x, Ascii.eqb (lowerChar x) ";"%char = Ascii.eqb x ";"%char.
Proof. intros [[] [] [] [] [] [] [] []]; vm_compute; reflexivity. Qed.

Lemma isSpace_not_semicolon : forall x, isSpace x = true -> x <> ";"%char.
Proof. intros x H E. subst x. vm_compute in H. discriminate. Qed.

Lemma countSemi_lower : forall l, countSemi (toLowerCaseL l) = countSemi l.
Proof.
  unfold countSemi, toLowerCaseL. induction l as [|x t IH]; cbn [map count_occ].
  - reflexivity.
  - pose proof (lowerChar_semicolon x) as E.
    destruct (ascii_dec (lowerChar x) ";"%char) as [H|H], (ascii_dec x ";"%char) as [H'|H'];
      rewrite ?IH; try reflexivity.
    + apply Ascii.eqb_eq in H. rewrite E in H. apply Ascii.eqb_eq in H. contradiction.
    + apply Ascii.eqb_eq in H'. rewrite <- E in H'. apply Ascii.eqb_eq in H'. contradiction.
Qed.

Lemma countSemi_dropWhile : forall l, countSemi (dropWhile isSpace l) = countSemi l.
Proof.
  unfold countSemi. induction l as [|x t IH]; cbn [dropWhile].
  - reflexivity.
  - destruct (isSpace x) eqn:E.
    + rewrite IH. cbn [count_occ].
      destruct (ascii_dec x ";"%char) as [H|H]; [|reflexivity].
      exfalso. exact (isSpace_not_semicolon E H).
    + reflexivity.
Qed.

Lemma countSemi_trim : forall l, countSemi (trimL l) = countSemi l.
Proof.
  intros. unfold trimL, trimEndL, trimStartL.
  unfold countSemi. rewrite count_occ_rev. fold (countSemi (dropWhile isSpace (rev (dropWhile isSpace l)))).
  rewrite countSemi_dropWhile. unfold countSemi. rewrite count_occ_rev.
  apply countSemi_dropWhile.
Qed.

(** ** The matcher on a one-character regex *)

Lemma matchHere_chr : forall c prev rest,
  matchHere (chr c) prev rest =
    match rest with
    | x :: t => if Ascii.eqb c x then Some (MState (Some x) t []) else None
    | [] => None
    end.
Proof. intros. destruct rest; reflexivity. Qed.

Lemma succ_sub_self : forall n, S n - n = 1.
Proof. intros; lia. Qed.

Lemma matchAll_chr_length : forall c l fuel prev,
  List.length l < fuel ->
  List.length (scan (chr c) (fun m acc => m :: acc) (fun _ acc => acc) [] fuel prev l)
  = count_occ ascii_dec l c.
Proof.
  induction l as [|x t IH]; intros fuel prev Hf.
  - destruct fuel; reflexivity.
  - destruct fuel as [|f]; [cbn in Hf; lia|].
    cbn [scan]. rewrite matchHere_chr. cbn [count_occ].
    destruct (Ascii.eqb_spec c x) as [E|E].
    + cbn [ms_rest ms_prev List.length]. rewrite succ_sub_self. cbn [Nat.ltb Nat.leb].
      cbn [List.length]. rewrite IH by (cbn in Hf; lia).
      destruct (ascii_dec x c); [reflexivity | congruence].
    + rewrite IH by (cbn in Hf; lia).
      destruct (ascii_dec x c); [congruence | reflexivity].
Qed.

Lemma semicolonCount_spec : forall s,
  List.length (matchAll (chr ";"%char) s) = countSemi (chars s).
Proof.
  intros. unfold matchAll, matchAllL. rewrite length_map.
  apply matchAll_chr_length. lia.
Qed.

Lemma endsWith_semicolon_lower : forall l,
  endsWithL [";"%char] (toLowerCaseL l) = endsWithL [";"%char] l.
Proof.
  intros. unfold endsWithL, toLowerCaseL. rewrite <- map_rev. cbn [rev app].
  destruct (rev l) as [|x t]; cbn [map startsWithL]; [reflexivity|].
  rewrite andb_true_r, andb_true_r.
  rewrite (Ascii.eqb_sym ";"%char (lowerChar x)), (Ascii.eqb_sym ";"%char x).
  apply lowerChar_semicolon.
Qed.


End StringFacts.

(** ** The markdown fence *)

Section Fence.

Lemma dropWhile_length : forall p l, List.length (dropWhile p l) <= List.length l.
Proof.
  induction l as [|x t IH]; cbn; [lia|]. destruct (p x); cbn; lia.
Qed.

Lemma afterFence_length : forall r, List.length (afterFence r) <= List.length r.
Proof.
  intros. unfold afterFence, dropLf.
  pose proof (dropWhile_length isWordChar r) as H.
  destruct (dropWhile isWordChar r) as [|x t]; [cbn; lia|].
  unfold dropLf. destruct (Ascii.eqb lf x); cbn [List.length] in *; lia.
Qed.

Lemma optLf_spec : forall prev r caps,
  exists prev', optLf (MState prev r caps) = Some (MState prev' (dropLf r) caps).
Proof.
  intros. unfold optLf, opt, chr. cbn [run ms_rest ms_caps].
  destruct r as [|x t]; cbn [dropLf].
  - eexists; reflexivity.
  - destruct (Ascii.eqb lf x); eexists; reflexivity.
Qed.

Lemma starLoop_wordc : forall r fuel prev caps,
  List.length r <= fuel ->
  exists prev',
    starLoop fuel (run wordc) optLf (MState prev r caps)
    = optLf (MState prev' (dropWhile isWordChar r) caps).
Proof.
  induction r as [|x t IH]; intros fuel prev caps Hf.
  - destruct fuel; cbn; eexists; reflexivity.
  - destruct fuel as [|f]; [cbn in Hf; lia|].
    cbn [starLoop]. unfold wordc at 1. cbn [run ms_rest ms_caps dropWhile].
    destruct (isWordChar x).
    + cbn [ms_rest List.length].
      replace (List.length t <? S (List.length t)) with true
        by (symmetry; apply Nat.ltb_lt; lia).
      destruct (IH f (Some x) caps) as (prev' & E); [cbn in Hf; lia|].
      rewrite E. destruct (optLf_spec prev' (dropWhile isWordChar t) caps) as (p2 & E2).
      rewrite E2. exists prev'. rewrite E2. reflexivity.
    + eexists; reflexivity.
Qed.


Lemma fence_shape :
  Server.fence
  = Seq (Seq (chr tick) (Seq (chr tick) (chr tick))) (Seq (Star wordc) (opt (chr lf))).
Proof. reflexivity. Qed.

Lemma startsWith_ticks : forall l,
  startsWithL ticks3 l = true -> exists r, l = tick :: tick :: tick :: r.
Proof.
  intros l H. destruct l as [|x1 [|x2 [|x3 r]]]; cbn [startsWithL ticks3] in H;
    repeat match type of H with
           | (?a && ?b) = true => apply andb_prop in H; destruct H as [? H]
           end; try discriminate.
  repeat match goal with E : Ascii.eqb _ _ = true |- _ => apply Ascii.eqb_eq in E end.
  subst. exists r. reflexivity.
Qed.

(** A fence opener at the current position is matched, and the match ends
    at [afterFence]. *)
Lemma matchHere_fence_hit : forall prev r,
  exists prev',
    matchHere Server.fence prev (tick :: tick :: tick :: r)
    = Some (MState prev' (afterFence r) []).
Proof.
  intros. unfold matchHere. rewrite fence_shape. unfold chr at 1 2 3.
  cbn [run ms_rest ms_caps]. rewrite !Ascii.eqb_refl.
  change (run (opt (chr lf)) (@Some mstate)) with optLf.
  cbn [ms_rest].
  destruct (starLoop_wordc r (fuel := List.length r) (Some tick) [] (le_n _)) as (p1 & E1).
  rewrite E1. unfold afterFence. apply optLf_spec.
Qed.

Lemma matchHere_fence_miss : forall prev l,
  startsWithL ticks3 l = false -> matchHere Server.fence prev l = None.
Proof.
  intros prev l H. unfold matchHere. rewrite fence_shape. unfold chr at 1 2 3.
  cbn [run ms_rest ms_caps].
  destruct l as [|x1 [|x2 [|x3 r]]]; cbn [startsWithL ticks3 andb] in H |- *;
    try reflexivity.
  - destruct (Ascii.eqb tick x1); reflexivity.
  - destruct (Ascii.eqb tick x1); [|reflexivity]. cbn [ms_rest].
    destruct (Ascii.eqb tick x2); reflexivity.
  - destruct (Ascii.eqb tick x1); [|reflexivity]. cbn [ms_rest].
    destruct (Ascii.eqb tick x2); [|reflexivity]. cbn [ms_rest].
    destruct (Ascii.eqb tick x3); [discriminate | reflexivity].
Qed.

Lemma replaceAll_fence_strip : forall fuel prev l,
  scan Server.fence (fun _ acc => [] ++ acc) (fun c acc => c :: acc) [] fuel prev l
  = strip fuel l.
Proof.
  induction fuel as [|f IH]; intros prev l; [reflexivity|].
  cbn [scan strip].
  destruct (startsWithL ticks3 l) eqn:Hs.
  - destruct (startsWith_ticks l Hs) as (r & ->).
    destruct (matchHere_fence_hit prev r) as (prev' & E). rewrite E.
    cbn [ms_rest ms_prev skipn].
    pose proof (afterFence_length r) as Hl.
    replace (0 <? List.length (tick :: tick :: tick :: r) - List.length (afterFence r))
      with true by (symmetry; apply Nat.ltb_lt; cbn [List.length]; lia).
    cbn [app]. apply IH.
  - rewrite (matchHere_fence_miss prev l Hs).
    destruct l as [|x t]; [reflexivity|]. f_equal. apply IH.
Qed.

(** ** No fence is left, and a text without fence is left as it is *)

Lemma hasFence_cons : forall x t,
  hasFence (x :: t) = startsWithL ticks3 (x :: t) || hasFence t.
Proof. reflexivity. Qed.

Lemma sw_cons : forall c p y l,
  startsWithL (c :: p) (y :: l) = Ascii.eqb c y && startsWithL p l.
Proof. reflexivity. Qed.

Lemma sw_nil : forall l, startsWithL [] l = true.
Proof. destruct l; reflexivity. Qed.

Lemma strip_keeps_one : forall f t,
  startsWithL [tick] t = false -> startsWithL [tick] (strip f t) = false.
Proof.
  intros f t H. destruct f as [|f]; [reflexivity|].
  destruct t as [|y t']; [reflexivity|].
  rewrite sw_cons, sw_nil, andb_true_r in H.
  cbn [strip]. unfold ticks3. rewrite sw_cons, H. cbn [andb].
  rewrite sw_cons, H. reflexivity.
Qed.

Lemma strip_keeps_two : forall f t,
  startsWithL [tick; tick] t = false -> startsWithL [tick; tick] (strip f t) = false.
Proof.
  intros f t H. destruct f as [|f]; [reflexivity|].
  destruct t as [|y t']; [reflexivity|].
  rewrite sw_cons in H.
  cbn [strip]. unfold ticks3. rewrite sw_cons.
  destruct (Ascii.eqb tick y) eqn:E; cbn [andb] in H |- *.
  - assert (H3 : startsWithL [tick; tick] t' = false).
    { destruct t' as [|z t'']; [reflexivity|]. rewrite sw_cons in H |- *.
      rewrite sw_nil, andb_true_r in H. rewrite H. reflexivity. }
    rewrite H3. rewrite sw_cons, E. cbn [andb].
    apply strip_keeps_one. exact H.
  - rewrite sw_cons, E. reflexivity.
Qed.

Lemma strip_no_fence : forall f l, hasFence (strip f l) = false.
Proof.
  induction f as [|f IH]; intros l; [reflexivity|].
  cbn [strip]. destruct (startsWithL ticks3 l) eqn:Hs; [apply IH|].
  destruct l as [|x t]; [reflexivity|].
  rewrite hasFence_cons, IH, orb_false_r.
  unfold ticks3 in Hs |- *. rewrite sw_cons in Hs |- *.
  destruct (Ascii.eqb tick x); cbn [andb] in Hs |- *; [|reflexivity].
  apply (strip_keeps_two f t). exact Hs.
Qed.

Lemma strip_fixes : forall l f,
  hasFence l = false -> List.length l < f -> strip f l = l.
Proof.
  induction l as [|x t IH]; intros f H Hf.
  - destruct f; reflexivity.
  - destruct f as [|f]; [lia|].
    rewrite hasFence_cons in H. apply orb_false_elim in H. destruct H as [H1 H2].
    cbn [strip]. rewrite H1. f_equal. apply IH; [exact H2 | cbn in Hf; lia].
Qed.

(** ** [trim] *)

Lemma dropWhile_suffix : forall p l, exists u, l = u ++ dropWhile p l.
Proof.
  induction l as [|x t (u & E)]; [exists []; reflexivity|].
  cbn [dropWhile]. destruct (p x).
  - exists (x :: u). cbn. f_equal. exact E.
  - exists []. reflexivity.
Qed.

Lemma dropWhile_head : forall p l,
  dropWhile p l = [] \/ exists x t, dropWhile p l = x :: t /\ p x = false.
Proof.
  induction l as [|x t IH]; [left; reflexivity|].
  cbn [dropWhile]. destruct (p x) eqn:E; [exact IH|].
  right. exists x, t. split; [reflexivity | exact E].
Qed.

Lemma dropWhile_idem : forall p l, dropWhile p (dropWhile p l) = dropWhile p l.
Proof.
  intros. destruct (dropWhile_head p l) as [E | (x & t & E & Hx)]; rewrite E.
  - reflexivity.
  - cbn [dropWhile]. rewrite Hx. reflexivity.
Qed.

Lemma dropWhile_snoc : forall p w x,
  p x = false -> dropWhile p (w ++ [x]) = dropWhile p w ++ [x].
Proof.
  induction w as [|y w IH]; intros x Hx; cbn [app dropWhile].
  - rewrite Hx. reflexivity.
  - destruct (p y); [apply IH; exact Hx | reflexivity].
Qed.

Lemma trimL_idem : forall l, trimL (trimL l) = trimL l.
Proof.
  intros. unfold trimL, trimStartL.
  destruct (dropWhile_head isSpace l) as [E | (x & t & E & Hx)]; rewrite E.
  - reflexivity.
  - assert (Hend : trimEndL (x :: t) = x :: rev (dropWhile isSpace (rev t))).
    { unfold trimEndL. cbn [rev]. rewrite dropWhile_snoc by exact Hx.
      rewrite rev_app_distr. reflexivity. }
    rewrite Hend. cbn [dropWhile]. rewrite Hx. rewrite <- Hend.
    unfold trimEndL. rewrite rev_involutive, dropWhile_idem. reflexivity.
Qed.

Lemma startsWithL_app : forall p a v,
  startsWithL p a = true -> startsWithL p (a ++ v) = true.
Proof.
  induction p as [|c p IH]; intros a v H; [reflexivity|].
  destruct a as [|y a]; [discriminate|].
  cbn [startsWithL app] in H |- *. apply andb_prop in H. destruct H as [H1 H2].
  rewrite H1. cbn [andb]. apply IH. exact H2.
Qed.

Lemma includesL_app_r : forall p a v,
  includesL p a = true -> includesL p (a ++ v) = true.
Proof.
  induction a as [|y a IH]; intros v H.
  - cbn [includesL] in H. rewrite orb_false_r in H.
    destruct p; [|discriminate]. destruct v; reflexivity.
  - cbn [includesL app] in H |- *. apply orb_prop in H. destruct H as [H|H].
    + change (y :: a ++ v) with ((y :: a) ++ v).
      rewrite (startsWithL_app p (y :: a) v H). reflexivity.
    + rewrite (IH v H). apply orb_true_r.
Qed.

Lemma includesL_app_l : forall p u a,
  includesL p a = true -> includesL p (u ++ a) = true.
Proof.
  induction u as [|y u IH]; intros a H; [exact H|].
  cbn [app includesL]. rewrite (IH a H). apply orb_true_r.
Qed.

Lemma trimL_infix : forall l, exists u v, l = u ++ trimL l ++ v.
Proof.
  intros. unfold trimL, trimStartL, trimEndL.
  destruct (dropWhile_suffix isSpace l) as (u & Eu).
  destruct (dropWhile_suffix isSpace (rev (dropWhile isSpace l))) as (w & Ew).
  exists u, (rev w). rewrite <- rev_app_distr, <- Ew, rev_involutive. exact Eu.
Qed.

Lemma trimL_no_fence : forall l, hasFence l = false -> hasFence (trimL l) = false.
Proof.
  intros l H. destruct (hasFence (trimL l)) eqn:E; [|reflexivity].
  destruct (trimL_infix l) as (u & v & El).
  unfold hasFence in *. rewrite El in H.
  rewrite (includesL_app_l ticks3 u _ (includesL_app_r ticks3 _ v E)) in H.
  discriminate.
Qed.

(** ** The cleaning step is idempotent *)

Lemma clean_chars : forall s,
  chars (clean s) = trimL (strip (S (List.length (chars s))) (chars s)).
Proof.
  intros. unfold clean, trim, replaceAll, replaceAllL. rewrite !chars_str.
  change (chars "") with (@nil ascii). rewrite replaceAll_fence_strip. reflexivity.
Qed.

Lemma clean_idem : forall s, clean (clean s) = clean s.
Proof.
  intros.
  assert (H : chars (clean (clean s)) = chars (clean s)).
  { rewrite (clean_chars (clean s)).
    set (c := chars (clean s)).
    assert (Hc : hasFence c = false).
    { unfold c. rewrite clean_chars. apply trimL_no_fence, strip_no_fence. }
    rewrite strip_fixes by (auto; lia).
    unfold c. rewrite clean_chars. apply trimL_idem. }
  rewrite <- (str_chars (clean (clean s))), H. apply str_chars.
Qed.


End Fence.

(** ** The server's guardrails *)

Section Guardrails.
Import Server.

Lemma isSafeSelect_by_count : forall sqlText,
  let lowered := toLowerCase (trim sqlText) in
  let n := countSemi (chars sqlText) in
  isSafeSelect sqlText =
    if negb (truthy sqlText) then false else
    if (1 <? n) || ((n =? 1) && negb (endsWith (trim sqlText) ";")) then false else
    if negb (startsWith lowered "select" || startsWith lowered "with") then false else
    if existsb (fun kw => includes lowered kw) forbidden then false else true.
Proof.
  intros sqlText lowered n. unfold isSafeSelect. fold lowered.
  assert (Hn : List.length (matchAll (chr ";") lowered) = n).
  { rewrite (semicolonCount_spec lowered). unfold lowered, toLowerCase, trim.
    rewrite !chars_str. rewrite countSemi_lower. apply countSemi_trim. }
  assert (He : endsWith lowered ";" = endsWith (trim sqlText) ";").
  { unfold endsWith, lowered, toLowerCase. rewrite chars_str.
    apply (endsWith_semicolon_lower (chars (trim sqlText))). }
  rewrite Hn, He. reflexivity.
Qed.

(** C2: [isSafeSelect] rejects every text that holds more than one
    semicolon, and every text that holds exactly one semicolon which is not
    the last character of the trimmed text; with exactly one semicolon that
    is the last character the semicolon check lets the text through to the
    remaining checks.  Whatever text the suffix "; DROP TABLE Users; --" is
    appended to, the result is rejected. *)
Theorem C2_semicolon_gate : forall sqlText,
  let n := count_occ ascii_dec (chars sqlText) ";"%char in
  let lowered := toLowerCase (trim sqlText) in
  (1 < n -> isSafeSelect sqlText = false)
  /\ (n = 1 -> endsWith (trim sqlText) ";" = false -> isSafeSelect sqlText = false)
  /\ (n = 1 -> endsWith (trim sqlText) ";" = true ->
      isSafeSelect sqlText =
        (startsWith lowered "select" || startsWith lowered "with")
        && negb (existsb (fun kw => includes lowered kw) forbidden))
  /\ isSafeSelect (sqlText ++ dropUsers) = false.
Proof.
  intros sqlText n lowered.
  assert (Hempty : truthy sqlText = false -> n = 0).
  { intros H. unfold n. rewrite (truthy_chars _ H). reflexivity. }
  repeat split.
  - intros Hn. rewrite isSafeSelect_by_count. fold (countSemi (chars sqlText)).
    destruct (truthy sqlText); [|reflexivity]. cbn [negb].
    change (countSemi (chars sqlText)) with n.
    apply Nat.ltb_lt in Hn. rewrite Hn. reflexivity.
  - intros Hn He. rewrite isSafeSelect_by_count.
    destruct (truthy sqlText); [|reflexivity]. cbn [negb].
    change (countSemi (chars sqlText)) with n. rewrite Hn, He. reflexivity.
  - intros Hn He. rewrite isSafeSelect_by_count.
    destruct (truthy sqlText) eqn:Ht; [|specialize (Hempty eq_refl); lia]. cbn [negb].
    change (countSemi (chars sqlText)) with n. rewrite Hn, He. cbn [Nat.ltb Nat.leb Nat.eqb negb andb orb].
    fold lowered.
    destruct (startsWith lowered "select" || startsWith lowered "with"); cbn [negb andb];
      [|reflexivity].
    destruct (existsb (fun kw => includes lowered kw) forbidden); reflexivity.
  - rewrite isSafeSelect_by_count.
    destruct (truthy (sqlText ++ dropUsers)); [|reflexivity]. cbn [negb].
    assert (H2 : 1 < countSemi (chars (sqlText ++ dropUsers))).
    { rewrite chars_append. unfold countSemi. rewrite count_occ_app.
      change (count_occ ascii_dec (chars dropUsers) ";"%char) with 2. lia. }
    apply Nat.ltb_lt in H2. rewrite H2. reflexivity.
Qed.

Lemma C2_semicolon_gate_witness :
  count_occ ascii_dec (chars "SELECT a; SELECT b") ";"%char = 1
  /\ endsWith (trim "SELECT a; SELECT b") ";" = false
  /\ isSafeSelect "SELECT a; SELECT b" = false.
Proof.
  split; [reflexivity|]. split; [reflexivity|].
  apply (proj1 (proj2 (C2_semicolon_gate "SELECT a; SELECT b"))); reflexivity.
Defined.

Lemma validateAndCleanSql_some : forall s t,
  validateAndCleanSql (Some s) t =
    if negb (truthy s) then FALLBACK else
    if negb (startsWith (toUpperCase (clean s)) "SELECT")
       && negb (startsWith (toUpperCase (clean s)) "WITH") then FALLBACK else
    if existsb (fun keyword =>
                  includes (toUpperCase (clean s)) (" " ++ keyword ++ " ")%string)
         dangerousKeywords then FALLBACK else clean s.
Proof. reflexivity. Qed.

Lemma fallback_clean : forall t, validateAndCleanSql (Some FALLBACK) t = FALLBACK.
Proof. intros. vm_compute. reflexivity. Qed.

(** C8: [validateAndCleanSql] is idempotent: applied to its own result,
    for any argument, absent or a string, it returns that result. *)
Theorem C8_validateAndCleanSql_idempotent : forall sql expectedTable expectedTable',
  validateAndCleanSql (Some (validateAndCleanSql sql expectedTable)) expectedTable'
  = validateAndCleanSql sql expectedTable.
Proof.
  intros [s|] t t'; [|apply fallback_clean].
  rewrite (validateAndCleanSql_some s t).
  destruct (negb (truthy s)); [apply fallback_clean|].
  destruct (negb (startsWith (toUpperCase (clean s)) "SELECT")
            && negb (startsWith (toUpperCase (clean s)) "WITH")) eqn:Hstart;
    [apply fallback_clean|].
  destruct (existsb _ dangerousKeywords) eqn:Hdanger; [apply fallback_clean|].
  rewrite validateAndCleanSql_some, clean_idem, Hstart, Hdanger.
  destruct (clean s) as [|c s'] eqn:Ec.
  - vm_compute in Hstart. discriminate.
  - reflexivity.
Qed.

End Guardrails.

(** ** Table detection *)

Section TableDetection.
Import Server.




























End TableDetection.

(** ** Visualization *)

Section Visualization.

Lemma find_chart : forall prompt,
  Server.chartTypeOf prompt =
    if test (Server.chartPhrase "bar") prompt then "bar"
    else if test (Server.chartPhrase "line") prompt then "line"
    else if test (Server.chartPhrase "pie") prompt then "pie"
    else if test Server.tablePhrase prompt then "table"
    else "".
Proof.
  intros. unfold Server.chartTypeOf, Server.chartPatterns. simpl find.
  repeat match goal with |- context [if ?b then _ else _] => destruct b end; reflexivity.
Qed.

(** C9: in the [/api/query] handler, a chart phrase in the prompt decides
    the visualization, the first matching pattern of bar, line, pie, table
    winning; without one and with at least one row, the first row decides:
    line for a date-like column name together with a numeric-looking
    column, bar for a numeric-looking column in a row of at most three
    columns, table otherwise; without rows the value set from the prompt,
    possibly empty, is returned.  A first row with the columns
    MONTH_REPORTED and TotalGross, the latter a number, under a prompt
    without chart phrase gives line. *)
Theorem C9_visualization_choice : forall prompt result,
  (Server.chartTypeOf prompt <> "" ->
     Server.visualization prompt result = Server.chartTypeOf prompt)
  /\ Server.chartTypeOf prompt =
       (if test (Server.chartPhrase "bar") prompt then "bar"
        else if test (Server.chartPhrase "line") prompt then "line"
        else if test (Server.chartPhrase "pie") prompt then "pie"
        else if test Server.tablePhrase prompt then "table"
        else "")
  /\ (Server.chartTypeOf prompt = "" ->
      forall first rest, Server.recordset result = Some (first :: rest) ->
        let cols := Server.keys first in
        let numericCols :=
          filter (fun c => Server.numericLooking (Server.getCol first c)) cols in
        Server.visualization prompt result =
          if existsb (fun c => test Server.dateLike c) cols
             && (1 <=? List.length numericCols)
          then "line"
          else if (1 <=? List.length numericCols) && (List.length cols <=? 3)
          then "bar" else "table")
  /\ (Server.recordset result = None \/ Server.recordset result = Some [] ->
      Server.visualization prompt result = Server.chartTypeOf prompt)
  /\ (Server.chartTypeOf prompt = "" ->
      forall v x rest,
        Server.recordset result =
          Some ([("MONTH_REPORTED", v); ("TotalGross", Server.VNumber x)] :: rest) ->
        Server.visualization prompt result = "line")
  /\ (forall generateSql runQuery sqlQuery rows viz,
        Server.apiQuery generateSql runQuery (Some prompt)
        = {| Server.status := 200; Server.body := Server.QueryBody sqlQuery rows viz |} ->
        exists answer, runQuery sqlQuery = Ok answer
                       /\ viz = Server.visualization prompt answer).
Proof.
  intros prompt result. split; [|split; [|split; [|split; [|split]]]].
  - intros Hne. unfold Server.visualization.
    destruct (Server.recordset result) as [[|first rest]|]; try reflexivity.
    destruct (String.eqb_spec (Server.chartTypeOf prompt) ""); [contradiction | reflexivity].
  - apply find_chart.
  - intros He first rest Hrs cols numericCols. unfold Server.visualization.
    rewrite Hrs, He. reflexivity.
  - intros [H|H]; unfold Server.visualization; rewrite H; reflexivity.
  - intros He v x rest Hrs. unfold Server.visualization. rewrite Hrs, He.
    cbn [Server.keys map fst existsb filter].
    assert (G1 : Server.getCol
                   [("MONTH_REPORTED", v); ("TotalGross", Server.VNumber x)]
                   "MONTH_REPORTED" = v) by reflexivity.
    assert (G2 : Server.getCol
                   [("MONTH_REPORTED", v); ("TotalGross", Server.VNumber x)]
                   "TotalGross" = Server.VNumber x) by reflexivity.
    rewrite G1, G2.
    replace (test Server.dateLike "MONTH_REPORTED") with true
      by (vm_compute; reflexivity).
    cbn [Server.numericLooking].
    destruct (Server.numericLooking v); reflexivity.
  - intros generateSql runQuery sqlQuery rows viz H. unfold Server.apiQuery in H.
    destruct (negb (truthy prompt)); [discriminate|].
    destruct (generateSql prompt) as [[q|]|err]; try discriminate.
    destruct (negb (truthy q)); [discriminate|].
    destruct (negb (Server.isSafeSelect q)); [discriminate|].
    destruct (runQuery q) as [answer|err] eqn:Eq; [|discriminate].
    inversion H; subst. exists answer. split; [exact Eq | reflexivity].
Qed.

Lemma C9_visualization_witness :
  Server.chartTypeOf "total gross per month" = ""
  /\ Server.visualization "total gross per month"
       {| Server.recordset :=
            Some [[("MONTH_REPORTED", Server.VString "October");
                   ("TotalGross", Server.VNumber 1250.5)]] |} = "line".
Proof.
  split; [reflexivity|].
  refine (proj1 (proj2 (proj2 (proj2 (proj2
            (C9_visualization_choice "total gross per month" _))))) _ _ _ _ _);
    reflexivity.
Defined.

End Visualization.

(** ** The generator without a schema snapshot *)

Section NoSnapshot.
Import SQLGenerator.

Lemma getCachedSchema_none : forall w this st,
  noSnapshot w this st ->
  _getCachedSchema w this st
  = (Ok None,
     {| _schema := None; _schemaFetchedAt := _schemaFetchedAt st;
        ticks := if hasRedis this then S (ticks st) else ticks st |}).
Proof.
  intros w this st (Hs & Hdb & Hr).
  unfold _getCachedSchema, bind, getState, ret. cbn.
  rewrite Hs. cbn.
  destruct (hasRedis this) eqn:Hred.
  - destruct Hr as [Hr|Hr]; [discriminate|].
    unfold ask. cbn. rewrite Hr. cbn. rewrite Hdb. cbn. rewrite Hs. reflexivity.
  - cbn. rewrite Hdb. cbn. rewrite Hs. destruct st; cbn in *. subst. reflexivity.
Qed.

(** C10: when no schema snapshot is available (nothing in memory, no
    database configuration, no external cache or nothing under its key),
    [_getCachedSchema] yields null and [checkSqlAgainstSchema] answers true
    for every text; [generateSqlFromPrompt] then returns what the safety
    rules alone decide on the client's answer, whatever the schema-check
    option. *)
Theorem C10_no_snapshot_no_schema_gate :
  forall w this st, noSnapshot w this st ->
    (forall sqlText, fst (checkSqlAgainstSchema w this sqlText st) = Ok true)
    /\ fst (_getCachedSchema w this st) = Ok None
    /\ (forall rulesIntro rulesList minimalSchemaText userPrompt opts,
          fst (generateSqlFromPrompt w this rulesIntro rulesList
                 minimalSchemaText userPrompt opts st)
          = Ok (bySafetyAlone
                  (llmClient w (if hasRedis this then S (ticks st) else ticks st)
                     (messagesWithoutSchema this rulesIntro rulesList
                        minimalSchemaText userPrompt)))).
Proof.
  intros w this st H.
  pose proof (getCachedSchema_none H) as E1.
  split; [|split].
  - intros sqlText. unfold checkSqlAgainstSchema, bind. rewrite E1. reflexivity.
  - rewrite E1. reflexivity.
  - intros. unfold generateSqlFromPrompt, bind, catch. rewrite E1.
    cbn [ask ticks _schema _schemaFetchedAt].
    fold (messagesWithoutSchema this rulesIntro rulesList minimalSchemaText userPrompt).
    destruct (llmClient w (if hasRedis this then S (ticks st) else ticks st)
                (messagesWithoutSchema this rulesIntro rulesList minimalSchemaText
                   userPrompt)) as [content|err] eqn:El.
    + cbn. unfold bySafetyAlone.
      set (sqlText := trim match content with Some c => c | None => "" end).
      destruct (truthy sqlText); cbn; [|reflexivity].
      destruct (validateSqlSafety sqlText); cbn; [|reflexivity].
      assert (Hchk : forall n,
                fst (checkSqlAgainstSchema w this sqlText
                       {| _schema := None; _schemaFetchedAt := _schemaFetchedAt st;
                          ticks := n |}) = Ok true).
      { intros n. unfold checkSqlAgainstSchema, bind.
        rewrite getCachedSchema_none; [reflexivity|].
        destruct H as (_ & Hdb & Hr). repeat split; assumption. }
      destruct opts as [[|]|]; cbn.
      * specialize (Hchk (S (if hasRedis this then S (ticks st) else ticks st))).
        destruct (checkSqlAgainstSchema w this sqlText _) as [[b|e] st3];
          cbn in Hchk; inversion Hchk; subst. reflexivity.
      * reflexivity.
      * specialize (Hchk (S (if hasRedis this then S (ticks st) else ticks st))).
        destruct (checkSqlAgainstSchema w this sqlText _) as [[b|e] st3];
          cbn in Hchk; inversion Hchk; subst. reflexivity.
    + cbn. reflexivity.
Qed.


Lemma C10_no_snapshot_witness :
  noSnapshot worldDbDown configBare initial
  /\ fst (checkSqlAgainstSchema worldDbDown configBare
            "SELECT NoSuchColumn FROM NoSuchTable" initial) = Ok true.
Proof.
  assert (H : noSnapshot worldDbDown configBare initial).
  { split; [reflexivity|]. split; [reflexivity|]. left. reflexivity. }
  split; [exact H|].
  apply (proj1 (C10_no_snapshot_no_schema_gate H)).
Defined.

End NoSnapshot.

(** ** What the generator returns when it returns *)

Section GeneratorResults.
Import SQLGenerator.

Lemma generate_unchecked_total :
  forall w this rulesIntro rulesList minimalSchemaText userPrompt st,
  exists sql,
    fst (generateSqlFromPrompt w this rulesIntro rulesList minimalSchemaText
           userPrompt (Some false) st) = Ok sql.
Proof.
  intros. unfold generateSqlFromPrompt, bind, catch.
  destruct (_getCachedSchema w this st) as [[schemaObj|err] st1]; cbn [ret ask fst snd].
  - match goal with |- context [llmClient w ?n ?m] =>
      destruct (llmClient w n m) as [content|err] end; cbn.
    + match goal with |- context [truthy ?t] => destruct (truthy t) end; cbn;
        [|eexists; reflexivity].
      match goal with |- context [validateSqlSafety ?t] =>
        destruct (validateSqlSafety t) end; cbn; eexists; reflexivity.
    + eexists; reflexivity.
  - match goal with |- context [llmClient w ?n ?m] =>
      destruct (llmClient w n m) as [content|err2] end; cbn.
    + match goal with |- context [truthy ?t] => destruct (truthy t) end; cbn;
        [|eexists; reflexivity].
      match goal with |- context [validateSqlSafety ?t] =>
        destruct (validateSqlSafety t) end; cbn; eexists; reflexivity.
    + eexists; reflexivity.
Qed.

Lemma opensStatement_plain : forall x,
  opensStatement x = true -> isSpace x = false /\ Ascii.eqb ";"%char x = false.
Proof.
  intros [[] [] [] [] [] [] [] []]; vm_compute; intros H;
    first [discriminate H | split; reflexivity].
Qed.

Lemma searchFrom_bol : forall r l c pos,
  searchFrom (Seq Bol r) (Some c) l pos = None.
Proof.
  induction l as [|x t IH]; intros c pos; cbn [searchFrom]; unfold matchHere;
    cbn [run ms_prev].
  - reflexivity.
  - apply IH.
Qed.

Lemma starts_first_char : forall s,
  test startsSelectOrWith s = true ->
  exists x t, chars s = x :: t /\ opensStatement x = true.
Proof.
  intros s H. unfold test, exec in H.
  destruct (chars s) as [|x t]; [vm_compute in H; discriminate|].
  exists x, t. split; [reflexivity|].
  destruct (opensStatement x) eqn:E; [reflexivity|]. exfalso.
  unfold opensStatement in E. apply orb_false_elim in E. destruct E as [E1 E2].
  change startsSelectOrWith with
    (Seq Bol (Seq (Group 1 (Alt (Seq (chri "S") (seqs (map chri (chars "ELECT"))))
                                (Seq (chri "W") (seqs (map chri (chars "ITH"))))))
                  WordB)) in H.
  cbn [searchFrom] in H. rewrite searchFrom_bol in H.
  unfold matchHere in H. unfold chri at 1 3 in H.
  cbn [run ms_prev ms_rest ms_caps] in H.
  change (foldChar "S") with "s"%char in H. change (foldChar "W") with "w"%char in H.
  rewrite E1 in H. cbn [run ms_prev ms_rest ms_caps] in H.
  rewrite E2 in H. discriminate.
Qed.

Lemma trailing_miss : forall prev x t,
  isSpace x = false -> Ascii.eqb ";"%char x = false ->
  matchHere trailingSemicolons prev (x :: t) = None.
Proof.
  intros prev x t Hs Hc. unfold matchHere, trailingSemicolons.
  cbn [seqs run ms_rest List.length starLoop]. unfold ws at 1. cbn [run ms_rest].
  rewrite Hs. unfold plus at 1. unfold chr at 1. cbn [run ms_rest]. rewrite Hc.
  reflexivity.
Qed.

Lemma safe_statement_kept : forall t,
  test startsSelectOrWith t = true ->
  replaceAll trailingSemicolons "" t <> "".
Proof.
  intros t H. destruct (@starts_first_char t H) as (x & r & Et & Hx).
  destruct (@opensStatement_plain x Hx) as [Hs Hc].
  unfold replaceAll, replaceAllL. rewrite Et. cbn [List.length scan].
  rewrite (@trailing_miss None x r Hs Hc). cbn. discriminate.
Qed.

Lemma trim_idem : forall s, trim (trim s) = trim s.
Proof.
  intros. unfold trim. rewrite list_ascii_of_string_of_list_ascii.
  unfold chars. rewrite trimL_idem. reflexivity.
Qed.

Lemma safe_starts : forall t,
  validateSqlSafety t = true -> test startsSelectOrWith (trim t) = true.
Proof.
  intros t H. unfold validateSqlSafety in H.
  destruct (negb (truthy t)); [discriminate|].
  fold startsSelectOrWith in H.
  destruct (test startsSelectOrWith (trim t)); [reflexivity | discriminate].
Qed.

Lemma generate_never_empty :
  forall w this rulesIntro rulesList minimalSchemaText userPrompt opts st sql,
    fst (generateSqlFromPrompt w this rulesIntro rulesList minimalSchemaText
           userPrompt opts st) = Ok sql ->
    sql <> "".
Proof.
  intros w this rulesIntro rulesList minimalSchemaText userPrompt opts st sql.
  unfold generateSqlFromPrompt, bind, catch.
  destruct (_getCachedSchema w this st) as [[schemaObj|err] st1]; cbn [ret ask fst snd];
  (match goal with |- context [llmClient w ?n ?m] =>
     destruct (llmClient w n m) as [content|err2] end; cbn;
   [| intros H; inversion H; discriminate ];
   match goal with |- context [truthy ?t] => set (sqlText := t) end;
   destruct (truthy sqlText); cbn; [| intros H; inversion H; discriminate ];
   destruct (validateSqlSafety sqlText) eqn:Hsafe; cbn;
     [| intros H; inversion H; discriminate ];
   match goal with
   | |- context [(if ?b then _ else _) ?s0] =>
       destruct ((if b then checkSqlAgainstSchema w this sqlText else ret true) s0)
         as [[[|]|e] s1] eqn:Echk
   end;
   try (rewrite Echk); cbn; intros H; inversion H; try discriminate;
   apply safe_statement_kept;
   replace sqlText with (trim sqlText) by (unfold sqlText; apply trim_idem);
   apply safe_starts; exact Hsafe).
Qed.

End GeneratorResults.

(** ** The scenario prompts, and the inputs where code and claims part *)

(** C4, as the specification states it: for the prompt "Show total gross by
    dealership for October 2025" the analysis names the sales table, a SUM
    aggregate on TOTAL_COST, the grouping column DEALER_LOCATION and a time
    range of the specific_month_year rule with month october and year 2025.
    The statement is false: no rule reads a month followed by a year, the
    time range comes from the specific_year rule, and it has no month. *)
Lemma C4_month_year_variant_refuted :
  ~ (let r := Server.analyzeUserPrompt promptGross in
     Server.table (Server.r_table r) = "SalesReport_Form_Input"
     /\ (exists a, In a (Server.r_aggregates r)
                   /\ Server.a_function a = "SUM"
                   /\ Server.a_column a = "TOTAL_COST")
     /\ Server.groupBy (Server.r_presentation r) = Some "DEALER_LOCATION"
     /\ Server.timeRangeVariant promptGross = Some "specific_month_year"
     /\ (exists tr, Server.r_timeRange r = Some tr
                    /\ Server.month tr = Some "october"
                    /\ Server.year tr = Some "2025")).
Proof.
  intros (_ & _ & _ & _ & tr & Htr & Hmonth & _).
  vm_compute in Htr. inversion Htr; subst tr.
  discriminate Hmonth.
Qed.

(** C4, amended: for the prompt "Show total gross by dealership for October
    2025" the analysis names the sales table (key sales), exactly one
    aggregate, SUM on TOTAL_COST aliased TotalGross, the grouping column
    DEALER_LOCATION, and the time range built by the specific_year rule:
    year 2025 with the predicate on YEAR_REPORTED alone and no month field.
    The filters are exactly three, in this order: DEALER_LOCATION with the
    value October (the word after "dealership for"), MONTH_REPORTED with
    the value October, and YEAR_REPORTED with the value 2025. *)
Theorem C4_total_gross_by_dealership :
  let r := Server.analyzeUserPrompt promptGross in
  Server.table (Server.r_table r) = "SalesReport_Form_Input"
  /\ Server.key (Server.r_table r) = "sales"
  /\ Server.r_aggregates r =
       [ {| Server.a_column := "TOTAL_COST"; Server.a_function := "SUM";
            Server.a_alias := "TotalGross" |} ]
  /\ Server.groupBy (Server.r_presentation r) = Some "DEALER_LOCATION"
  /\ Server.timeRangeVariant promptGross = Some "specific_year"
  /\ Server.r_timeRange r =
       Some {| Server.year := Some "2025"; Server.month := None;
               Server.relative := None; Server.quarter := None;
               Server.date := None; Server.start := None; Server.end_ := None;
               Server.sqlCondition := "YEAR_REPORTED = '2025'" |}
  /\ Server.r_filters r =
       [ {| Server.f_column := "DEALER_LOCATION"; Server.f_concept := "dealership";
            Server.f_value := Some "October"; Server.f_isAggregate := false |};
         {| Server.f_column := "MONTH_REPORTED"; Server.f_concept := "month";
            Server.f_value := Some "October"; Server.f_isAggregate := false |};
         {| Server.f_column := "YEAR_REPORTED"; Server.f_concept := "year";
            Server.f_value := Some "2025"; Server.f_isAggregate := false |} ].
Proof.
  vm_compute. repeat split; reflexivity.
Qed.

(** C5, the code at the inputs where it departs from the claim: a quarter
    with a year, the specific date and the date range that the code's own
    comments give as examples are all answered by the specific_year rule,
    which stands third in the list, before the rules written for them.
    In general, a prompt that holds a year 20xx as a whole word never
    reaches a rule after the third. *)
Theorem C5_generic_year_rule_shadows :
  map Server.type Server.patterns =
    ["specific_month_year"; "relative_month"; "specific_year"; "quarter_year";
     "specific_date"; "ytd"; "mtd"; "relative_year"; "relative_quarter";
     "today"; "yesterday"; "day_before_yesterday"; "this_week"; "last_week";
     "last_7_days"; "last_30_days"; "custom_range"]
  /\ Server.timeRangeVariant "Q1 2025" = Some "specific_year"
  /\ Server.timeRangeVariant "January 9, 2026" = Some "specific_year"
  /\ Server.timeRangeVariant "from January 1 to January 15 2026" = Some "specific_year"
  /\ Server.detectTimeRangeEnhanced "Q1 2025" =
       Some {| Server.year := Some "2025"; Server.month := None;
               Server.relative := None; Server.quarter := None;
               Server.date := None; Server.start := None; Server.end_ := None;
               Server.sqlCondition := "YEAR_REPORTED = '2025'" |}
  /\ (forall prompt, test Server.year20 prompt = true ->
        In (Server.timeRangeVariant prompt)
           [Some "specific_month_year"; Some "relative_month"; Some "specific_year"]).
Proof.
  split; [reflexivity|]. split; [vm_compute; reflexivity|].
  split; [vm_compute; reflexivity|]. split; [vm_compute; reflexivity|].
  split; [vm_compute; reflexivity|].
  intros prompt H. unfold Server.timeRangeVariant, Server.patterns.
  cbn [Server.firstRule Server.regex_].
  match goal with |- context [exec ?r prompt] => destruct (exec r prompt) end;
    [cbn; auto|].
  match goal with |- context [exec ?r prompt] => destruct (exec r prompt) end;
    [cbn; auto|].
  unfold test in H. destruct (exec Server.year20 prompt); [cbn; auto | discriminate].
Qed.

(** C6: for the prompt "count deals this month" the aggregate list is
    exactly one COUNT entry, on column ID with alias TotalDeals (found by
    the count concept, so the special case adds nothing), and the time
    range is the one of the relative_month rule with relative = this.  For
    every prompt, the special case leaves the detected aggregates as they
    are once they hold a COUNT entry. *)
Theorem C6_count_deals_this_month :
  (let r := Server.analyzeUserPrompt promptCount in
   Server.r_aggregates r =
     [ {| Server.a_column := "ID"; Server.a_function := "COUNT";
          Server.a_alias := "TotalDeals" |} ]
   /\ snd (fold_left (Server.conceptStep promptCount) Server.COLUMN_MAPPINGS ([], []))
      = Server.r_aggregates r
   /\ Server.timeRangeVariant promptCount = Some "relative_month"
   /\ exists tr, Server.r_timeRange r = Some tr
                 /\ Server.relative tr = Some "this")
  /\ (forall prompt,
        let detected :=
          snd (fold_left (Server.conceptStep prompt) Server.COLUMN_MAPPINGS ([], [])) in
        existsb (fun a => String.eqb (Server.a_function a) "COUNT") detected = true ->
        Server.r_aggregates (Server.analyzeUserPrompt prompt) = detected).
Proof.
  split.
  - vm_compute. repeat split; try reflexivity.
    eexists. split; reflexivity.
  - intros prompt detected Hcount. subst detected.
    unfold Server.analyzeUserPrompt.
    destruct (fold_left (Server.conceptStep prompt) Server.COLUMN_MAPPINGS ([], []))
      as [fs ags]. simpl in *.
    rewrite Hcount. rewrite andb_false_r. reflexivity.
Qed.

Lemma C6_count_deals_witness :
  Server.r_aggregates (Server.analyzeUserPrompt "count sales by month") =
    snd (fold_left (Server.conceptStep "count sales by month") Server.COLUMN_MAPPINGS ([], [])).
Proof.
  apply (proj2 C6_count_deals_this_month "count sales by month").
  vm_compute. reflexivity.
Defined.

(** What the two validators do reject: [isSafeSelect] every text whose
    trimmed, lower-cased form holds a listed keyword followed by a space;
    [validateSqlSafety] every text whose trimmed form matches one of its
    own patterns. *)
Lemma isSafeSelect_rejects_listed : forall sqlText kw,
  In kw Server.forbidden ->
  includes (toLowerCase (trim sqlText)) kw = true ->
  Server.isSafeSelect sqlText = false.
Proof.
  intros sqlText kw Hin Hinc.
  assert (H : existsb (fun kw0 => includes (toLowerCase (trim sqlText)) kw0)
                Server.forbidden = true).
  { apply existsb_exists. exists kw. split; assumption. }
  unfold Server.isSafeSelect. rewrite H.
  repeat match goal with
         | |- (if ?b then false else _) = false => destruct b; [reflexivity|]
         end.
  reflexivity.
Qed.

Lemma validateSqlSafety_rejects_listed : forall sqlText p,
  In p SQLGenerator.forbidden ->
  test p (trim sqlText) = true ->
  SQLGenerator.validateSqlSafety sqlText = false.
Proof.
  intros sqlText p Hin Ht.
  assert (H : existsb (fun p0 => test p0 (trim sqlText)) SQLGenerator.forbidden = true).
  { apply existsb_exists. exists p. split; assumption. }
  unfold SQLGenerator.validateSqlSafety. rewrite H.
  repeat match goal with
         | |- (if ?b then false else _) = false => destruct b; [reflexivity|]
         end.
  reflexivity.
Qed.

(** C1, the code at the inputs where it departs from the claim.  Each text
    holds a forbidden keyword as a whole word.  [isSafeSelect] searches the
    keyword followed by one space, so EXEC before a parenthesis and DROP
    before a line break pass it; [validateSqlSafety] has no entry for
    MERGE, GRANT and REVOKE (none of its patterns matches these words), so
    a GRANT statement passes it. *)
Theorem C1_forbidden_keyword_accepted :
  (test (SQLGenerator.wholeWord "exec") sqlExecCall = true
   /\ Server.isSafeSelect sqlExecCall = true)
  /\ (test (SQLGenerator.wholeWord "drop") sqlDropOnNextLine = true
      /\ Server.isSafeSelect sqlDropOnNextLine = true)
  /\ (test (SQLGenerator.wholeWord "grant") sqlGrant = true
      /\ SQLGenerator.validateSqlSafety sqlGrant = true
      /\ Server.isSafeSelect sqlGrant = false)
  /\ existsb (fun p => test p "merge grant revoke") SQLGenerator.forbidden = false.
Proof.
  split; [vm_compute; split; reflexivity|].
  split; [vm_compute; split; reflexivity|].
  split; [vm_compute; repeat split; reflexivity|].
  vm_compute. reflexivity.
Qed.

(** C3, the code at the input where it departs from the claim: with a
    database configured and unreachable, the schema lookup of step 2 is
    caught, the client's answer passes the safety rules, and the second
    schema lookup, inside the schema check of step 6, throws out of
    [generateSqlFromPrompt].  With the schema check switched off the same
    call returns the client's statement; in general, with the check off the
    method always returns, and whatever it returns is not empty. *)
Theorem C3_generate_throws_when_db_down :
  fst (SQLGenerator.generateSqlFromPrompt worldDbDown configWithDb "" "" ""
         (Some "show sales") None SQLGenerator.initial)
    = Throw dbError
  /\ fst (SQLGenerator.generateSqlFromPrompt worldDbDown configWithDb "" "" ""
            (Some "show sales") (Some false) SQLGenerator.initial)
       = Ok "SELECT 1"
  /\ SQLGenerator.validateSqlSafety "SELECT 1" = true
  /\ (forall w this rulesIntro rulesList minimalSchemaText userPrompt st,
        exists sql,
          fst (SQLGenerator.generateSqlFromPrompt w this rulesIntro rulesList
                 minimalSchemaText userPrompt (Some false) st) = Ok sql)
  /\ (forall w this rulesIntro rulesList minimalSchemaText userPrompt opts st sql,
        fst (SQLGenerator.generateSqlFromPrompt w this rulesIntro rulesList
               minimalSchemaText userPrompt opts st) = Ok sql ->
        sql <> "").
Proof.
  split; [vm_compute; reflexivity|]. split; [vm_compute; reflexivity|].
  split; [vm_compute; reflexivity|]. split.
  - apply generate_unchecked_total.
  - apply generate_never_empty.
Qed.

(** * Further properties of the code *)

(** ** Literals under the [i] flag *)

Section Literals.

Lemma run_seqs_cons : forall r t k s,
  run (seqs (r :: t)) k s = run r (run (seqs t) k) s.
Proof. intros r [|r' t] k s; reflexivity. Qed.

Lemma prevAfter_cons : forall prev x l,
  prevAfter (Some x) l = prevAfter prev (x :: l).
Proof.
  intros. unfold prevAfter. cbn [rev].
  destruct (rev l) as [|c t]; reflexivity.
Qed.

(** A literal under the [i] flag reads exactly its own length, when the
    text ahead folds to the folded literal. *)
Lemma run_liti : forall p k prev l caps,
  run (seqs (map chri p)) k (MState prev l caps) =
    if startsWithL (foldL p) (foldL l)
    then k (MState (prevAfter prev (firstn (List.length p) l))
              (skipn (List.length p) l) caps)
    else None.
Proof.
  induction p as [|c p IH]; intros k prev l caps.
  - cbn. destruct l; reflexivity.
  - cbn [map]. rewrite run_seqs_cons. unfold chri at 1. cbn [run ms_rest ms_caps].
    destruct l as [|x l]; [reflexivity|].
    cbn [foldL map startsWithL List.length firstn skipn].
    rewrite (Ascii.eqb_sym (foldChar c) (foldChar x)).
    destruct (Ascii.eqb (foldChar x) (foldChar c)); cbn [andb]; [|reflexivity].
    rewrite IH. fold (foldL p) (foldL l).
    destruct (startsWithL (foldL p) (foldL l)); [|reflexivity].
    rewrite (prevAfter_cons prev). reflexivity.
Qed.

Lemma chars_length : forall s, List.length (chars s) = String.length s.
Proof.
  unfold chars. induction s as [|c s IH]; cbn; [reflexivity | f_equal; exact IH].
Qed.

Lemma matchHere_liti : forall s prev l,
  matchHere (liti s) prev l =
    if startsWithL (foldL (chars s)) (foldL l)
    then Some (MState (prevAfter prev (firstn (String.length s) l))
                 (skipn (String.length s) l) [])
    else None.
Proof.
  intros. unfold matchHere, liti. rewrite run_liti.
  rewrite chars_length. reflexivity.
Qed.

Lemma searchFrom_liti : forall s l prev pos,
  Server.isSome (searchFrom (liti s) prev l pos) = includesL (foldL (chars s)) (foldL l).
Proof.
  induction l as [|x t IH]; intros prev pos; cbn [searchFrom]; rewrite matchHere_liti.
  - cbn [foldL map includesL]. rewrite orb_false_r.
    destruct (startsWithL (foldL (chars s)) []); reflexivity.
  - cbn [foldL map includesL]. fold (foldL t).
    destruct (startsWithL (foldL (chars s)) (foldChar x :: foldL t)); [reflexivity|].
    cbn [orb]. apply IH.
Qed.

(** [test] of a literal under the [i] flag is a substring test on the
    folded text. *)
Lemma test_liti : forall s text,
  test (liti s) text = includesL (foldL (chars s)) (foldL (chars text)).
Proof.
  intros. unfold test, exec. rewrite <- (searchFrom_liti s (chars text) None 0).
  destruct (searchFrom (liti s) None (chars text) 0); reflexivity.
Qed.

Lemma in_allAscii : forall c, In c allAscii.
Proof.
  intros c. unfold allAscii. rewrite <- (ascii_nat_embedding c).
  apply in_map. apply in_seq. pose proof (nat_ascii_bounded c). lia.
Qed.

Lemma forall_ascii : forall f : ascii -> bool,
  forallb f allAscii = true -> forall c, f c = true.
Proof.
  intros f H c. rewrite forallb_forall in H. apply H. apply in_allAscii.
Qed.

Lemma lower_or_high : forall x,
  Ascii.eqb (lowerChar x) (foldChar x)
  || ((128 <=? code (lowerChar x)) && (128 <=? code (foldChar x))) = true.
Proof.
  apply forall_ascii. vm_compute. reflexivity.
Qed.

Lemma lower_vs_fold : forall c x,
  plainChar c = true ->
  Ascii.eqb c (lowerChar x) = Ascii.eqb (foldChar c) (foldChar x).
Proof.
  intros c x H. unfold plainChar in H. apply andb_prop in H. destruct H as [Hlow Hup].
  apply negb_true_iff in Hup. unfold foldChar at 1. rewrite Hup.
  pose proof (lower_or_high x) as E. apply orb_prop in E. destruct E as [E|E].
  - apply Ascii.eqb_eq in E. rewrite E. reflexivity.
  - apply andb_prop in E. destruct E as [E1 E2].
    apply Nat.leb_le in E1, E2. apply Nat.ltb_lt in Hlow.
    assert (N1 : Ascii.eqb c (lowerChar x) = false).
    { apply Ascii.eqb_neq. intros ->. lia. }
    assert (N2 : Ascii.eqb c (foldChar x) = false).
    { apply Ascii.eqb_neq. intros ->. lia. }
    rewrite N1, N2. reflexivity.
Qed.

Lemma startsWith_lower_fold : forall p l,
  forallb plainChar p = true ->
  startsWithL p (toLowerCaseL l) = startsWithL (foldL p) (foldL l).
Proof.
  induction p as [|c p IH]; intros l H; [reflexivity|].
  cbn [forallb] in H. apply andb_prop in H. destruct H as [Hc Hp].
  destruct l as [|x l]; [reflexivity|].
  cbn [toLowerCaseL foldL map startsWithL]. fold (toLowerCaseL l) (foldL p) (foldL l).
  rewrite (@lower_vs_fold c x Hc), (IH l Hp). reflexivity.
Qed.

Lemma includes_lower_fold : forall p l,
  forallb plainChar p = true ->
  includesL p (toLowerCaseL l) = includesL (foldL p) (foldL l).
Proof.
  intros p l H. induction l as [|x l IH].
  - destruct p; reflexivity.
  - cbn [includesL]. change (toLowerCaseL (x :: l)) with (lowerChar x :: toLowerCaseL l).
    change (foldL (x :: l)) with (foldChar x :: foldL l).
    cbn [includesL]. rewrite <- IH.
    change (lowerChar x :: toLowerCaseL l) with (toLowerCaseL (x :: l)).
    change (foldChar x :: foldL l) with (foldL (x :: l)).
    rewrite (startsWith_lower_fold p (x :: l) H). reflexivity.
Qed.

(** For a lower-case literal, the substring test on the lower-cased text
    and the [i]-flagged regex test agree. *)
Lemma includes_lower_test : forall text s,
  forallb plainChar (chars s) = true ->
  includes (toLowerCase text) s = test (liti s) text.
Proof.
  intros text s H. rewrite test_liti. unfold includes, toLowerCase.
  rewrite list_ascii_of_string_of_list_ascii. apply includes_lower_fold. exact H.
Qed.

End Literals.

(** ** The prompt analyzer as a list of detections *)

Section Analyzer.
Import Server.

Lemma pushDetected_shape : forall key config value acc,
  pushDetected key config value acc
  = (fst acc ++ [filterOf key config value], snd acc ++ aggregatesOf key config).
Proof.
  intros key config value [fs ags]. unfold pushDetected, filterOf, aggregatesOf.
  cbn [fst snd]. destruct (c_function config); [reflexivity|].
  rewrite app_nil_r. reflexivity.
Qed.

Lemma pattern_pushes : forall prompt key config ps acc,
  fold_left (fun acc pattern =>
               match exec pattern prompt with
               | Some m => pushDetected key config
                             (extractValueFromPrompt prompt (hd "" (c_synonyms config))
                                (Some (m_text m))) acc
               | None => acc
               end) ps acc
  = let vs := flat_map (fun pattern =>
                match exec pattern prompt with
                | Some m => [extractValueFromPrompt prompt
                               (hd "" (c_synonyms config)) (Some (m_text m))]
                | None => []
                end) ps in
    (fst acc ++ map (filterOf key config) vs,
     snd acc ++ flat_map (fun _ => aggregatesOf key config) vs).
Proof.
  induction ps as [|p ps IH]; intros acc; cbn [fold_left flat_map].
  - cbn. rewrite !app_nil_r. destruct acc; reflexivity.
  - rewrite IH. cbv zeta. destruct (exec p prompt) as [m|].
    + rewrite pushDetected_shape. cbn [fst snd app map flat_map].
      rewrite <- !app_assoc. reflexivity.
    + reflexivity.
Qed.

Lemma no_pattern_no_value : forall prompt (A : Type) (f : rmatch -> A) ps,
  existsb (fun pattern => isSome (exec pattern prompt)) ps = false ->
  flat_map (fun pattern => match exec pattern prompt with
                           | Some m => [f m]
                           | None => []
                           end) ps = [].
Proof.
  induction ps as [|p ps IH]; intros H; [reflexivity|].
  cbn [existsb flat_map] in H |- *. apply orb_false_elim in H. destruct H as [H1 H2].
  destruct (exec p prompt); [discriminate|]. apply IH. exact H2.
Qed.

(** The push loop of one concept, as a list of detections. *)
Lemma conceptStep_shape : forall prompt acc key config,
  conceptStep prompt acc (key, config)
  = (fst acc ++ map (filterOf key config) (detectedValues prompt config),
     snd acc ++ flat_map (fun _ => aggregatesOf key config) (detectedValues prompt config)).
Proof.
  intros. unfold conceptStep, detectedValues. fold (patternsOf config).
  rewrite pattern_pushes. cbv zeta.
  destruct (existsb _ (patternsOf config)) eqn:E; [reflexivity|].
  rewrite (no_pattern_no_value _ _ _ E). cbn [map flat_map]. rewrite !app_nil_r.
  destruct (find _ (c_synonyms config)) as [syn|].
  - rewrite pushDetected_shape. cbn [fst snd map flat_map].
    rewrite app_nil_r. reflexivity.
  - cbn. rewrite !app_nil_r. destruct acc; reflexivity.
Qed.

(** The whole column loop. *)
Lemma concepts_shape : forall prompt entries acc,
  fold_left (conceptStep prompt) entries acc
  = (fst acc ++ flat_map (fun e => map (filterOf (fst e) (snd e))
                                      (detectedValues prompt (snd e))) entries,
     snd acc ++ flat_map (fun e => flat_map (fun _ => aggregatesOf (fst e) (snd e))
                                      (detectedValues prompt (snd e))) entries).
Proof.
  induction entries as [|[key config] entries IH]; intros acc; cbn [fold_left flat_map].
  - rewrite !app_nil_r. destruct acc; reflexivity.
  - rewrite IH, conceptStep_shape. cbn [fst snd]. rewrite <- !app_assoc. reflexivity.
Qed.

Lemma count_detected : forall prompt,
  test (liti "count") prompt = true ->
  existsb isCount
    (snd (fold_left (conceptStep prompt) COLUMN_MAPPINGS ([], []))) = true.
Proof.
  intros prompt H. rewrite concepts_shape. cbn [snd app].
  change COLUMN_MAPPINGS with
    (firstn 4 COLUMN_MAPPINGS ++ nth 4 COLUMN_MAPPINGS noColumn :: skipn 5 COLUMN_MAPPINGS).
  rewrite flat_map_app. cbn [flat_map]. rewrite existsb_app, existsb_app.
  assert (E : exists v vs,
             detectedValues prompt (snd (nth 4 COLUMN_MAPPINGS noColumn)) = v :: vs).
  { unfold detectedValues, patternsOf.
    cbn [nth snd COLUMN_MAPPINGS c_patterns existsb flat_map].
    unfold test in H. destruct (exec (liti "count") prompt) as [m|]; [|discriminate].
    cbn [isSome orb app]. eexists; eexists; reflexivity. }
  destruct E as (v & vs & E). rewrite E. cbn [flat_map existsb app].
  unfold aggregatesOf at 1. cbn. apply orb_true_r.
Qed.

Lemma filter_flat_map : forall (A B : Type) (p : B -> bool) (f : A -> list B) (l : list A),
  filter p (flat_map f l) = flat_map (fun x => filter p (f x)) l.
Proof.
  induction l as [|x l IH]; [reflexivity|].
  cbn [flat_map]. rewrite filter_app, IH. reflexivity.
Qed.

Lemma filter_filterOf : forall key config vs,
  filter (fun f => negb (f_isAggregate f)) (map (filterOf key config) vs)
  = if isSome (c_function config) then [] else map (filterOf key config) vs.
Proof.
  intros. induction vs as [|v vs IH]; cbn [map filter].
  - destruct (isSome (c_function config)); reflexivity.
  - rewrite IH. cbn [filterOf f_isAggregate].
    destruct (isSome (c_function config)); reflexivity.
Qed.

Lemma Forall_flat_map_const : forall (A B : Type) (P : B -> Prop) (l : list B) (vs : list A),
  Forall P l -> Forall P (flat_map (fun _ => l) vs).
Proof.
  intros A B P l vs H. induction vs as [|v vs IH]; [constructor|].
  cbn [flat_map]. apply Forall_app. split; assumption.
Qed.

Lemma Forall_map_filterOf : forall (P : Filter -> Prop) key config vs,
  (forall v, P (filterOf key config v)) -> Forall P (map (filterOf key config) vs).
Proof.
  intros P key config vs H. induction vs; constructor; auto.
Qed.

Lemma Forall_flat_map_all : forall (A B : Type) (P : B -> Prop) (f : A -> list B) (l : list A),
  Forall (fun x => Forall P (f x)) l -> Forall P (flat_map f l).
Proof.
  intros A B P f l H. induction H; [constructor|].
  cbn [flat_map]. apply Forall_app. split; assumption.
Qed.

(** The aggregates are those of the column loop: the special handling of
    "count" finds a COUNT already there whenever the prompt holds "count". *)
Lemma aggregates_shape : forall prompt,
  r_aggregates (analyzeUserPrompt prompt)
  = flat_map (fun e => flat_map (fun _ => aggregatesOf (fst e) (snd e))
                         (detectedValues prompt (snd e))) COLUMN_MAPPINGS.
Proof.
  intros prompt. unfold analyzeUserPrompt.
  pose proof (count_detected prompt) as Hc.
  rewrite concepts_shape in *. cbn [fst snd app] in *.
  cbn [r_aggregates].
  destruct (includes (toLowerCase prompt) "count") eqn:Ei; [|reflexivity].
  rewrite includes_lower_test in Ei by reflexivity.
  unfold isCount in Hc. rewrite (Hc Ei). reflexivity.
Qed.

Lemma filters_shape : forall prompt,
  r_filters (analyzeUserPrompt prompt)
  = flat_map (fun e => if isSome (c_function (snd e)) then []
                       else map (filterOf (fst e) (snd e))
                              (detectedValues prompt (snd e))) COLUMN_MAPPINGS.
Proof.
  intros prompt. unfold analyzeUserPrompt.
  rewrite concepts_shape. cbn [fst snd app]. cbn [r_filters].
  rewrite filter_flat_map. apply flat_map_ext. intros [key config].
  apply filter_filterOf.
Qed.

(** X8: [analyzeUserPrompt] returns, as aggregates, one entry per value
    detected for an aggregating concept of [COLUMN_MAPPINGS], in mapping
    order, and as filters one entry per value detected for a concept that
    does not aggregate.  In particular the special handling of "count"
    after the loop never adds an aggregate: a prompt that holds "count"
    has had its COUNT pushed by the loop. *)
Theorem analysis_is_the_detections : forall prompt,
  r_aggregates (analyzeUserPrompt prompt)
  = flat_map (fun e => flat_map (fun _ => aggregatesOf (fst e) (snd e))
                         (detectedValues prompt (snd e))) COLUMN_MAPPINGS
  /\ r_filters (analyzeUserPrompt prompt)
     = flat_map (fun e => if isSome (c_function (snd e)) then []
                          else map (filterOf (fst e) (snd e))
                                 (detectedValues prompt (snd e))) COLUMN_MAPPINGS
  /\ (includes (toLowerCase prompt) "count" = true ->
      existsb isCount
        (snd (fold_left (conceptStep prompt) COLUMN_MAPPINGS ([], []))) = true).
Proof.
  intros prompt. split; [apply aggregates_shape|]. split; [apply filters_shape|].
  intros Ei. apply count_detected.
  rewrite includes_lower_test in Ei by reflexivity. exact Ei.
Qed.

(** X9: [analyzeUserPrompt] never invents a column: every aggregate it
    returns is one of the four aggregating concepts with its own function
    and alias, and every filter is a concept that does not aggregate, on
    its own column. *)
Theorem analysis_stays_in_the_mapping : forall prompt,
  Forall (fun a => In (a_column a, a_function a, a_alias a) aggregateTriples)
    (r_aggregates (analyzeUserPrompt prompt))
  /\ Forall (fun f => In (f_concept f, f_column f) filterPairs
                      /\ f_isAggregate f = false)
       (r_filters (analyzeUserPrompt prompt)).
Proof.
  intros prompt. rewrite aggregates_shape, filters_shape. split.
  - apply Forall_flat_map_all. unfold COLUMN_MAPPINGS.
    repeat (constructor; [apply Forall_flat_map_const; cbn [fst snd];
                          vm_compute; repeat constructor; tauto|]).
    constructor.
  - apply Forall_flat_map_all. unfold COLUMN_MAPPINGS.
    repeat (constructor;
            [cbn [fst snd c_function isSome];
             first [ constructor
                   | apply Forall_map_filterOf; intros v; vm_compute; tauto ]|]).
    constructor.
Qed.

End Analyzer.

(** ** A rule of the time-range detection that is never applied *)

Section TimeRules.
Import Server.

Lemma startsWithL_skip : forall a b l,
  startsWithL (a ++ b) l = true -> startsWithL b (skipn (List.length a) l) = true.
Proof.
  induction a as [|c a IH]; intros b l H; [exact H|].
  destruct l as [|x l]; [discriminate|].
  cbn [app startsWithL] in H. apply andb_prop in H. destruct H as [_ H].
  cbn [List.length skipn]. apply IH. exact H.
Qed.

Lemma includesL_skipn : forall p n l,
  includesL p (skipn n l) = true -> includesL p l = true.
Proof.
  induction n as [|n IH]; intros l H; [exact H|].
  destruct l as [|x l]; [exact H|].
  cbn [skipn] in H. cbn [includesL]. rewrite (IH l H). apply orb_true_r.
Qed.

Lemma includesL_here : forall p l, startsWithL p l = true -> includesL p l = true.
Proof. intros p l H. destruct l; cbn [includesL]; rewrite H; reflexivity. Qed.

Lemma includesL_drop_prefix : forall a b l,
  includesL (a ++ b) l = true -> includesL b l = true.
Proof.
  induction l as [|x l IH]; intros H; cbn [includesL] in H.
  - rewrite orb_false_r in H. apply startsWithL_skip in H.
    apply includesL_here in H. apply includesL_skipn in H. exact H.
  - apply orb_prop in H. destruct H as [H|H].
    + apply startsWithL_skip in H. apply includesL_here in H.
      apply includesL_skipn in H. exact H.
    + cbn [includesL]. rewrite (IH H). apply orb_true_r.
Qed.

(** A text that holds "day before yesterday" holds "yesterday". *)
Lemma yesterday_first : forall prompt,
  test (liti "day before yesterday") prompt = true ->
  test (liti "yesterday") prompt = true.
Proof.
  intros prompt H. rewrite test_liti in *.
  change (foldL (chars "day before yesterday"))
    with (foldL (chars "day before ") ++ foldL (chars "yesterday")) in H.
  apply includesL_drop_prefix in H. exact H.
Qed.

Lemma firstRule_cons : forall p t prompt,
  firstRule (p :: t) prompt
  = match exec (regex_ p) prompt with
    | Some m => Some (p, m)
    | None => firstRule t prompt
    end.
Proof. reflexivity. Qed.

(** X10: the rule of [detectTimeRangeEnhanced] for the day before
    yesterday is never the one applied, since every prompt it matches is
    taken by the rule for yesterday, which stands before it: no prompt is
    given the condition on the date two days ago. *)
Theorem day_before_yesterday_unreachable : forall prompt,
  timeRangeVariant prompt <> Some "day_before_yesterday"
  /\ forall timeRange, detectTimeRangeEnhanced prompt = Some timeRange ->
       sqlCondition timeRange <> twoDaysAgo.
Proof.
  intros prompt. unfold timeRangeVariant, detectTimeRangeEnhanced, patterns.
  do 10 (lazymatch goal with
         | |- context [firstRule (?p :: ?t) prompt] =>
             rewrite (firstRule_cons p t prompt);
             destruct (exec (regex_ p) prompt) eqn:?;
             [split; [cbn [type]; discriminate | other_rule] |]
         end).
  rewrite firstRule_cons; cbn [regex_].
  destruct (exec (liti "yesterday") prompt) eqn:Ey;
    [split; [cbn [type]; discriminate | other_rule]|].
  rewrite firstRule_cons; cbn [regex_].
  destruct (exec (liti "day before yesterday") prompt) eqn:Ed.
  - exfalso. assert (T : test (liti "day before yesterday") prompt = true)
      by (unfold test; rewrite Ed; reflexivity).
    apply yesterday_first in T. unfold test in T. rewrite Ey in T. discriminate.
  - do 5 (lazymatch goal with
          | |- context [firstRule (?p :: ?t) prompt] =>
              rewrite (firstRule_cons p t prompt);
              destruct (exec (regex_ p) prompt) eqn:?;
              [split; [cbn [type]; discriminate | other_rule] |]
          end).
    split; [discriminate | intros ? H; discriminate H].
Qed.

End TimeRules.

(** ** The guardrails: what they accept and what they return *)

Section GuardrailShape.
Import Server.

Lemma isSafeSelect_lowered : forall sqlText,
  isSafeSelect sqlText = safeLowered (toLowerCase (trim sqlText)).
Proof.
  intros. unfold isSafeSelect. fold (safeLowered (toLowerCase (trim sqlText))).
  destruct (truthy sqlText) eqn:E; [reflexivity|].
  unfold truthy in E. apply negb_false_iff in E. apply String.eqb_eq in E. subst.
  reflexivity.
Qed.

Lemma isSpace_lower : forall x, isSpace (lowerChar x) = isSpace x.
Proof.
  intros x.
  assert (A : forallb (fun x => Bool.eqb (isSpace (lowerChar x)) (isSpace x)) allAscii = true)
    by (vm_compute; reflexivity).
  apply Bool.eqb_prop. exact (forall_ascii _ A x).
Qed.

Lemma lowerChar_idem : forall x, lowerChar (lowerChar x) = lowerChar x.
Proof.
  intros x.
  assert (A : forallb (fun x => Ascii.eqb (lowerChar (lowerChar x)) (lowerChar x)) allAscii = true)
    by (vm_compute; reflexivity).
  apply Ascii.eqb_eq. exact (forall_ascii _ A x).
Qed.

Lemma dropWhile_lower : forall l,
  dropWhile isSpace (toLowerCaseL l) = toLowerCaseL (dropWhile isSpace l).
Proof.
  induction l as [|x l IH]; [reflexivity|].
  cbn [toLowerCaseL map dropWhile]. rewrite isSpace_lower.
  destruct (isSpace x); [exact IH | reflexivity].
Qed.

Lemma trimL_lower : forall l, trimL (toLowerCaseL l) = toLowerCaseL (trimL l).
Proof.
  intros. unfold trimL, trimStartL, trimEndL. rewrite dropWhile_lower.
  unfold toLowerCaseL at 1. rewrite <- map_rev.
  change (map lowerChar ?l) with (toLowerCaseL l). rewrite dropWhile_lower.
  unfold toLowerCaseL. rewrite map_rev. reflexivity.
Qed.

Lemma toLowerCaseL_idem : forall l, toLowerCaseL (toLowerCaseL l) = toLowerCaseL l.
Proof.
  intros. unfold toLowerCaseL. rewrite map_map. apply map_ext. apply lowerChar_idem.
Qed.

Lemma lowered_of_lower : forall s,
  toLowerCase (trim (toLowerCase s)) = toLowerCase (trim s).
Proof.
  intros. unfold toLowerCase, trim. rewrite !list_ascii_of_string_of_list_ascii.
  unfold chars. rewrite trimL_lower, toLowerCaseL_idem. reflexivity.
Qed.

Lemma lowered_of_trim : forall s,
  toLowerCase (trim (trim s)) = toLowerCase (trim s).
Proof. intros. rewrite trim_idem. reflexivity. Qed.

(** X2: [isSafeSelect] does not tell letter case or surrounding white
    space: it gives the same verdict on a text, on the text in lower case
    and on the trimmed text. *)
Theorem isSafeSelect_ignores_case_and_margins : forall sqlText,
  isSafeSelect (toLowerCase sqlText) = isSafeSelect sqlText
  /\ isSafeSelect (trim sqlText) = isSafeSelect sqlText.
Proof.
  intros. rewrite !isSafeSelect_lowered, lowered_of_lower, lowered_of_trim.
  split; reflexivity.
Qed.

(** X1: a text accepted by [isSafeSelect] is not empty, holds at most one
    semicolon, which then ends the trimmed text, opens (trimmed and in
    lower case) with select or with, and holds none of the forbidden
    keywords followed by a space. *)
Theorem isSafeSelect_accepts_only : forall sqlText,
  isSafeSelect sqlText = true ->
  let lowered := toLowerCase (trim sqlText) in
  let n := count_occ ascii_dec (chars sqlText) ";"%char in
  sqlText <> ""
  /\ n <= 1
  /\ (n = 1 -> endsWith (trim sqlText) ";" = true)
  /\ (startsWith lowered "select" = true \/ startsWith lowered "with" = true)
  /\ (forall kw, In kw forbidden -> includes lowered kw = false).
Proof.
  intros sqlText H lowered n. rewrite isSafeSelect_by_count in H.
  fold lowered in H. change (countSemi (chars sqlText)) with n in H.
  destruct (truthy sqlText) eqn:Ht; [|discriminate]. cbn [negb] in H.
  destruct ((1 <? n) || ((n =? 1) && negb (endsWith (trim sqlText) ";"))) eqn:E1;
    [discriminate|].
  destruct (startsWith lowered "select" || startsWith lowered "with") eqn:E2;
    [|discriminate]. cbn [negb] in H.
  destruct (existsb (fun kw => includes lowered kw) forbidden) eqn:E3; [discriminate|].
  apply orb_false_elim in E1. destruct E1 as [E1a E1b].
  apply Nat.ltb_ge in E1a.
  split; [intros ->; discriminate|]. split; [exact E1a|]. split; [|split].
  - intros Hn. rewrite Hn in E1b. cbn [Nat.eqb andb] in E1b.
    apply negb_false_iff in E1b. exact E1b.
  - apply orb_prop in E2. exact E2.
  - intros kw Hkw. destruct (includes lowered kw) eqn:Ei; [|reflexivity].
    assert (X : existsb (fun kw => includes lowered kw) forbidden = true)
      by (apply existsb_exists; exists kw; split; assumption).
    rewrite X in E3. discriminate.
Qed.

Lemma isSafeSelect_accepts_only_witness :
  isSafeSelect "SELECT COUNT(*) FROM SalesReport_Form_Input;" = true
  /\ count_occ ascii_dec (chars "SELECT COUNT(*) FROM SalesReport_Form_Input;")
       ";"%char <= 1
  /\ endsWith (trim "SELECT COUNT(*) FROM SalesReport_Form_Input;") ";" = true.
Proof.
  split; [reflexivity|].
  destruct (@isSafeSelect_accepts_only
              "SELECT COUNT(*) FROM SalesReport_Form_Input;" eq_refl)
    as (_ & H1 & H2 & _).
  split; [exact H1 | apply H2; reflexivity].
Defined.

(** What [validateAndCleanSql] returns: the fallback, or the cleaned text
    when that opens with SELECT or WITH and holds no dangerous keyword. *)
Lemma validateAndCleanSql_cases : forall sql expectedTable,
  validateAndCleanSql sql expectedTable = FALLBACK
  \/ exists s,
       sql = Some s
       /\ validateAndCleanSql sql expectedTable = clean s
       /\ (startsWith (toUpperCase (clean s)) "SELECT" = true
           \/ startsWith (toUpperCase (clean s)) "WITH" = true)
       /\ existsb (fun keyword => includes (toUpperCase (clean s))
                                    (" " ++ keyword ++ " ")%string)
            dangerousKeywords = false.
Proof.
  intros sql t. destruct sql as [s|]; [|left; reflexivity].
  rewrite validateAndCleanSql_some.
  destruct (negb (truthy s)); [left; reflexivity|].
  destruct (negb (startsWith (toUpperCase (clean s)) "SELECT")
            && negb (startsWith (toUpperCase (clean s)) "WITH")) eqn:E1;
    [left; reflexivity|].
  destruct (existsb _ dangerousKeywords) eqn:E2; [left; reflexivity|].
  right. exists s. split; [reflexivity|]. split; [reflexivity|]. split; [|exact E2].
  apply andb_false_iff in E1. destruct E1 as [E1|E1]; apply negb_false_iff in E1; auto.
Qed.

Lemma validateAndCleanSql_nonempty : forall sql expectedTable,
  validateAndCleanSql sql expectedTable <> "".
Proof.
  intros sql t. destruct (validateAndCleanSql_cases sql t) as [->|(s & _ & -> & Hs & _)];
    [discriminate|].
  intros E. rewrite E in Hs. destruct Hs as [Hs|Hs]; vm_compute in Hs; discriminate.
Qed.

Lemma validateAndCleanSql_fence_free : forall sql expectedTable,
  hasFence (chars (validateAndCleanSql sql expectedTable)) = false.
Proof.
  intros sql t. destruct (validateAndCleanSql_cases sql t) as [->|(s & _ & -> & _)];
    [reflexivity|].
  rewrite clean_chars. apply trimL_no_fence, strip_no_fence.
Qed.

Lemma validateAndCleanSql_opens : forall sql expectedTable,
  startsWith (toUpperCase (validateAndCleanSql sql expectedTable)) "SELECT" = true
  \/ startsWith (toUpperCase (validateAndCleanSql sql expectedTable)) "WITH" = true.
Proof.
  intros sql t. destruct (validateAndCleanSql_cases sql t) as [->|(s & _ & -> & Hs & _)];
    [left; reflexivity | exact Hs].
Qed.

(** X3: whatever it is given, [validateAndCleanSql] returns a statement
    that is not empty, is trimmed, holds no markdown fence, opens in upper
    case with SELECT or WITH, and holds none of the dangerous keywords
    between two spaces. *)
Theorem validateAndCleanSql_result : forall sql expectedTable,
  let r := validateAndCleanSql sql expectedTable in
  r <> ""
  /\ trim r = r
  /\ hasFence (chars r) = false
  /\ (startsWith (toUpperCase r) "SELECT" = true \/ startsWith (toUpperCase r) "WITH" = true)
  /\ (forall keyword, In keyword dangerousKeywords ->
        includes (toUpperCase r) (" " ++ keyword ++ " ") = false).
Proof.
  intros sql t r. subst r.
  split; [apply validateAndCleanSql_nonempty|].
  split; [|split; [apply validateAndCleanSql_fence_free|
                   split; [apply validateAndCleanSql_opens|]]].
  - destruct (validateAndCleanSql_cases sql t) as [->|(s & _ & -> & _)];
      [reflexivity|]. unfold clean. apply trim_idem.
  - destruct (validateAndCleanSql_cases sql t) as [->|(s & _ & -> & _ & E2)].
    + intros keyword Hk. cbn in Hk.
      repeat (destruct Hk as [<-|Hk]; [vm_compute; reflexivity|]). destruct Hk.
    + intros keyword Hk.
      destruct (includes (toUpperCase (clean s)) (" " ++ keyword ++ " ")) eqn:Ei;
        [|reflexivity].
      assert (X : existsb (fun keyword => includes (toUpperCase (clean s))
                             (" " ++ keyword ++ " ")%string) dangerousKeywords = true)
        by (apply existsb_exists; exists keyword; split; assumption).
      rewrite X in E2. discriminate.
Qed.

End GuardrailShape.

(** ** The matcher: where a match ends, and matches under extension *)

Section Engine.

Lemma later_refl : forall s, later s s.
Proof. intros s. exists []. split; reflexivity. Qed.

Lemma prevAfter_app : forall prev a b,
  prevAfter (prevAfter prev a) b = prevAfter prev (a ++ b).
Proof.
  intros. unfold prevAfter. rewrite rev_app_distr.
  destruct (rev b) as [|c t]; [reflexivity|]. reflexivity.
Qed.

Lemma later_trans : forall a b c, later a b -> later b c -> later a c.
Proof.
  intros a b c (p & Hp & Hq) (p' & Hp' & Hq'). exists (p ++ p').
  rewrite <- app_assoc, <- Hp'. split; [exact Hp|].
  rewrite Hq', Hq. apply prevAfter_app.
Qed.

Lemma starLoop_later : forall body,
  (forall k s m, body k s = Some m -> exists s', later s s' /\ k s' = Some m) ->
  forall fuel k s m,
    starLoop fuel body k s = Some m -> exists s', later s s' /\ k s' = Some m.
Proof.
  intros body Hb. induction fuel as [|f IH]; intros k s m H.
  - exists s. split; [apply later_refl | exact H].
  - cbn [starLoop] in H.
    destruct (body (fun s' => if List.length (ms_rest s') <? List.length (ms_rest s)
                              then starLoop f body k s' else None) s) as [r|] eqn:E.
    + inversion H; subst r. apply Hb in E. destruct E as (s1 & L1 & E1).
      destruct (List.length (ms_rest s1) <? List.length (ms_rest s)); [|discriminate].
      apply IH in E1. destruct E1 as (s2 & L2 & E2).
      exists s2. split; [eapply later_trans; eassumption | exact E2].
    + exists s. split; [apply later_refl | exact H].
Qed.

(** Whatever a match returns was returned by its continuation, called at a
    position at or after the start. *)
Lemma run_later : forall r k s m,
  run r k s = Some m -> exists s', later s s' /\ k s' = Some m.
Proof.
  induction r as [|p|a IHa b IHb|a IHa b IHb|a IHa|n a IHa| | |]; intros k s m H;
    cbn [run] in H.
  - exists s. split; [apply later_refl | exact H].
  - destruct s as [prev rest caps]. cbn [ms_rest ms_caps] in H.
    destruct rest as [|c t]; [discriminate|].
    destruct (p c); [|discriminate].
    eexists. split; [|exact H]. exists [c]. split; reflexivity.
  - apply IHa in H. destruct H as (s1 & L1 & H). apply IHb in H.
    destruct H as (s2 & L2 & H). exists s2. split; [eapply later_trans; eassumption|exact H].
  - destruct (run a k s) as [x|] eqn:E.
    + inversion H; subst x. apply IHa. exact E.
    + apply IHb. exact H.
  - eapply starLoop_later; [|exact H]. intros; apply IHa; assumption.
  - apply IHa in H. destruct H as (s1 & (p & Hp & Hq) & H).
    eexists. split; [|exact H]. exists p. split; assumption.
  - destruct (xorb _ _); [|discriminate]. exists s. split; [apply later_refl | exact H].
  - destruct (ms_prev s); [discriminate|]. exists s. split; [apply later_refl | exact H].
  - destruct (ms_rest s) eqn:E; [|discriminate]. exists s. split; [apply later_refl | exact H].
Qed.

Lemma matchHere_later : forall r prev rest m,
  matchHere r prev rest = Some m ->
  exists pre, rest = pre ++ ms_rest m /\ ms_prev m = prevAfter prev pre.
Proof.
  intros r prev rest m H. apply run_later in H.
  destruct H as (s' & (p & Hp & Hq) & H). inversion H; subst s'.
  exists p. split; assumption.
Qed.

Lemma hd_app_nonword : forall (l v : list ascii),
  isWordOpt (hd_error v) = false ->
  isWordOpt (hd_error (l ++ v)) = isWordOpt (hd_error l).
Proof. intros [|x l] v H; [exact H | reflexivity]. Qed.

(** A match of a [simple] regex is still there when the text goes on with
    something that does not start with a word character. *)
Lemma run_extends : forall v, isWordOpt (hd_error v) = false ->
  forall r, simple r = true ->
  forall k k',
    (forall s s', extended v s s' -> k s <> None -> k' s' <> None) ->
    forall s s', extended v s s' -> run r k s <> None -> run r k' s' <> None.
Proof.
  intros v Hv.
  induction r as [|p|a IHa b IHb|a IHa b IHb|a IHa|n a IHa| | |]; intros Hs k k' Hk s s' R H;
    cbn [simple] in Hs; try discriminate; cbn [run] in *.
  - eapply Hk; eassumption.
  - destruct R as [Rp Rr]. rewrite Rr.
    destruct (ms_rest s) as [|c t]; [congruence|]. cbn [app].
    destruct (p c); [|congruence].
    eapply Hk; [|exact H]. split; reflexivity.
  - apply andb_prop in Hs. destruct Hs as [Ha Hb].
    eapply (IHa Ha); [|exact R|exact H].
    intros s1 s1' R1 H1. eapply (IHb Hb); eassumption.
  - apply andb_prop in Hs. destruct Hs as [Ha Hb].
    destruct (run a k s) eqn:E.
    + assert (X : run a k' s' <> None) by (eapply (IHa Ha); try eassumption; congruence).
      destruct (run a k' s'); congruence.
    + assert (X : run b k' s' <> None) by (eapply (IHb Hb); eassumption).
      destruct (run a k' s'); [congruence | exact X].
  - eapply (IHa Hs); [|exact R|exact H].
    intros s1 s1' [R1 R2] H1. eapply Hk; [|exact H1]. split; assumption.
  - pose proof R as [Rp Rr]. rewrite Rp, Rr, (@hd_app_nonword _ _ Hv).
    destruct (xorb _ _); [|congruence]. eapply Hk; eassumption.
  - pose proof R as [Rp Rr]. rewrite Rp. destruct (ms_prev s) eqn:E; [congruence|].
    eapply Hk; eassumption.
Qed.

(** The converse, when moreover no character class of the regex accepts
    the first character of what follows. *)
Lemma run_restricts : forall v, isWordOpt (hd_error v) = false ->
  forall r, simple r = true ->
  (forall c, hd_error v = Some c -> refuses r c = true) ->
  forall k k',
    (forall s s', extended v s s' -> k' s' <> None -> k s <> None) ->
    forall s s', extended v s s' -> run r k' s' <> None -> run r k s <> None.
Proof.
  intros v Hv.
  induction r as [|p|a IHa b IHb|a IHa b IHb|a IHa|n a IHa| | |];
    intros Hs Hr k k' Hk s s' R H;
    cbn [simple] in Hs; try discriminate; cbn [run] in *.
  - eapply Hk; eassumption.
  - destruct R as [Rp Rr]. rewrite Rr in H.
    destruct (ms_rest s) as [|c t].
    + cbn [app] in H. destruct v as [|c t]; [congruence|].
      specialize (Hr c eq_refl). cbn [refuses] in Hr. apply negb_true_iff in Hr.
      rewrite Hr in H. congruence.
    + cbn [app] in H. destruct (p c); [|congruence].
      eapply Hk; [|exact H]. split; reflexivity.
  - apply andb_prop in Hs. destruct Hs as [Ha Hb].
    assert (Hra : forall c, hd_error v = Some c -> refuses a c = true)
      by (intros c Hc; specialize (Hr c Hc); cbn [refuses] in Hr;
          apply andb_prop in Hr; tauto).
    assert (Hrb : forall c, hd_error v = Some c -> refuses b c = true)
      by (intros c Hc; specialize (Hr c Hc); cbn [refuses] in Hr;
          apply andb_prop in Hr; tauto).
    eapply (IHa Ha Hra); [|exact R|exact H].
    intros s1 s1' R1 H1. eapply (IHb Hb Hrb); eassumption.
  - apply andb_prop in Hs. destruct Hs as [Ha Hb].
    assert (Hra : forall c, hd_error v = Some c -> refuses a c = true)
      by (intros c Hc; specialize (Hr c Hc); cbn [refuses] in Hr;
          apply andb_prop in Hr; tauto).
    assert (Hrb : forall c, hd_error v = Some c -> refuses b c = true)
      by (intros c Hc; specialize (Hr c Hc); cbn [refuses] in Hr;
          apply andb_prop in Hr; tauto).
    destruct (run a k' s') eqn:E.
    + assert (X : run a k s <> None) by (eapply (IHa Ha Hra); try eassumption; congruence).
      destruct (run a k s); congruence.
    + assert (X : run b k s <> None) by (eapply (IHb Hb Hrb); eassumption).
      destruct (run a k s); [congruence | exact X].
  - eapply (IHa Hs Hr); [|exact R|exact H].
    intros s1 s1' [R1 R2] H1. eapply Hk; [|exact H1]. split; assumption.
  - pose proof R as [Rp Rr]. rewrite Rp, Rr, (@hd_app_nonword _ _ Hv) in H.
    destruct (xorb _ _); [|congruence]. eapply Hk; eassumption.
  - pose proof R as [Rp Rr]. rewrite Rp in H. destruct (ms_prev s) eqn:E; [congruence|].
    eapply Hk; eassumption.
Qed.

Lemma matchHere_extends : forall v r prev l,
  isWordOpt (hd_error v) = false -> simple r = true ->
  matchHere r prev l <> None -> matchHere r prev (l ++ v) <> None.
Proof.
  intros v r prev l Hv Hs H. unfold matchHere in *.
  eapply (run_extends Hv r Hs); [| |exact H].
  - intros; discriminate.
  - split; reflexivity.
Qed.

Lemma searchFrom_here : forall r prev l pos,
  matchHere r prev l <> None -> searchFrom r prev l pos <> None.
Proof.
  intros r prev l pos H. destruct l; cbn [searchFrom];
    destruct (matchHere r prev _); congruence.
Qed.

Lemma searchFrom_extends : forall v r,
  isWordOpt (hd_error v) = false -> simple r = true ->
  forall l prev pos,
    searchFrom r prev l pos <> None -> searchFrom r prev (l ++ v) pos <> None.
Proof.
  intros v r Hv Hs. induction l as [|c t IH]; intros prev pos H.
  - cbn [searchFrom] in H. destruct (matchHere r prev []) eqn:E; [|congruence].
    assert (X : matchHere r prev ([] ++ v) <> None)
      by (apply matchHere_extends; try assumption; congruence).
    apply searchFrom_here. exact X.
  - cbn [searchFrom app] in *. destruct (matchHere r prev (c :: t)) eqn:E.
    + assert (X : matchHere r prev ((c :: t) ++ v) <> None)
        by (apply matchHere_extends; try assumption; congruence).
      cbn [app] in X. destruct (matchHere r prev (c :: t ++ v)); congruence.
    + destruct (matchHere r prev (c :: t ++ v)); [congruence|]. apply IH. exact H.
Qed.

(** A [simple] regex found in a text is found in the text followed by
    something that does not start with a word character. *)
Lemma test_extends : forall r u v,
  simple r = true -> isWordOpt (hd_error (chars v)) = false ->
  test r (u ++ v)%string = false -> test r u = false.
Proof.
  intros r u v Hs Hv H. unfold test, exec in *. rewrite chars_append in H.
  destruct (searchFrom r None (chars u) 0) eqn:E; [|reflexivity].
  assert (X : searchFrom r None (chars u ++ chars v) 0 <> None)
    by (apply searchFrom_extends; try assumption; congruence).
  destruct (searchFrom r None (chars u ++ chars v) 0); congruence.
Qed.

End Engine.

(** ** The statement the generator returns *)

Section Sanitized.
Import SQLGenerator.

Lemma run_seq : forall a b k s, run (Seq a b) k s = run a (run b k) s.
Proof. reflexivity. Qed.

(** A match of [trailingSemicolons] reaches the end of the text. *)
Lemma trailing_to_end : forall prev l m,
  matchHere trailingSemicolons prev l = Some m -> ms_rest m = [].
Proof.
  intros prev l m H. unfold matchHere, trailingSemicolons in H. cbn [seqs] in H.
  rewrite run_seq in H. apply run_later in H. destruct H as (s1 & _ & H).
  rewrite run_seq in H. apply run_later in H. destruct H as (s2 & _ & H).
  rewrite run_seq in H. apply run_later in H. destruct H as (s3 & _ & H).
  cbn [run] in H. destruct (ms_rest s3) eqn:E; [|discriminate].
  inversion H; subst. exact E.
Qed.

Lemma trailing_nil : forall prev, matchHere trailingSemicolons prev [] = None.
Proof. reflexivity. Qed.

Lemma trailing_scan_nil : forall fuel prev,
  scan trailingSemicolons (fun _ acc => [] ++ acc) (fun c acc => c :: acc) []
    fuel prev [] = [].
Proof. intros [|f] prev; reflexivity. Qed.

Lemma trailing_head : forall prev c t m,
  matchHere trailingSemicolons prev (c :: t) = Some m -> spaceOrSemi c = true.
Proof.
  intros prev c t m H. unfold spaceOrSemi.
  destruct (isSpace c) eqn:Es; [reflexivity|]. cbn [orb].
  destruct (Ascii.eqb ";"%char c) eqn:Ec; [reflexivity|].
  rewrite (@trailing_miss prev c t Es Ec) in H. discriminate.
Qed.

(** Removing the trailing semicolons keeps a prefix of the text, and what
    is cut off starts with white space or a semicolon. *)
Lemma trailing_cut : forall l fuel prev,
  List.length l < fuel ->
  exists v,
    l = scan trailingSemicolons (fun _ acc => [] ++ acc) (fun c acc => c :: acc) []
          fuel prev l ++ v
    /\ forall c, hd_error v = Some c -> spaceOrSemi c = true.
Proof.
  induction l as [|c t IH]; intros fuel prev Hf.
  - exists []. rewrite trailing_scan_nil. split; [reflexivity | discriminate].
  - destruct fuel as [|f]; [lia|]. cbn [scan].
    destruct (matchHere trailingSemicolons prev (c :: t)) as [m|] eqn:E.
    + rewrite (trailing_to_end _ _ E). cbn [List.length Nat.sub Nat.ltb Nat.leb].
      rewrite trailing_scan_nil. exists (c :: t). split; [reflexivity|].
      intros c' Hc. inversion Hc; subst. eapply trailing_head; exact E.
    + cbn [List.length] in Hf. destruct (IH f (Some c)) as (v & Hv & Hh); [lia|].
      exists v. split; [|exact Hh]. cbn [app]. f_equal. exact Hv.
Qed.

Lemma spaceOrSemi_nonword : forall c, spaceOrSemi c = true -> isWordChar c = false.
Proof.
  intros c.
  assert (A : forallb (fun c => implb (spaceOrSemi c) (negb (isWordChar c))) allAscii = true)
    by (vm_compute; reflexivity).
  pose proof (forall_ascii _ A c) as X. cbn beta in X. intros H. rewrite H in X. cbn in X.
  apply negb_true_iff in X. exact X.
Qed.

Lemma spaceOrSemi_refused : forall c,
  spaceOrSemi c = true -> refuses startsSelectOrWith c = true.
Proof.
  intros c.
  assert (A : forallb (fun c => implb (spaceOrSemi c) (refuses startsSelectOrWith c))
                allAscii = true)
    by (vm_compute; reflexivity).
  pose proof (forall_ascii _ A c) as X. cbn beta in X. intros H. rewrite H in X. exact X.
Qed.

Lemma dropWhile_split : forall p l,
  exists w, l = w ++ dropWhile p l /\ forallb p w = true.
Proof.
  intros p. induction l as [|x t IH].
  - exists []. split; reflexivity.
  - cbn [dropWhile]. destruct (p x) eqn:E.
    + destruct IH as (w & Hw & Hp). exists (x :: w). cbn [app forallb].
      rewrite E, Hp. split; [f_equal; exact Hw | reflexivity].
    + exists []. split; reflexivity.
Qed.

(** Trimming a text that starts with no white space cuts only white space
    off its end. *)
Lemma trimL_cut : forall x t,
  isSpace x = false ->
  exists w, x :: t = trimL (x :: t) ++ w /\ forallb isSpace w = true.
Proof.
  intros x t Hx. unfold trimL, trimStartL, trimEndL. cbn [dropWhile]. rewrite Hx.
  destruct (dropWhile_split isSpace (rev (x :: t))) as (w & Hw & Hp).
  exists (rev w). split.
  - rewrite <- rev_app_distr, <- Hw, rev_involutive. reflexivity.
  - rewrite forallb_forall in *. intros y Hy. apply Hp. apply in_rev. exact Hy.
Qed.

Lemma head_of_cut : forall w v,
  forallb isSpace w = true ->
  (forall c, hd_error v = Some c -> spaceOrSemi c = true) ->
  forall c, hd_error (w ++ v) = Some c -> spaceOrSemi c = true.
Proof.
  intros [|y w] v Hw Hv c Hc; [apply Hv; exact Hc|].
  cbn in Hc. inversion Hc; subst. cbn [forallb] in Hw. apply andb_prop in Hw.
  unfold spaceOrSemi. destruct Hw as [-> _]. reflexivity.
Qed.

Lemma nonword_head : forall v,
  (forall c, hd_error v = Some c -> spaceOrSemi c = true) ->
  isWordOpt (hd_error v) = false.
Proof.
  intros [|c v] H; [reflexivity|]. cbn. apply spaceOrSemi_nonword. apply H. reflexivity.
Qed.

Lemma existsb_test_extends : forall u v ps,
  forallb simple ps = true -> isWordOpt (hd_error (chars v)) = false ->
  existsb (fun p => test p (u ++ v)%string) ps = false ->
  existsb (fun p => test p u) ps = false.
Proof.
  intros u v. induction ps as [|p ps IH]; intros Hs Hv H; [reflexivity|].
  cbn [existsb forallb] in *. apply andb_prop in Hs. destruct Hs as [Hp Hps].
  apply orb_false_elim in H. destruct H as [H1 H2].
  rewrite (@test_extends p u v Hp Hv H1), (IH Hps Hv H2). reflexivity.
Qed.

(** The opening keyword of a text is still its opening keyword when a tail
    starting with white space or a semicolon is cut off. *)
Lemma starts_restricts : forall x t v,
  (forall c, hd_error v = Some c -> spaceOrSemi c = true) ->
  test startsSelectOrWith (str ((x :: t) ++ v)) = true ->
  test startsSelectOrWith (str (x :: t)) = true.
Proof.
  intros x t v Hv H. unfold test, exec in *. rewrite chars_str in *.
  change startsSelectOrWith with
    (Seq Bol (Seq (Group 1 (Alt (liti "SELECT") (liti "WITH"))) WordB)) in *.
  cbn [app searchFrom] in H. rewrite searchFrom_bol in H.
  cbn [searchFrom]. rewrite searchFrom_bol.
  assert (Y : matchHere
                (Seq Bol (Seq (Group 1 (Alt (liti "SELECT") (liti "WITH"))) WordB))
                None (x :: t ++ v) <> None)
    by (destruct (matchHere _ None (x :: t ++ v)); [discriminate | discriminate H]).
  assert (X : matchHere
                (Seq Bol (Seq (Group 1 (Alt (liti "SELECT") (liti "WITH"))) WordB))
                None (x :: t) <> None).
  { unfold matchHere in *.
    refine (@run_restricts v (nonword_head v Hv)
              (Seq Bol (Seq (Group 1 (Alt (liti "SELECT") (liti "WITH"))) WordB))
              eq_refl _
              (@Some mstate) (@Some mstate) _
              (MState None (x :: t) []) (MState None ((x :: t) ++ v) []) _ Y).
    - intros c Hc. apply spaceOrSemi_refused. exact (Hv c Hc).
    - intros; discriminate.
    - split; reflexivity. }
  destruct (matchHere _ None (x :: t)); congruence.
Qed.

Lemma simple_forbidden : forallb simple forbidden = true.
Proof. vm_compute. reflexivity. Qed.

Lemma str_app : forall a b, str (a ++ b) = (str a ++ str b)%string.
Proof.
  induction a as [|x a IH]; intros b; [reflexivity|]. cbn. rewrite IH. reflexivity.
Qed.

(** A statement that passes the safety rules still passes them with its
    trailing semicolons removed. *)
Lemma sanitized_safe : forall t,
  trim t = t -> validateSqlSafety t = true ->
  validateSqlSafety (replaceAll trailingSemicolons "" t) = true.
Proof.
  intros t Ht H.
  pose proof (safe_starts _ H) as Hstart. rewrite Ht in Hstart.
  pose proof (safe_statement_kept _ Hstart) as Hne.
  destruct (starts_first_char _ Hstart) as (x & r & Et & Hx).
  destruct (opensStatement_plain _ Hx) as [Hxs Hxc].
  remember (replaceAll trailingSemicolons "" t) as u eqn:Hu.
  destruct (@trailing_cut (chars t) (S (List.length (chars t))) None) as (v & Hv & Hh);
    [lia|].
  change (scan trailingSemicolons (fun _ acc => [] ++ acc) (fun c acc => c :: acc) []
            (S (List.length (chars t))) None (chars t))
    with (replaceAllL trailingSemicolons (chars "") (chars t)) in Hv.
  assert (Eu : chars u = replaceAllL trailingSemicolons (chars "") (chars t))
    by (rewrite Hu; unfold replaceAll; apply chars_str).
  rewrite <- Eu in Hv.
  destruct (chars u) as [|x' r'] eqn:Ecu.
  { exfalso. apply Hne. rewrite <- (str_chars u), Ecu. reflexivity. }
  assert (x' = x) by (rewrite Et in Hv; cbn in Hv; congruence). subst x'.
  destruct (@trimL_cut x r' Hxs) as (w & Hw & Hsp).
  assert (Hcut : forall c, hd_error (w ++ v) = Some c -> spaceOrSemi c = true)
    by (apply head_of_cut; assumption).
  assert (Etu : chars (trim u) = trimL (x :: r'))
    by (unfold trim; rewrite chars_str, Ecu; reflexivity).
  assert (Ett : t = (trim u ++ str (w ++ v))%string).
  { rewrite <- (str_chars t), Hv, Hw, <- app_assoc, str_app.
    f_equal. unfold trim. rewrite Ecu. reflexivity. }
  assert (Hnw : isWordOpt (hd_error (chars (str (w ++ v)))) = false)
    by (rewrite chars_str; apply nonword_head; exact Hcut).
  (* the first character survives trimming *)
  assert (Etl : exists r2, trimL (x :: r') = x :: r2).
  { destruct (trimL (x :: r')) as [|y r2] eqn:E.
    - cbn [app] in Hw. subst w. cbn [forallb] in Hsp. rewrite Hxs in Hsp. discriminate.
    - cbn [app] in Hw. inversion Hw; subst. exists r2. reflexivity. }
  destruct Etl as (r2 & Er2).
  unfold validateSqlSafety in *.
  assert (Htu : truthy u = true).
  { unfold truthy. destruct (String.eqb_spec u ""); [contradiction | reflexivity]. }
  rewrite Htu. cbn [negb].
  destruct (negb (truthy t)); [discriminate|]. rewrite Ht in H.
  fold startsSelectOrWith in *.
  (* 1) the opening keyword *)
  assert (S1 : test startsSelectOrWith (trim u) = true).
  { rewrite <- (str_chars (trim u)), Etu, Er2.
    apply (@starts_restricts x r2 (w ++ v) Hcut).
    rewrite <- Er2, <- Etu, str_app, str_chars. rewrite <- Ett. exact Hstart. }
  rewrite S1. cbn [negb]. rewrite Hstart in H. cbn [negb] in H.
  (* 2) the forbidden patterns *)
  fold forbidden in *.
  destruct (existsb (fun p => test p t) forbidden) eqn:E2; [discriminate|].
  rewrite Ett in E2.
  rewrite (@existsb_test_extends (trim u) (str (w ++ v)) forbidden simple_forbidden Hnw E2).
  (* 3) the blocked calls *)
  destruct (test (wholeWord "xp_cmdshell") t || test (Seq WordB (liti "sp_")) t) eqn:E3;
    [discriminate|].
  apply orb_false_elim in E3. destruct E3 as [E3a E3b]. rewrite Ett in E3a, E3b.
  rewrite (@test_extends (wholeWord "xp_cmdshell") (trim u) (str (w ++ v)) eq_refl Hnw E3a).
  rewrite (@test_extends (Seq WordB (liti "sp_")) (trim u) (str (w ++ v)) eq_refl Hnw E3b).
  cbn [orb].
  (* 4) the length *)
  destruct (20000 <? String.length t) eqn:E4; [discriminate|].
  apply Nat.ltb_ge in E4.
  assert (L : String.length (trim u) <= String.length t).
  { pose proof (f_equal String.length Ett) as L0.
    rewrite <- !chars_length, chars_append, length_app in L0. rewrite <- !chars_length.
    rewrite L0. apply Nat.le_add_r. }
  assert (E5 : (20000 <? String.length (trim u)) = false)
    by (apply Nat.ltb_ge; eapply Nat.le_trans; [exact L | exact E4]).
  rewrite E5. reflexivity.
Qed.

Lemma fallback_safe : validateSqlSafety FALLBACK = true.
Proof. vm_compute. reflexivity. Qed.

(** X13: whatever [generateSqlFromPrompt] of the class returns, be it the
    client's statement without its trailing semicolons or the fallback,
    passes [validateSqlSafety]. *)
Theorem generate_returns_safe :
  forall w this rulesIntro rulesList minimalSchemaText userPrompt opts st sql,
    fst (generateSqlFromPrompt w this rulesIntro rulesList minimalSchemaText
           userPrompt opts st) = Ok sql ->
    validateSqlSafety sql = true.
Proof.
  intros w this rulesIntro rulesList minimalSchemaText userPrompt opts st sql.
  unfold generateSqlFromPrompt, bind, catch.
  destruct (_getCachedSchema w this st) as [[schemaObj|err] st1]; cbn [ret ask fst snd];
  (match goal with |- context [llmClient w ?n ?m] =>
     destruct (llmClient w n m) as [content|err2] end; cbn;
   [| intros H; inversion H; apply fallback_safe ];
   match goal with |- context [truthy ?t] => set (sqlText := t) end;
   destruct (truthy sqlText); cbn; [| intros H; inversion H; apply fallback_safe ];
   destruct (validateSqlSafety sqlText) eqn:Hsafe; cbn;
     [| intros H; inversion H; apply fallback_safe ];
   match goal with
   | |- context [(if ?b then _ else _) ?s0] =>
       destruct ((if b then checkSqlAgainstSchema w this sqlText else ret true) s0)
         as [[[|]|e] s1] eqn:Echk
   end;
   try (rewrite Echk); cbn; intros H; inversion H; try apply fallback_safe;
   apply sanitized_safe; [apply trim_idem | exact Hsafe]).
Qed.

Lemma generate_returns_safe_witness :
  fst (generateSqlFromPrompt worldDbDown configBare "" "" ""
         (Some "show sales") None initial) = Ok "SELECT 1"
  /\ validateSqlSafety "SELECT 1" = true.
Proof.
  split; [reflexivity|].
  apply (@generate_returns_safe worldDbDown configBare "" "" ""
           (Some "show sales") None initial "SELECT 1").
  reflexivity.
Defined.

Lemma startsWithL_spec : forall p l,
  startsWithL p l = true <-> exists b, l = p ++ b.
Proof.
  induction p as [|x p IH]; intros l.
  - cbn. split; [intros _; exists l; reflexivity | reflexivity].
  - destruct l as [|y l]; cbn [startsWithL].
    + split; [discriminate | intros (b & Hb); discriminate].
    + rewrite andb_true_iff, IH, Ascii.eqb_eq. split.
      * intros (-> & b & ->). exists b. reflexivity.
      * intros (b & Hb). inversion Hb; subst. split; [reflexivity | exists b; reflexivity].
Qed.

Lemma includesL_spec : forall p l,
  includesL p l = true <-> exists a b, l = a ++ p ++ b.
Proof.
  intros p. induction l as [|y l IH].
  - cbn [includesL]. rewrite orb_false_r, startsWithL_spec. split.
    + intros (b & Hb). exists [], b. exact Hb.
    + intros (a & b & H). destruct a; [exists b; exact H | discriminate].
  - cbn [includesL]. rewrite orb_true_iff, IH, startsWithL_spec. split.
    + intros [(b & Hb)|(a & b & Hab)].
      * exists [], b. exact Hb.
      * exists (y :: a), b. rewrite Hab. reflexivity.
    + intros (a & b & H). destruct a as [|z a].
      * left. exists b. exact H.
      * right. inversion H; subst. exists a, b. reflexivity.
Qed.

Lemma dropWhile_keeps : forall a x b,
  isSpace x = false ->
  exists a', dropWhile isSpace (a ++ x :: b) = a' ++ x :: b.
Proof.
  induction a as [|y a IH]; intros x b Hx.
  - exists []. cbn. rewrite Hx. reflexivity.
  - cbn [app dropWhile]. destruct (isSpace y).
    + apply IH. exact Hx.
    + exists (y :: a). reflexivity.
Qed.

(** Text between two characters that are no white space survives [trim]. *)
Lemma includesL_trim : forall x q z l,
  isSpace x = false -> isSpace z = false ->
  includesL (x :: q ++ [z]) l = true -> includesL (x :: q ++ [z]) (trimL l) = true.
Proof.
  intros x q z l Hx Hz H. apply includesL_spec in H. destruct H as (a & b & ->).
  apply includesL_spec. unfold trimL, trimStartL, trimEndL.
  cbn [app]. destruct (@dropWhile_keeps a x ((q ++ [z]) ++ b) Hx) as (a' & ->).
  replace (a' ++ x :: (q ++ [z]) ++ b) with ((a' ++ x :: q) ++ z :: b)
    by (rewrite <- !app_assoc; reflexivity).
  rewrite rev_app_distr. cbn [rev]. rewrite <- app_assoc. cbn [app].
  destruct (@dropWhile_keeps (rev b) z (rev (a' ++ x :: q)) Hz) as (b' & ->).
  rewrite rev_app_distr. cbn [rev]. rewrite rev_involutive.
  exists a', (rev b'). rewrite <- !app_assoc. reflexivity.
Qed.

Lemma startsWithL_map : forall (f : ascii -> ascii) p l,
  startsWithL p l = true -> startsWithL (map f p) (map f l) = true.
Proof.
  intros f p l H. apply startsWithL_spec in H. destruct H as (b & ->).
  apply startsWithL_spec. exists (map f b). apply map_app.
Qed.

Lemma includesL_map : forall (f : ascii -> ascii) p l,
  includesL p l = true -> includesL (map f p) (map f l) = true.
Proof.
  intros f p l H. apply includesL_spec in H. destruct H as (a & b & ->).
  apply includesL_spec. exists (map f a), (map f b). rewrite !map_app. reflexivity.
Qed.

(** X12: [validateSqlSafety] rejects every text that holds the comment
    marker of two hyphens, wherever it stands. *)
Theorem validateSqlSafety_rejects_comment_marker : forall sqlText,
  includes sqlText "--" = true -> validateSqlSafety sqlText = false.
Proof.
  intros sqlText H. unfold validateSqlSafety.
  destruct (negb (truthy sqlText)); [reflexivity|].
  destruct (negb (test startsSelectOrWith (trim sqlText))); [reflexivity|].
  assert (X : test (liti "--") (trim sqlText) = true).
  { rewrite test_liti. unfold includes in H.
    change (foldL (chars "--")) with (map foldChar (chars "--")).
    apply includesL_map. unfold trim. rewrite chars_str.
    apply (@includesL_trim "-"%char [] "-"%char); [reflexivity | reflexivity | exact H]. }
  assert (Y : existsb (fun p => test p (trim sqlText)) forbidden = true).
  { apply existsb_exists. exists (liti "--"). split; [|exact X].
    unfold forbidden. do 9 right. left. reflexivity. }
  rewrite Y. reflexivity.
Qed.

Lemma validateSqlSafety_rejects_comment_marker_witness :
  includes "SELECT 1 -- all of it" "--" = true
  /\ validateSqlSafety "SELECT 1 -- all of it" = false.
Proof.
  split; [reflexivity|].
  apply validateSqlSafety_rejects_comment_marker. reflexivity.
Defined.

End Sanitized.

(** ** The normal form of a prompt *)

Section Normalize.
Import SQLGenerator.

Lemma starLoop_class : forall p r fuel prev caps,
  List.length r <= fuel ->
  exists prev',
    starLoop fuel (run (Chr p)) (@Some mstate) (MState prev r caps)
    = Some (MState prev' (dropWhile p r) caps).
Proof.
  intros p. induction r as [|x t IH]; intros fuel prev caps Hf.
  - destruct fuel; cbn; eexists; reflexivity.
  - destruct fuel as [|f]; [cbn in Hf; lia|].
    cbn [starLoop].
    match goal with |- context [run (Chr p) ?k0 _] => set (k := k0) end.
    change (run (Chr p) k (MState prev (x :: t) caps))
      with (if p x then k (MState (Some x) t caps) else None).
    cbn [dropWhile]. destruct (p x).
    + subst k. cbn beta. cbn [ms_rest List.length].
      replace (List.length t <? S (List.length t)) with true
        by (symmetry; apply Nat.ltb_lt; lia).
      destruct (IH f (Some x) caps) as (prev' & E); [cbn in Hf; lia|].
      rewrite E. exists prev'. reflexivity.
    + eexists; reflexivity.
Qed.

Lemma matchHere_spaces : forall prev l,
  match l with
  | c :: t =>
      if isSpace c
      then exists prev', matchHere (plus ws) prev l
                         = Some (MState prev' (dropWhile isSpace t) [])
      else matchHere (plus ws) prev l = None
  | [] => matchHere (plus ws) prev l = None
  end.
Proof.
  intros prev [|c t]; [reflexivity|].
  unfold matchHere, plus, ws. cbn [run ms_rest ms_caps].
  destruct (isSpace c); [|reflexivity].
  apply starLoop_class. apply Nat.le_refl.
Qed.

Lemma scan_squeeze : forall fuel prev l,
  scan (plus ws) (fun _ acc => chars " " ++ acc) (fun c acc => c :: acc) [] fuel prev l
  = squeeze fuel l.
Proof.
  induction fuel as [|f IH]; intros prev l; [reflexivity|].
  cbn [scan squeeze]. pose proof (matchHere_spaces prev l) as M.
  destruct l as [|c t]; [rewrite M; reflexivity|].
  destruct (isSpace c).
  - destruct M as (prev' & ->). cbn [ms_rest ms_prev].
    pose proof (dropWhile_length isSpace t) as L.
    replace (0 <? List.length (c :: t) - List.length (dropWhile isSpace t)) with true
      by (symmetry; apply Nat.ltb_lt; cbn [List.length]; lia).
    rewrite IH. reflexivity.
  - rewrite M, IH. reflexivity.
Qed.

Lemma normalizePrompt_squeeze : forall p,
  chars (normalizePrompt (Some p))
  = squeeze (S (List.length (trimL (chars p)))) (trimL (chars p)).
Proof.
  intros p. unfold normalizePrompt. destruct (truthy p) eqn:E; cbn [negb].
  - unfold replaceAll, replaceAllL. rewrite chars_str. unfold trim. rewrite chars_str.
    apply scan_squeeze.
  - unfold truthy in E. apply negb_false_iff in E. apply String.eqb_eq in E. subst p. reflexivity.
Qed.

Lemma endsOk_cons : forall c t,
  endsOk (c :: t) = match t with [] => negb (isSpace c) | _ :: _ => endsOk t end.
Proof.
  intros c t. unfold endsOk. cbn [rev].
  destruct t as [|d t]; [reflexivity|].
  destruct (rev (d :: t)) as [|z r] eqn:E; [|reflexivity].
  apply (f_equal (@List.length ascii)) in E. rewrite length_rev in E. discriminate.
Qed.

Lemma endsOk_tail : forall c t, endsOk (c :: t) = true -> endsOk t = true.
Proof. intros c t H. rewrite endsOk_cons in H. destruct t; [reflexivity | exact H]. Qed.

Lemma endsOk_dropWhile : forall l,
  endsOk l = true -> endsOk (dropWhile isSpace l) = true.
Proof.
  induction l as [|c t IH]; intros H; [reflexivity|].
  cbn [dropWhile]. destruct (isSpace c); [|exact H].
  apply IH. eapply endsOk_tail. exact H.
Qed.

Lemma endsOk_after_space : forall c t,
  isSpace c = true -> endsOk (c :: t) = true ->
  exists d r, dropWhile isSpace t = d :: r /\ isSpace d = false.
Proof.
  intros c t. revert c. induction t as [|x t IH]; intros c Hc H.
  - rewrite endsOk_cons, Hc in H. discriminate.
  - rewrite endsOk_cons in H. cbn [dropWhile]. destruct (isSpace x) eqn:Ex.
    + apply (@IH x Ex H).
    + exists x, t. split; [reflexivity | exact Ex].
Qed.

(** [squeeze] of a text that does not end in white space is [spaced], and
    starts as the text does. *)
Lemma squeeze_spaced : forall fuel l,
  List.length l < fuel -> endsOk l = true ->
  spaced (squeeze fuel l) = true
  /\ hd_error (squeeze fuel l)
     = option_map (fun c => if isSpace c then " "%char else c) (hd_error l).
Proof.
  induction fuel as [|f IH]; intros l Hf He; [lia|].
  destruct l as [|c t]; [split; reflexivity|].
  cbn [squeeze]. cbn [List.length] in Hf. destruct (isSpace c) eqn:Ec.
  - destruct (@endsOk_after_space c t Ec He) as (d & r & Ed & Hd).
    pose proof (dropWhile_length isSpace t) as L.
    destruct (IH (dropWhile isSpace t)) as [S1 S2];
      [lia | apply endsOk_dropWhile; eapply endsOk_tail; exact He |].
    split; [|cbn; rewrite Ec; reflexivity].
    cbn [spaced]. change (isSpace " ") with true. cbn iota.
    rewrite S1, andb_true_r. cbn [Ascii.eqb Bool.eqb andb].
    destruct (squeeze f (dropWhile isSpace t)) as [|y ys];
      rewrite Ed in S2; cbn in S2; rewrite Hd in S2; [discriminate|].
    inversion S2; subst. rewrite Hd. reflexivity.
  - destruct (IH t) as [S1 S2]; [lia | eapply endsOk_tail; exact He |].
    split; [|cbn; rewrite Ec; reflexivity].
    cbn [spaced]. rewrite Ec. exact S1.
Qed.

Lemma trimL_ends : forall l, endsOk (trimL l) = true.
Proof.
  intros l. unfold endsOk, trimL, trimEndL. rewrite rev_involutive.
  destruct (dropWhile_head isSpace (rev (trimStartL l))) as [->|(x & t & -> & Hx)];
    [reflexivity|]. rewrite Hx. reflexivity.
Qed.

Lemma trimL_head : forall l,
  match trimL l with [] => true | c :: _ => negb (isSpace c) end = true.
Proof.
  intros l. unfold trimL, trimStartL.
  destruct (dropWhile_head isSpace l) as [->|(x & t & E & Hx)]; [reflexivity|].
  rewrite E. destruct (@trimL_cut x t Hx) as (w & Hw & _).
  unfold trimL, trimStartL in Hw. cbn [dropWhile] in Hw. rewrite Hx in Hw.
  destruct (trimEndL (x :: t)) as [|y r]; [reflexivity|].
  cbn [app] in Hw. inversion Hw; subst. rewrite Hx. reflexivity.
Qed.

Lemma normalizePrompt_normalized : forall p,
  normalized (normalizePrompt (Some p)) = true.
Proof.
  intros p. unfold normalized. rewrite normalizePrompt_squeeze.
  destruct (@squeeze_spaced (S (List.length (trimL (chars p)))) (trimL (chars p)))
    as [S1 S2]; [lia | apply trimL_ends |].
  rewrite S1, andb_true_r. pose proof (trimL_head (chars p)) as Hh.
  destruct (trimL (chars p)) as [|c t]; [reflexivity|].
  cbn [hd_error option_map] in S2. apply negb_true_iff in Hh. rewrite Hh in S2.
  destruct (squeeze _ (c :: t)) as [|y ys]; [reflexivity|].
  cbn in S2. inversion S2; subst. rewrite Hh. reflexivity.
Qed.

Lemma spaced_ends : forall l, spaced l = true -> endsOk l = true.
Proof.
  induction l as [|c t IH]; intros H; [reflexivity|].
  rewrite endsOk_cons. cbn [spaced] in H. destruct (isSpace c) eqn:Ec.
  - apply andb_prop in H. destruct H as [H H3]. apply andb_prop in H.
    destruct H as [H1 H2]. destruct t; [discriminate | apply IH; exact H3].
  - destruct t; [reflexivity | apply IH; exact H].
Qed.

Lemma squeeze_fixes : forall fuel l,
  List.length l < fuel -> spaced l = true -> squeeze fuel l = l.
Proof.
  induction fuel as [|f IH]; intros l Hf H; [lia|].
  destruct l as [|c t]; [reflexivity|].
  cbn [squeeze]. cbn [List.length] in Hf. cbn [spaced] in H.
  destruct (isSpace c) eqn:Ec.
  - apply andb_prop in H. destruct H as [H H3]. apply andb_prop in H.
    destruct H as [H1 H2]. apply Ascii.eqb_eq in H1. subst c.
    destruct t as [|d r]; [discriminate|]. apply negb_true_iff in H2.
    cbn [dropWhile]. rewrite H2. rewrite IH; [reflexivity | lia | exact H3].
  - rewrite IH; [reflexivity | lia | exact H].
Qed.

Lemma trimL_fixes : forall l,
  match l with [] => true | c :: _ => negb (isSpace c) end = true ->
  endsOk l = true -> trimL l = l.
Proof.
  intros l Hh He. unfold trimL, trimStartL, trimEndL.
  assert (E1 : dropWhile isSpace l = l).
  { destruct l as [|c t]; [reflexivity|]. cbn [dropWhile].
    apply negb_true_iff in Hh. rewrite Hh. reflexivity. }
  rewrite E1. unfold endsOk in He.
  destruct (rev l) as [|z r] eqn:Er.
  - rewrite <- (rev_involutive l), Er. reflexivity.
  - cbn [dropWhile]. apply negb_true_iff in He. rewrite He.
    rewrite <- Er. apply rev_involutive.
Qed.

Lemma normalized_fixed : forall s,
  normalized s = true -> normalizePrompt (Some s) = s.
Proof.
  intros s H. unfold normalized in H. apply andb_prop in H. destruct H as [Hh Hs].
  rewrite <- (str_chars (normalizePrompt (Some s))), normalizePrompt_squeeze.
  rewrite (@trimL_fixes _ Hh (@spaced_ends _ Hs)).
  rewrite squeeze_fixes; [apply str_chars | lia | exact Hs].
Qed.

(** X14: [normalizePrompt] yields words separated by single spaces, with
    no white space at either end; it leaves a text of that form as it is,
    so that normalising twice is normalising once. *)
Theorem normalizePrompt_normal_form : forall userPrompt,
  normalized (normalizePrompt userPrompt) = true
  /\ normalizePrompt (Some (normalizePrompt userPrompt)) = normalizePrompt userPrompt
  /\ (forall s, normalized s = true -> normalizePrompt (Some s) = s).
Proof.
  intros userPrompt. split; [|split].
  - destruct userPrompt as [p|]; [apply normalizePrompt_normalized | reflexivity].
  - destruct userPrompt as [p|]; [|reflexivity].
    apply normalized_fixed. apply normalizePrompt_normalized.
  - apply normalized_fixed.
Qed.

End Normalize.

(** ** The query endpoint *)

Section Endpoint.
Import Server.


(** X4: [processUserQuery] always hands back a statement that is not
    empty, holds no markdown fence and opens with SELECT or WITH; when its
    result carries an error, that is the message of an error the model
    call threw, and the statement is the fallback. *)
Theorem processUserQuery_statement :
  forall callGroqChat systemText messageOf userInput,
  let r := processUserQuery callGroqChat systemText messageOf userInput in
  q_sql r <> ""
  /\ hasFence (chars (q_sql r)) = false
  /\ (startsWith (toUpperCase (q_sql r)) "SELECT" = true
      \/ startsWith (toUpperCase (q_sql r)) "WITH" = true)
  /\ (forall message, q_error r = Some message ->
        q_sql r = FALLBACK
        /\ exists messages err,
             callGroqChat messages = Throw err /\ messageOf err = Some message).
Proof.
  intros callGroqChat systemText messageOf userInput r. subst r.
  unfold processUserQuery, generateSqlFromPrompt.
  match goal with |- context [callGroqChat ?m] =>
    destruct (callGroqChat m) as [content|e] eqn:E end.
  - cbn [q_sql q_error].
    split; [apply validateAndCleanSql_nonempty|].
    split; [apply validateAndCleanSql_fence_free|].
    split; [apply validateAndCleanSql_opens|].
    intros message H. discriminate.
  - cbn [q_sql q_error]. split; [discriminate|]. split; [reflexivity|].
    split; [left; reflexivity|].
    intros message H. split; [reflexivity|].
    eexists. exists e. split; [exact E | exact H].
Qed.

(** X5: a 200 answer of the [/api/query] handler carries the statement
    that was generated for a prompt that is not empty, that [isSafeSelect]
    accepted and that the database ran, together with the rows the
    database returned. *)
Theorem apiQuery_runs_only_safe :
  forall generateSql runQuery prompt sqlQuery rows viz,
    apiQuery generateSql runQuery prompt
    = {| status := 200; body := QueryBody sqlQuery rows viz |} ->
    exists p answer,
      prompt = Some p /\ p <> ""
      /\ generateSql p = Ok (Some sqlQuery)
      /\ isSafeSelect sqlQuery = true
      /\ runQuery sqlQuery = Ok answer
      /\ rows = match recordset answer with Some rows => rows | None => [] end.
Proof.
  intros generateSql runQuery prompt sqlQuery rows viz H. unfold apiQuery in H.
  destruct prompt as [p|]; [|discriminate].
  destruct (truthy p) eqn:Ep; cbn [negb] in H; [|discriminate].
  destruct (generateSql p) as [[q|]|err] eqn:Eg; try discriminate.
  destruct (negb (truthy q)); [discriminate|].
  destruct (isSafeSelect q) eqn:Es; cbn [negb] in H; [|discriminate].
  destruct (runQuery q) as [answer|err] eqn:Eq; [|discriminate].
  inversion H; subst. exists p, answer.
  split; [reflexivity|]. split; [intros ->; discriminate|].
  repeat split; assumption.
Qed.

Lemma apiQuery_runs_only_safe_witness :
  exists p answer,
    Some "count deals" = Some p /\ p <> ""
    /\ (fun _ : string => Ok (Some "SELECT COUNT(*) FROM SalesReport_Form_Input")) p
       = Ok (Some "SELECT COUNT(*) FROM SalesReport_Form_Input")
    /\ isSafeSelect "SELECT COUNT(*) FROM SalesReport_Form_Input" = true
    /\ emptyDb "SELECT COUNT(*) FROM SalesReport_Form_Input" = Ok answer
    /\ @nil Row = match recordset answer with Some rows => rows | None => [] end.
Proof.
  apply (@apiQuery_runs_only_safe
           (fun _ => Ok (Some "SELECT COUNT(*) FROM SalesReport_Form_Input"))
           emptyDb (Some "count deals")
           "SELECT COUNT(*) FROM SalesReport_Form_Input" [] "").
  vm_compute. reflexivity.
Defined.

(** X6: in the later server a 500 answer of [/api/query] always reports an
    error thrown by the model call or by the database running an accepted
    statement: since [validateAndCleanSql] never returns an empty text, the
    answer that the model returned no SQL is never given. *)
Theorem apiQueryAnalysed_500 :
  forall callGroqChat systemText runQuery prompt,
    status (apiQueryAnalysed callGroqChat systemText runQuery prompt) = 500 ->
    exists err,
      body (apiQueryAnalysed callGroqChat systemText runQuery prompt)
      = ErrorBody err None
      /\ ((exists messages, callGroqChat messages = Throw err)
          \/ (exists sql, isSafeSelect sql = true /\ runQuery sql = Throw err)).
Proof.
  intros callGroqChat systemText runQuery prompt.
  unfold apiQueryAnalysed, apiQuery, generateSqlFromPrompt.
  destruct prompt as [p|]; [|discriminate].
  destruct (negb (truthy p)); [discriminate|].
  match goal with |- context [callGroqChat ?m] =>
    destruct (callGroqChat m) as [content|e] eqn:E end.
  - match goal with |- context [validateAndCleanSql ?a ?b] =>
      pose proof (validateAndCleanSql_nonempty a b) as P1;
      set (sql := validateAndCleanSql a b) in * end.
    assert (T : truthy sql = true).
    { unfold truthy. destruct (String.eqb_spec sql ""); [contradiction | reflexivity]. }
    rewrite T. cbn [negb].
    destruct (isSafeSelect sql) eqn:Es; cbn [negb]; [|discriminate].
    destruct (runQuery sql) as [answer|err] eqn:Eq; [discriminate|].
    intros _. exists err. split; [reflexivity|]. right. exists sql. split; assumption.
  - intros _. exists e. split; [reflexivity|]. left. eexists. exact E.
Qed.

Lemma apiQueryAnalysed_500_witness :
  exists err,
    body (apiQueryAnalysed groqDown (fun _ => "") emptyDb (Some "count deals"))
    = ErrorBody err None
    /\ ((exists messages, groqDown messages = Throw err)
        \/ (exists sql, isSafeSelect sql = true /\ emptyDb sql = Throw err)).
Proof.
  apply (@apiQueryAnalysed_500 groqDown (fun _ => "") emptyDb (Some "count deals")).
  reflexivity.
Defined.



End Endpoint.

(** ** The schema cache *)

Section Cache.
Import SQLGenerator.

(** X15: with neither a cache server nor a database configured,
    [_getCachedSchema] never throws and returns the snapshot held in
    memory, however old it is, leaving it and its time stamp in place. *)
Theorem getCachedSchema_without_sources : forall w this st,
  hasRedis this = false -> dbConfig this = None ->
  fst (_getCachedSchema w this st) = Ok (_schema st)
  /\ _schema (snd (_getCachedSchema w this st)) = _schema st
  /\ _schemaFetchedAt (snd (_getCachedSchema w this st)) = _schemaFetchedAt st.
Proof.
  intros w this st Hr Hd. unfold _getCachedSchema, bind, getState, ret.
  cbn [fst snd]. destruct (_schema st) as [s|] eqn:Es.
  - unfold dateNow, ask. cbn [fst snd].
    destruct ((clock w (ticks st) - _schemaFetchedAt st <? 1000 * schemaCacheTTL this)%Z).
    + cbn. rewrite Es. repeat split; reflexivity.
    + rewrite Hr, Hd. cbn. rewrite Es. repeat split; reflexivity.
  - rewrite Hr, Hd. cbn. rewrite Es. repeat split; reflexivity.
Qed.

Lemma getCachedSchema_without_sources_witness :
  (clock worldDbUp 4000 - 0 <? 1000 * schemaCacheTTL configBare)%Z = false
  /\ fst (_getCachedSchema worldDbUp configBare (holding [("Deals", [])]))
     = Ok (Some [("Deals", [])]).
Proof.
  split; [vm_compute; reflexivity|].
  apply (@getCachedSchema_without_sources worldDbUp configBare
           (holding [("Deals", [])])); reflexivity.
Defined.

(** X16: a snapshot just read by [refreshSchemaFromDb] is served from
    memory while the clock stays within the time to live: the next
    [_getCachedSchema] returns it after reading the clock only, asking
    neither the cache server nor the database. *)
Theorem refreshed_schema_is_served : forall w this st schema st',
  refreshSchemaFromDb w this st = (Ok schema, st') ->
  (clock w (ticks st') - _schemaFetchedAt st' < 1000 * schemaCacheTTL this)%Z ->
  _getCachedSchema w this st'
  = (Ok (Some schema),
     {| _schema := Some schema; _schemaFetchedAt := _schemaFetchedAt st';
        ticks := S (ticks st') |}).
Proof.
  intros w this st schema st' Hr Hf.
  assert (Hs : _schema st' = Some schema).
  { unfold refreshSchemaFromDb in Hr. destruct (dbConfig this) as [cfg|];
      [|discriminate].
    unfold bind, ask, dateNow, setSchema, ret in Hr. cbn in Hr.
    destruct (dbQuery w (ticks st) cfg) as [rows|err]; [|discriminate].
    cbn in Hr. destruct (hasRedis this).
    - cbn in Hr.
      match type of Hr with context [redisSet w ?a ?b ?c ?d] =>
        destruct (redisSet w a b c d) as [[]|err] end; [|discriminate].
      inversion Hr; subst. reflexivity.
    - inversion Hr; subst. reflexivity. }
  unfold _getCachedSchema, bind, getState, ret. cbn [fst snd]. rewrite Hs.
  unfold dateNow, ask. cbn [fst snd].
  apply Z.ltb_lt in Hf. rewrite Hf. rewrite Hs. reflexivity.
Qed.

Lemma refreshed_schema_is_served_witness :
  _getCachedSchema worldDbUp configWithDb
    (snd (refreshSchemaFromDb worldDbUp configWithDb initial))
  = (Ok (Some [("Deals", [ {| column := "ID"; data_type := "int" |};
                           {| column := "STOCK"; data_type := "varchar" |} ]);
               ("Lots", [ {| column := "Lot"; data_type := "varchar" |} ])]),
     {| _schema := Some [("Deals", [ {| column := "ID"; data_type := "int" |};
                                     {| column := "STOCK"; data_type := "varchar" |} ]);
                         ("Lots", [ {| column := "Lot"; data_type := "varchar" |} ])];
        _schemaFetchedAt := 1000%Z; ticks := 3 |}).
Proof.
  apply (@refreshed_schema_is_served worldDbUp configWithDb initial).
  - vm_compute. reflexivity.
  - vm_compute. reflexivity.
Defined.

End Cache.

(** ** Grouping *)

Section GroupBy.
Import Server.

Lemma searchFrom_at : forall r a l prev pos,
  matchHere r (prevAfter prev a) l <> None ->
  searchFrom r prev (a ++ l) pos <> None.
Proof.
  intros r. induction a as [|x a IH]; intros l prev pos H.
  - apply searchFrom_here. exact H.
  - cbn [app searchFrom].
    destruct (matchHere r prev (x :: a ++ l)); [discriminate|].
    apply IH. rewrite (prevAfter_cons prev). exact H.
Qed.

Lemma by_location_matches : forall t,
  includes t "by location" = true -> test (sp "by" "location") t = true.
Proof.
  intros t H. unfold includes in H. apply includesL_spec in H.
  destruct H as (a & b & E). unfold test, exec. rewrite E.
  assert (X : searchFrom (sp "by" "location") None (a ++ chars "by location" ++ b) 0
              <> None).
  { apply searchFrom_at. generalize (prevAfter None a). intros prev.
    vm_compute. discriminate. }
  destruct (searchFrom _ None (a ++ chars "by location" ++ b) 0); congruence.
Qed.

Lemma per_location_matches : forall t,
  includes t "per location" = true -> test (sp "per" "location") t = true.
Proof.
  intros t H. unfold includes in H. apply includesL_spec in H.
  destruct H as (a & b & E). unfold test, exec. rewrite E.
  assert (X : searchFrom (sp "per" "location") None (a ++ chars "per location" ++ b) 0
              <> None).
  { apply searchFrom_at. generalize (prevAfter None a). intros prev.
    vm_compute. discriminate. }
  destruct (searchFrom _ None (a ++ chars "per location" ++ b) 0); congruence.
Qed.

(** X11: [detectGroupBy] answers with the column of the first pattern
    found in the lower-cased prompt, and with nothing when no pattern is
    found: the substring test after the loop never adds an answer, since
    a prompt that holds one of its two phrases matches the pattern of the
    same words. *)
Theorem detectGroupBy_first_pattern : forall prompt,
  detectGroupBy prompt
  = option_map snd
      (find (fun gp => test (fst gp) (toLowerCase prompt)) groupPatterns).
Proof.
  intros prompt. unfold detectGroupBy.
  destruct (find (fun gp => test (fst gp) (toLowerCase prompt)) groupPatterns)
    as [gp|] eqn:E; [reflexivity|]. cbn [option_map].
  assert (N : forall gp, In gp groupPatterns ->
                test (fst gp) (toLowerCase prompt) = false)
    by (intros gp Hgp; exact (find_none _ _ E gp Hgp)).
  assert (N1 : test (sp "by" "location") (toLowerCase prompt) = false)
    by (apply (N (sp "by" "location", "DEALER_LOCATION")); cbn; tauto).
  assert (N2 : test (sp "per" "location") (toLowerCase prompt) = false)
    by (apply (N (sp "per" "location", "DEALER_LOCATION")); cbn; tauto).
  destruct (includes (toLowerCase prompt) "by location") eqn:I1.
  { rewrite (by_location_matches _ I1) in N1. discriminate. }
  destruct (includes (toLowerCase prompt) "per location") eqn:I2.
  { rewrite (per_location_matches _ I2) in N2. discriminate. }
  reflexivity.
Qed.

End GroupBy.

(** ** The batch endpoint *)

Section BatchFacts.
Import Server.

Variable Request : Type.
Variable typeOf : Request -> option string.
Variable askGrokGeneral : nat -> Request -> outcome string.
Variable analyzeDataWithGrok : nat -> Request -> outcome string.
Variable analyzeTextWithGrok : nat -> Request -> outcome string.

Lemma batchLoop_spec : forall requests index results,
  batchLoop typeOf askGrokGeneral analyzeDataWithGrok analyzeTextWithGrok
    index requests results
  = results ++ map (fun p => batchEntry typeOf askGrokGeneral analyzeDataWithGrok
                      analyzeTextWithGrok (fst p) (snd p))
                 (combine (seq index (List.length requests)) requests).
Proof.
  induction requests as [|r rest IH]; intros index results.
  - cbn. rewrite app_nil_r. reflexivity.
  - cbn [batchLoop List.length seq combine map]. rewrite IH, <- app_assoc. reflexivity.
Qed.

Lemma entries_index : forall requests index,
  map entryIndex (map (fun p => batchEntry typeOf askGrokGeneral analyzeDataWithGrok
                      analyzeTextWithGrok (fst p) (snd p))
                    (combine (seq index (List.length requests)) requests))
  = seq index (List.length requests).
Proof.
  induction requests as [|r rest IH]; intros index; [reflexivity|].
  cbn [List.length seq combine map fst snd]. rewrite IH. f_equal.
  unfold batchEntry. destruct r as [| |request]; cbn; try reflexivity.
  destruct (typeOf request) as [type|]; [|reflexivity].
  destruct (String.eqb type "general"); [destruct (askGrokGeneral index request); reflexivity|].
  destruct (String.eqb type "data"); [destruct (analyzeDataWithGrok index request); reflexivity|].
  destruct (String.eqb type "text"); [destruct (analyzeTextWithGrok index request); reflexivity|].
  reflexivity.
Qed.

Lemma entries_nth : forall requests index i request,
  nth_error requests i = Some request ->
  nth_error (map (fun p => batchEntry typeOf askGrokGeneral analyzeDataWithGrok
                      analyzeTextWithGrok (fst p) (snd p))
               (combine (seq index (List.length requests)) requests)) i
  = Some (batchEntry typeOf askGrokGeneral analyzeDataWithGrok
                      analyzeTextWithGrok (index + i) request).
Proof.
  induction requests as [|r rest IH]; intros index i request H.
  - destruct i; discriminate.
  - destruct i as [|i]; cbn [List.length seq combine map nth_error fst snd] in *.
    + inversion H; subst. rewrite Nat.add_0_r. reflexivity.
    + rewrite (IH (S index) i request H). f_equal. f_equal. lia.
Qed.

(** X17: the [/api/analyze-batch] handler answers 200 exactly when the
    batch holds one to five requests, whatever the analysis functions do;
    the answer then has one entry per request, in order and under its
    position, built from that request alone, and [completed] and [failed]
    add up to [total]. *)
Theorem apiAnalyzeBatch_accounting : forall requests,
  (b_status (apiAnalyzeBatch typeOf askGrokGeneral analyzeDataWithGrok
               analyzeTextWithGrok requests) = 200 <->
     exists items, requests = Some items
                   /\ 1 <= List.length items /\ List.length items <= 5)
  /\ (forall total completed failed results,
        b_body (apiAnalyzeBatch typeOf askGrokGeneral analyzeDataWithGrok
                  analyzeTextWithGrok requests)
        = BatchSummary total completed failed results ->
        exists items,
          requests = Some items
          /\ total = List.length items
          /\ List.length results = total
          /\ completed + failed = total
          /\ map entryIndex results = seq 0 total
          /\ (forall i request, nth_error items i = Some request ->
                nth_error results i
                = Some (batchEntry typeOf askGrokGeneral analyzeDataWithGrok
                          analyzeTextWithGrok i request))).
Proof.
  intros requests. unfold apiAnalyzeBatch. split.
  - destruct requests as [items|].
    + destruct (List.length items =? 0) eqn:E0.
      * apply Nat.eqb_eq in E0. cbn. split; [discriminate|].
        intros (it & H & H1 & H2). inversion H; subst. lia.
      * apply Nat.eqb_neq in E0. destruct (5 <? List.length items) eqn:E5.
        -- apply Nat.ltb_lt in E5. cbn. split; [discriminate|].
           intros (it & H & H1 & H2). inversion H; subst. lia.
        -- apply Nat.ltb_ge in E5. cbn. split; [|reflexivity].
           intros _. exists items. split; [reflexivity|]. lia.
    + cbn. split; [discriminate|]. intros (it & H & _). discriminate.
  - intros total completed failed results H.
    destruct requests as [items|]; [|discriminate].
    destruct (List.length items =? 0); [discriminate|].
    destruct (5 <? List.length items); [discriminate|].
    cbn [b_body] in H. inversion H; subst. clear H. exists items.
    rewrite batchLoop_spec. cbn [app].
    split; [reflexivity|]. split; [reflexivity|]. split; [|split; [|split]].
    + rewrite length_map, length_combine, length_seq. apply Nat.min_id.
    + rewrite filter_length.
      rewrite length_map, length_combine, length_seq. apply Nat.min_id.
    + apply entries_index.
    + intros i request Hi. rewrite (entries_nth _ 0 _ Hi). reflexivity.
Qed.

End BatchFacts.

(** ** The range of the visualization *)

Section VisualizationRange.
Import Server.

Lemma chartTypeOf_range : forall prompt,
  In (chartTypeOf prompt) ["bar"; "line"; "pie"; "table"; ""].
Proof.
  intros prompt. rewrite find_chart.
  repeat match goal with |- context [if ?b then _ else _] => destruct b end;
    cbn; tauto.
Qed.

(** X18: the visualization sent by the [/api/query] handler is one of bar,
    line, pie and table, or empty; it is empty only when the prompt names
    no chart and the database returned no row. *)
Theorem visualization_range : forall prompt result,
  In (visualization prompt result) ["bar"; "line"; "pie"; "table"; ""]
  /\ (visualization prompt result = "" ->
      chartTypeOf prompt = ""
      /\ (recordset result = None \/ recordset result = Some [])).
Proof.
  intros prompt result. pose proof (chartTypeOf_range prompt) as R.
  unfold visualization. destruct (recordset result) as [[|first rest]|].
  - split; [exact R|]. intros E. split; [exact E | right; reflexivity].
  - destruct (String.eqb_spec (chartTypeOf prompt) "") as [E|E].
    + split.
      * repeat match goal with |- context [if ?b then _ else _] => destruct b end;
          cbn; tauto.
      * repeat match goal with |- context [if ?b then _ else _] => destruct b end;
          discriminate.
    + split; [exact R|]. intros E'. contradiction.
  - split; [exact R|]. intros E. split; [exact E | left; reflexivity].
Qed.

End VisualizationRange.
